(** * Policy timeline reconciliation: a shallow embedding of the two views

    The repository renders an insurance report in two places:
    - [dash_pdf_ui/static/operator_view.js] (the report page: headline metrics
      in [renderReport], the policy list in [renderPolicies]);
    - the single-policy page (an unnamed script; [renderPolicyFull]).

    Both are JavaScript running against a browser.  What is embedded here is
    the reconciliation logic of the two files: date parsing, month arithmetic,
    operator matching, term resolution, gap badges and the headline metrics.
    DOM construction is left out; the values written into the DOM are the
    results of the functions below.

    Conventions of the embedding.
    - A JavaScript string is a [string] holding its UTF-8 bytes.  The regular
      expressions of the source only look at ASCII digits, word characters and
      punctuation, so matching on bytes and on UTF-16 code units finds the same
      groups.  White space and case mapping are the ASCII ones.
    - The report is parsed JSON.  A text field that is absent, [null] or the
      empty string is the empty string here: the source only ever tests such
      fields through truthiness ([x || y], [if (x)], [!x]).
    - A JavaScript number is [NaN] or an integer [Num z]; the source computes
      with day and month counts and with millisecond time values only.
    - A [Date] is its time value (milliseconds since the epoch, or [NaN] for an
      invalid date); [null] is [None].
    - What the browser supplies ([Date.parse], the local time zone) is the class
      [JsHost]; the current instant is an argument. *)

From Stdlib Require Import ZArith Lia Ascii String List Bool DecimalString.
From Stdlib Require DecimalPos DecimalZ.
From stdpp Require Import base option list gmap strings.

Local Open Scope Z_scope.

(** ** JavaScript values *)

Module Js.

Inductive JsNum : Type :=
| NaN
| Num (z : Z).

Definition num_eqb (a b : JsNum) : bool :=
  match a, b with
  | Num x, Num y => x =? y
  | _, _ => false
  end.

(** [a < b], [a <= b], [a > b]: false as soon as one side is [NaN]. *)
Definition num_ltb (a b : JsNum) : bool :=
  match a, b with
  | Num x, Num y => x <? y
  | _, _ => false
  end.

Definition num_leb (a b : JsNum) : bool :=
  match a, b with
  | Num x, Num y => x <=? y
  | _, _ => false
  end.

Definition num_gtb (a b : JsNum) : bool := num_ltb b a.

Definition num_sub (a b : JsNum) : JsNum :=
  match a, b with
  | Num x, Num y => Num (x - y)
  | _, _ => NaN
  end.

Definition num_add (a b : JsNum) : JsNum :=
  match a, b with
  | Num x, Num y => Num (x + y)
  | _, _ => NaN
  end.

Definition num_mul (a b : JsNum) : JsNum :=
  match a, b with
  | Num x, Num y => Num (x * y)
  | _, _ => NaN
  end.

(** [Math.abs] *)
Definition Math_abs (a : JsNum) : JsNum :=
  match a with
  | Num x => Num (Z.abs x)
  | NaN => NaN
  end.

(** [Math.max(a, b)]: [NaN] when either argument is. *)
Definition Math_max (a b : JsNum) : JsNum :=
  match a, b with
  | Num x, Num y => Num (Z.max x y)
  | _, _ => NaN
  end.

(** [Math.ceil(a / d)] and [Math.floor(a / d)] for a positive integer [d]:
    the quotient is rounded up (down) to an integer. *)
Definition ceil_div (a : JsNum) (d : Z) : JsNum :=
  match a with
  | Num x => Num (- ((- x) / d))
  | NaN => NaN
  end.

Definition floor_div (a : JsNum) (d : Z) : JsNum :=
  match a with
  | Num x => Num (x / d)
  | NaN => NaN
  end.

(** Decimal rendering of an integer, as [Number.prototype.toString]. *)
Definition Z_to_string (z : Z) : string :=
  NilZero.string_of_int (Z.to_int z).

Definition num_to_string (a : JsNum) : string :=
  match a with
  | Num z => Z_to_string z
  | NaN => "NaN"
  end.

(** *** Strings *)

(** Truthiness of a string: every string but the empty one. *)
Definition truthy (s : string) : bool :=
  match s with
  | EmptyString => false
  | String _ _ => true
  end.

(** [a || b] on text fields. *)
Definition or_else (a b : string) : string :=
  if truthy a then a else b.

(** The em-dash the pages show for a missing value. *)
Definition dash : string := "—".

Definition is_digit (c : ascii) : bool :=
  let n := nat_of_ascii c in (48 <=? n)%nat && (n <=? 57)%nat.

Definition is_upper (c : ascii) : bool :=
  let n := nat_of_ascii c in (65 <=? n)%nat && (n <=? 90)%nat.

Definition is_lower (c : ascii) : bool :=
  let n := nat_of_ascii c in (97 <=? n)%nat && (n <=? 122)%nat.

(** [\w]: letters, digits and the underscore. *)
Definition is_word (c : ascii) : bool :=
  is_digit c || is_upper c || is_lower c || (nat_of_ascii c =? 95)%nat.

(** [\s] within ASCII: tab, line feed, vertical tab, form feed, carriage
    return, space.  The white space of the browser also takes the no-break
    space and other characters outside ASCII: [trim], the split on white
    space and the patterns below are those of the browser on ASCII text
    ([ascii_text] further down), and the statements that lean on them say
    so. *)
Definition is_space (c : ascii) : bool :=
  let n := nat_of_ascii c in ((9 <=? n)%nat && (n <=? 13)%nat) || (n =? 32)%nat.

(** [toLowerCase] on ASCII text: the letters A to Z.  The browser also maps
    the cased letters outside ASCII, which are left as they are here; the
    matching by name is stated over the operation of the browser
    ([OperatorView.ByName]). *)
Definition lower_char (c : ascii) : ascii :=
  if is_upper c then ascii_of_nat (nat_of_ascii c + 32) else c.

Fixpoint toLowerCase (s : string) : string :=
  match s with
  | EmptyString => EmptyString
  | String c r => String (lower_char c) (toLowerCase r)
  end.

Fixpoint trimStart (s : string) : string :=
  match s with
  | EmptyString => EmptyString
  | String c r => if is_space c then trimStart r else s
  end.

(** Drops the trailing white space: a character is kept when something that
    is kept follows it, or when it is not white space itself. *)
Fixpoint trimEnd (s : string) : string :=
  match s with
  | EmptyString => EmptyString
  | String c r =>
      match trimEnd r with
      | EmptyString => if is_space c then EmptyString else String c EmptyString
      | r' => String c r'
      end
  end.

Definition trim (s : string) : string := trimEnd (trimStart s).

(** [s.split(/\s+/)]: the pieces between maximal runs of white space, the
    empty pieces at either end included.  [cur] is the piece being read, in
    reverse; [in_gap] tells that the previous character was white space. *)
Fixpoint split_ws_go (cur : list ascii) (in_gap : bool) (l : list ascii)
  : list string :=
  match l with
  | [] => [string_of_list_ascii (rev cur)]
  | c :: r =>
      if is_space c then
        if in_gap then split_ws_go cur true r
        else string_of_list_ascii (rev cur) :: split_ws_go [] true r
      else split_ws_go (c :: cur) false r
  end.

Definition split_ws (s : string) : list string :=
  split_ws_go [] false (list_ascii_of_string s).

Fixpoint is_prefix (p s : string) : bool :=
  match p, s with
  | EmptyString, _ => true
  | String a p', String b s' => Ascii.eqb a b && is_prefix p' s'
  | String _ _, EmptyString => false
  end.

(** [s.includes(p)] *)
Fixpoint includes (s p : string) : bool :=
  is_prefix p s ||
  match s with
  | EmptyString => false
  | String _ r => includes r p
  end.

(** [String(n).padStart(2, '0')] for the text [s] of a number. *)
Definition padStart2 (s : string) : string :=
  match s with
  | EmptyString => "00"
  | String c EmptyString => String "0" s
  | _ => s
  end.

(** *** Calendar of the host

    [Date] works on a time value; its local fields are read off the proleptic
    Gregorian calendar.  Days are counted from 1970-01-01; months are 1..12
    here ([getMonth] subtracts one). *)

(** In the source: [1000 * 60 * 60 * 24]. *)
Definition DAY : Z := 1000 * 60 * 60 * 24.

Definition days_from_civil (y m d : Z) : Z :=
  let y' := if m <=? 2 then y - 1 else y in
  let era := y' / 400 in
  let yoe := y' - era * 400 in
  let mp := if m <=? 2 then m + 9 else m - 3 in
  let doy := (153 * mp + 2) / 5 + d - 1 in
  let doe := yoe * 365 + yoe / 4 - yoe / 100 + doy in
  era * 146097 + doe - 719468.

Definition civil_from_days (z : Z) : Z * Z * Z :=
  let z' := z + 719468 in
  let era := z' / 146097 in
  let doe := z' - era * 146097 in
  let yoe := (doe - doe / 1460 + doe / 36524 - doe / 146096) / 365 in
  let doy := doe - (365 * yoe + yoe / 4 - yoe / 100) in
  let mp := (5 * doy + 2) / 153 in
  let d := doy - (153 * mp + 2) / 5 + 1 in
  let m := if mp <? 10 then mp + 3 else mp - 9 in
  let y := yoe + era * 400 in
  (if m <=? 2 then y + 1 else y, m, d).

Definition is_leap (y : Z) : bool :=
  ((y mod 4 =? 0) && negb (y mod 100 =? 0)) || (y mod 400 =? 0).

Definition days_in_month (y m : Z) : Z :=
  if m =? 2 then (if is_leap y then 29 else 28)
  else if (m =? 4) || (m =? 6) || (m =? 9) || (m =? 11) then 30
  else 31.

(** *** What the browser supplies *)

(** [tzOffset]: local time is UTC plus this many milliseconds (a zone with a
    fixed offset).  [Date_parse]: the host's [Date.parse], which the standard
    leaves to the implementation outside its own date-time format. *)
Class JsHost : Type := {
  tzOffset : Z;
  Date_parse : string -> JsNum
}.

(** A [Date] object, by its time value. *)
Definition JsDate : Type := JsNum.

Section Dates.
Context {host : JsHost}.

(** [new Date(text)] has the time value [Date.parse(text)]. *)
Definition new_Date (s : string) : JsDate := Date_parse s.

(** The local calendar day a time value falls on. *)
Definition local_day (t : Z) : Z := (t + tzOffset) / DAY.

Definition local_field (f : Z * Z * Z -> Z) (d : JsDate) : JsNum :=
  match d with
  | Num t => Num (f (civil_from_days (local_day t)))
  | NaN => NaN
  end.

Definition getFullYear : JsDate -> JsNum := local_field (fun c => fst (fst c)).
Definition getMonth : JsDate -> JsNum := local_field (fun c => snd (fst c) - 1).
Definition getDate : JsDate -> JsNum := local_field (fun c => snd c).

(** [d.setHours(0, 0, 0, 0)]: the local midnight that starts the day of [d],
    in the zone of the host, which keeps one offset; [Zoned.setHours0]
    below is the same where the offset changes with the date. *)
Definition setHours0 (d : JsDate) : JsDate :=
  match d with
  | Num t => Num (local_day t * DAY - tzOffset)
  | NaN => NaN
  end.

End Dates.

(** *** The two date patterns of the source

    [/\b(\d{2})\/(\d{2})\/(\d{4})\b/] and [/\b(\d{4})-(\d{2})-(\d{2})\b/].
    Both have a fixed length and start and end on a digit, so [\b] asks that
    the character before the match, and the one after it, is not a word
    character (or that there is none).  [String.prototype.match] returns the
    leftmost match. *)

Definition boundary_after (l : list ascii) : bool :=
  match l with
  | [] => true
  | c :: _ => negb (is_word c)
  end.

Definition is_slash (c : ascii) : bool := Ascii.eqb c "/".
Definition is_hyphen (c : ascii) : bool := Ascii.eqb c "-".

Definition str (l : list ascii) : string := string_of_list_ascii l.

(** The groups when the slash pattern matches at the head of [l] (the left
    boundary is the caller's). *)
Definition mdy_here (l : list ascii) : option (string * string * string) :=
  match l with
  | a :: b :: s1 :: c :: d :: s2 :: e :: f :: g :: h :: rest =>
      if is_digit a && is_digit b && is_slash s1 && is_digit c && is_digit d
         && is_slash s2 && is_digit e && is_digit f && is_digit g && is_digit h
         && boundary_after rest
      then Some (str [a; b], str [c; d], str [e; f; g; h])
      else None
  | _ => None
  end.

Definition ymd_here (l : list ascii) : option (string * string * string) :=
  match l with
  | a :: b :: c :: d :: s1 :: e :: f :: s2 :: g :: h :: rest =>
      if is_digit a && is_digit b && is_digit c && is_digit d && is_hyphen s1
         && is_digit e && is_digit f && is_hyphen s2 && is_digit g && is_digit h
         && boundary_after rest
      then Some (str [a; b; c; d], str [e; f], str [g; h])
      else None
  | _ => None
  end.

(** Leftmost match: the positions are tried from left to right;
    [prev_word] tells that the character before the position is a word
    character, which rules the position out. *)
Fixpoint scan {A : Type} (here : list ascii -> option A) (prev_word : bool)
  (l : list ascii) : option A :=
  match l with
  | [] => None
  | c :: r =>
      match (if prev_word then None else here l) with
      | Some g => Some g
      | None => scan here (is_word c) r
      end
  end.

Definition match_mdy (s : string) : option (string * string * string) :=
  scan mdy_here false (list_ascii_of_string s).

Definition match_ymd (s : string) : option (string * string * string) :=
  scan ymd_here false (list_ascii_of_string s).


(** *** Zones whose offset changes

    [tzOffset] is one offset for the whole year.  Where the clocks change,
    the offset depends on the instant: [LocalTZA t isUTC] is the offset in
    force at [t], which is a time value when [isUTC] holds and a local
    time otherwise (the LocalTZA of the standard).  [setHours] goes to
    local time with the offset at the time value, and back with the offset
    at the local midnight. *)
Class JsZone : Type := {
  LocalTZA : Z -> bool -> Z
}.

Module Zoned.
Section Zone.
Context {zone : JsZone}.

Definition LocalTime (t : Z) : Z := t + LocalTZA t true.

Definition UTC (t : Z) : Z := t - LocalTZA t false.

Definition local_day (t : Z) : Z := LocalTime t / DAY.

(** [d.setHours(0, 0, 0, 0)] *)
Definition setHours0 (d : JsDate) : JsDate :=
  match d with
  | Num t => Num (UTC (local_day t * DAY))
  | NaN => NaN
  end.

End Zone.
End Zoned.

(** The zone of a host, whose offset never changes. *)
Definition fixed_zone (host : JsHost) : JsZone :=
  {| LocalTZA := fun _ _ => tzOffset |}.

End Js.

(** ** A reference browser

    Used to run the pages on concrete reports.  Its [Date.parse] reads the
    three shapes whose meaning browsers agree on and nothing else:
    [YYYY-MM-DDTHH:mm:ss] (local time), [YYYY-MM-DD] (UTC) and [MM/DD/YYYY]
    (local midnight); a field out of range, or any other text, is [NaN]. *)

Module RefHost.
Import Js.

Definition digit_val (c : ascii) : Z := Z.of_nat (nat_of_ascii c) - 48.

Fixpoint digits_val (acc : Z) (l : list ascii) : option Z :=
  match l with
  | [] => Some acc
  | c :: r => if is_digit c then digits_val (acc * 10 + digit_val c) r else None
  end.

Definition civil_time (tz y m d hh mi ss : Z) : JsNum :=
  if (1 <=? m) && (m <=? 12) && (1 <=? d) && (d <=? days_in_month y m)
     && (hh <=? 23) && (mi <=? 59) && (ss <=? 59)
  then Num (days_from_civil y m d * DAY + hh * 3600000 + mi * 60000 + ss * 1000 - tz)
  else NaN.

Definition fields (tz : Z) (y m d hh mi ss : list ascii) : JsNum :=
  match digits_val 0 y, digits_val 0 m, digits_val 0 d,
        digits_val 0 hh, digits_val 0 mi, digits_val 0 ss with
  | Some y, Some m, Some d, Some hh, Some mi, Some ss => civil_time tz y m d hh mi ss
  | _, _, _, _, _, _ => NaN
  end.

Definition is_colon (c : ascii) : bool := Ascii.eqb c ":".
Definition is_T (c : ascii) : bool := Ascii.eqb c "T".

Definition parse (tz : Z) (s : string) : JsNum :=
  match list_ascii_of_string s with
  | [y1; y2; y3; y4; p1; m1; m2; p2; d1; d2; t; h1; h2; q1; i1; i2; q2; s1; s2] =>
      if is_hyphen p1 && is_hyphen p2 && is_T t && is_colon q1 && is_colon q2
      then fields tz [y1; y2; y3; y4] [m1; m2] [d1; d2] [h1; h2] [i1; i2] [s1; s2]
      else NaN
  | [x0; x1; x2; x3; x4; x5; x6; x7; x8; x9] =>
      if is_hyphen x4 && is_hyphen x7
      then (* YYYY-MM-DD, read as UTC *)
        fields 0 [x0; x1; x2; x3] [x5; x6] [x8; x9] [] [] []
      else if is_slash x2 && is_slash x5
      then (* MM/DD/YYYY, local midnight *)
        fields tz [x6; x7; x8; x9] [x0; x1] [x3; x4] [] [] []
      else NaN
  | _ => NaN
  end.

Definition at_offset (tz : Z) : JsHost :=
  {| tzOffset := tz; Date_parse := parse tz |}.

(** A browser on UTC, and one five hours behind it. *)
Definition utc : JsHost := at_offset 0.
Definition utc_minus_5 : JsHost := at_offset (- (5 * 3600000)).

(** Toronto in 2024: five hours behind UTC, four from the 10th of March at
    2 in the morning to the 3rd of November at 2 in the morning.  A local
    time that the clocks skip is read with the offset before the change,
    one that comes twice is the first of the two. *)
Definition hour : Z := 3600000.

Definition toronto_2024 : JsZone :=
  {| LocalTZA := fun t isUTC =>
       if isUTC then
         if (days_from_civil 2024 3 10 * DAY + 7 * hour <=? t)
            && (t <? days_from_civil 2024 11 3 * DAY + 6 * hour)
         then - (4 * hour) else - (5 * hour)
       else
         if (days_from_civil 2024 3 10 * DAY + 3 * hour <=? t)
            && (t <? days_from_civil 2024 11 3 * DAY + 2 * hour)
         then - (4 * hour) else - (5 * hour) |}.

End RefHost.

(** ** The report, as the pages receive it *)

Module Data.

Record Operator : Type := {
  operator_name : string;
  dln : string;
  relationship : string;
  year_of_birth : string;
  start_term : string;
  end_term : string
}.

(** [policy.header] *)
Record PolicyHeader : Type := {
  policy_number : string;
  insurer : string;
  policyholder_name : string;
  effective_date : string;
  expiry_date : string;
  cancellation_date : string;
  end_of_latest_term : string
}.

Record Policy : Type := {
  header : PolicyHeader;
  operators : list Operator;
  start_of_earliest_term : string
}.

(** [report.header]; [driver_dln] is its [dln]. *)
Record ReportHeader : Type := {
  driver_name : string;
  driver_dln : string
}.

Record Report : Type := {
  report_header : ReportHeader;
  policies : list Policy
}.

End Data.

(** ** The report page: [dash_pdf_ui/static/operator_view.js] *)

Module OperatorView.
Import Js Data.

Section WithHost.
Context {host : JsHost}.

Definition parseMaybeDate (s : string) : option JsDate :=
  if negb (truthy s) then None
  else
    match match_mdy s with
    | Some (g1, g2, g3) =>
        Some (new_Date (g3 +:+ "-" +:+ g1 +:+ "-" +:+ g2 +:+ "T00:00:00"))
    | None =>
        match match_ymd s with
        | Some (g1, g2, g3) =>
            Some (new_Date (g1 +:+ "-" +:+ g2 +:+ "-" +:+ g3 +:+ "T00:00:00"))
        | None =>
            match Date_parse s with
            | NaN => None
            | Num t => Some (Num t)
            end
        end
    end.

Definition formatDateToMMDDYYYY (dateObj : option JsDate) : string :=
  match dateObj with
  | None => dash
  | Some d =>
      let month := padStart2 (num_to_string (num_add (getMonth d) (Num 1))) in
      let day := padStart2 (num_to_string (getDate d)) in
      let year := num_to_string (getFullYear d) in
      month +:+ "/" +:+ day +:+ "/" +:+ year
  end.

(** [None] is the [null] of the source. *)
Definition monthsBetween (d1 d2 : option JsDate) : option JsNum :=
  match d1, d2 with
  | Some d1, Some d2 =>
      Some (num_add
              (num_mul (num_sub (getFullYear d2) (getFullYear d1)) (Num 12))
              (num_sub (getMonth d2) (getMonth d1)))
  | _, _ => None
  end.

(** *** [renderReport]: the headline metrics *)

(** The [daysToExpiry] element: its text and its class list. *)
Record Element : Type := {
  textContent : string;
  classList : list string
}.

Definition classList_remove (names cl : list string) : list string :=
  List.filter (fun c => negb (existsb (String.eqb c) names)) cl.

Definition classList_add (name : string) (cl : list string) : list string :=
  if existsb (String.eqb name) cl then cl else cl ++ [name].

Record Headline : Type := {
  yearsContinuousInsuranceDate : string;
  currentInsuranceDate : string;
  currentPolicyExpiry : string;
  (** the local [daysToExpiry], when the branch that computes it runs *)
  daysToExpiry : option JsNum;
  daysEl : Element
}.

Definition years_continuous_insurance (policies : list Policy) : string :=
  match last policies with
  | Some lastPolicy => or_else (start_of_earliest_term lastPolicy) dash
  | None => dash
  end.

Definition current_insurance (policies : list Policy) : string :=
  match policies with
  | firstPolicy :: _ =>
      let insuranceDate := start_of_earliest_term firstPolicy in
      let insuranceDate :=
        if negb (truthy insuranceDate) || String.eqb insuranceDate dash
           || String.eqb insuranceDate EmptyString
        then effective_date (header firstPolicy)
        else insuranceDate in
      or_else insuranceDate dash
  | [] => dash
  end.

Definition current_policy_expiry (policies : list Policy) : string :=
  match policies with
  | latestPolicy :: _ =>
      let policyHeader := header latestPolicy in
      or_else (end_of_latest_term policyHeader)
        (or_else (expiry_date policyHeader) dash)
  | [] => dash
  end.

Definition days_to_expiry (currentPolicyExpiry : string) (now : Z) : JsNum :=
  let expiryDate := new_Date currentPolicyExpiry in
  let today := setHours0 (Num now) in
  let expiryDate := setHours0 expiryDate in
  ceil_div (num_sub expiryDate today) (1000 * 60 * 60 * 24).

Definition render_days_to_expiry (currentPolicyExpiry : string) (now : Z)
  (el : Element) : option JsNum * Element :=
  if truthy currentPolicyExpiry && negb (String.eqb currentPolicyExpiry dash)
  then
    let daysToExpiry := days_to_expiry currentPolicyExpiry now in
    let text := num_to_string (Math_max (Num 0) daysToExpiry) in
    let cl := classList_remove ["expired"; "warning"; "ok"]%string (classList el) in
    let cl :=
      if num_ltb daysToExpiry (Num 0) then classList_add "expired" cl
      else if num_leb daysToExpiry (Num 30) then classList_add "warning" cl
      else classList_add "ok" cl in
    (Some daysToExpiry, {| textContent := text; classList := cl |})
  else (None, {| textContent := dash; classList := classList el |}).

(** [now] is the instant [new Date()] returns; [el] is the [daysToExpiry]
    element as the previous rendering left it.  The call of [renderPolicies]
    that ends the function is [renderPolicies] below. *)
Definition renderReport (rep : Report) (now : Z) (el : Element) : Headline :=
  let policies := policies rep in
  let expiry := current_policy_expiry policies in
  let '(days, el') := render_days_to_expiry expiry now el in
  {| yearsContinuousInsuranceDate := years_continuous_insurance policies;
     currentInsuranceDate := current_insurance policies;
     currentPolicyExpiry := expiry;
     daysToExpiry := days;
     daysEl := el' |}.

(** *** [renderPolicies]: one item per policy *)

(** The operator found by the policyholder's name. *)
Definition policyholderName (h : PolicyHeader) : string :=
  toLowerCase (trim (or_else (policyholder_name h) EmptyString)).

Definition policyholderParts (h : PolicyHeader) : list string :=
  List.filter (fun p => (0 <? Z.of_nat (String.length p)) && negb (String.eqb p "and"))
    (split_ws (policyholderName h)).

Definition name_is (name : string) (o : Operator) : bool :=
  truthy (operator_name o)
  && String.eqb (toLowerCase (trim (operator_name o))) name.

Definition name_has_parts (parts : list string) (o : Operator) : bool :=
  if negb (truthy (operator_name o)) then false
  else
    let opNameLower := toLowerCase (trim (operator_name o)) in
    forallb (fun part => includes opNameLower part) parts.

Definition matchedOp (h : PolicyHeader) (ops : list Operator) : option Operator :=
  match List.find (name_is (policyholderName h)) ops with
  | Some o => Some o
  | None =>
      if (0 <? Z.of_nat (length (policyholderParts h)))
      then List.find (name_has_parts (policyholderParts h)) ops
      else None
  end.

(** [x?.field || y] on an operator that may be missing. *)
Definition field_or (f : Operator -> string) (o : option Operator) (d : string)
  : string :=
  match o with
  | Some o => or_else (f o) d
  | None => d
  end.

Definition displayOp (h : PolicyHeader) (ops : list Operator) : string :=
  field_or operator_name (matchedOp h ops) (field_or operator_name (head ops) dash).

Definition displayRelationship (h : PolicyHeader) (ops : list Operator) : string :=
  field_or relationship (matchedOp h ops) dash.

Definition displayYearOfBirth (h : PolicyHeader) (ops : list Operator) : string :=
  field_or year_of_birth (matchedOp h ops) dash.

(** The operator found by the driver's licence number. *)
Definition dlnMatchedOp (ops : list Operator) (driverDLN : string)
  : option Operator :=
  if truthy driverDLN
  then List.find (fun o => String.eqb (dln o) driverDLN) ops
  else None.

(** A term of the operator, re-formatted when it parses. *)
Definition shown_term (term : string) : string :=
  match parseMaybeDate term with
  | Some d => formatDateToMMDDYYYY (Some d)
  | None => term
  end.

Definition displayEndTerm (policy : Policy) (driverDLN : string) : string :=
  match dlnMatchedOp (operators policy) driverDLN with
  | Some o => if truthy (end_term o) then shown_term (end_term o) else dash
  | None => dash
  end.

Definition displayStartTerm (policy : Policy) (driverDLN : string) : string :=
  let start := or_else (start_of_earliest_term policy) dash in
  match dlnMatchedOp (operators policy) driverDLN with
  | Some o =>
      if negb (truthy (start_of_earliest_term policy)) && truthy (start_term o)
      then shown_term (start_term o)
      else start
  | None => start
  end.

(** A displayed term, parsed again for the gap. *)
Definition parse_shown (t : string) : option JsDate :=
  if truthy t && negb (String.eqb t dash) then parseMaybeDate t else None.

Definition gap_days (a b : option JsDate) : option JsNum :=
  match a, b with
  | Some a, Some b => Some (floor_div (num_sub a b) (1000 * 60 * 60 * 24))
  | _, _ => None
  end.

Record PolicyItem : Type := {
  item_policy : Policy;
  policyNum : Z;
  item_operator : string;
  item_relationship : string;
  item_year_of_birth : string;
  item_end_term : string;
  item_start_term : string;
  gapLabel : string;
  gapText : string
}.

(** The body of the [forEach]: the item of [policy], at [reversedIdx] among
    [totalPolicies]. *)
Definition policy_item (totalPolicies : nat) (driverDLN : string)
  (reversedIdx : nat) (policy : Policy) : PolicyItem :=
  let h := header policy in
  let ops := operators policy in
  let policyNum := Z.of_nat totalPolicies - Z.of_nat reversedIdx in
  let endTerm := displayEndTerm policy driverDLN in
  let startTerm := displayStartTerm policy driverDLN in
  let startDate := parse_shown startTerm in
  let endDate := parse_shown endTerm in
  let gap :=
    if Z.of_nat reversedIdx <? Z.of_nat totalPolicies - 1
    then
      match gap_days startDate endDate with
      | Some gapDays =>
          ("Gap (Policy " +:+ Z_to_string (policyNum - 1) +:+ " start − Policy "
             +:+ Z_to_string policyNum +:+ " end)",
           num_to_string gapDays +:+ " days")
      | None => ("Gap"%string, dash)
      end
    else
      match gap_days endDate startDate with
      | Some gapDays =>
          ("Gap (Policy " +:+ Z_to_string policyNum +:+ " start − Policy "
             +:+ Z_to_string policyNum +:+ " end)",
           num_to_string gapDays +:+ " days")
      | None => ("Gap"%string, dash)
      end in
  {| item_policy := policy;
     policyNum := policyNum;
     item_operator := displayOp h ops;
     item_relationship := displayRelationship h ops;
     item_year_of_birth := displayYearOfBirth h ops;
     item_end_term := endTerm;
     item_start_term := startTerm;
     gapLabel := fst gap;
     gapText := snd gap |}.

(** Arrays live in a store, by reference: [Array.prototype.reverse] reverses
    its receiver in place, and [[...a]] allocates a copy. *)
Abbreviation Store := (gmap positive (list Policy)).

Definition array_read (st : Store) (a : positive) : list Policy :=
  default [] (st !! a).

Definition array_spread (st : Store) (a : positive) : positive * Store :=
  let a' := fresh (dom st) in
  (a', <[a' := array_read st a]> st).

Definition array_reverse (st : Store) (a : positive) : Store :=
  alter reverse a st.

(** [renderPolicies(policies, driverDLN)], [policies] being a reference into
    the store: the items in the order they are appended to the page, and the
    store the call leaves. *)
Definition renderPolicies (st : Store) (policies : positive) (driverDLN : string)
  : list PolicyItem * Store :=
  if (length (array_read st policies) =? 0)%nat then ([], st)
  else
    let '(reversed, st1) := array_spread st policies in
    let st2 := array_reverse st1 reversed in
    let items := array_read st2 reversed in
    (imap (policy_item (length items) driverDLN) items, st2).

End WithHost.

(** *** Matching by name, over the text operations of the browser

    [toLowerCase], [trim] and [split(/\s+/)] belong to the browser.  [Js]
    gives them on ASCII text, and [matchedOp] above is the matching with
    those.  Here the three operations are parameters and the matching is
    the same code over them, so that what is proved of it holds with the
    operations of the browser, on every text. *)
Module ByName.
Section Builtins.
Variables toLowerCase trim : string -> string.
Variable split_ws : string -> list string.

Definition policyholderName (h : PolicyHeader) : string :=
  toLowerCase (trim (or_else (policyholder_name h) EmptyString)).

Definition policyholderParts (h : PolicyHeader) : list string :=
  List.filter (fun p => (0 <? Z.of_nat (String.length p)) && negb (String.eqb p "and"))
    (split_ws (policyholderName h)).

Definition name_is (name : string) (o : Operator) : bool :=
  truthy (operator_name o)
  && String.eqb (toLowerCase (trim (operator_name o))) name.

Definition name_has_parts (parts : list string) (o : Operator) : bool :=
  if negb (truthy (operator_name o)) then false
  else
    let opNameLower := toLowerCase (trim (operator_name o)) in
    forallb (fun part => includes opNameLower part) parts.

Definition matchedOp (h : PolicyHeader) (ops : list Operator) : option Operator :=
  match List.find (name_is (policyholderName h)) ops with
  | Some o => Some o
  | None =>
      if (0 <? Z.of_nat (length (policyholderParts h)))
      then List.find (name_has_parts (policyholderParts h)) ops
      else None
  end.

Definition displayOp (h : PolicyHeader) (ops : list Operator) : string :=
  field_or operator_name (matchedOp h ops) (field_or operator_name (head ops) dash).

Definition displayRelationship (h : PolicyHeader) (ops : list Operator) : string :=
  field_or relationship (matchedOp h ops) dash.

Definition displayYearOfBirth (h : PolicyHeader) (ops : list Operator) : string :=
  field_or year_of_birth (matchedOp h ops) dash.

End Builtins.
End ByName.

(** *** The days to expiry where the clocks change

    The same lines of [renderReport], with [setHours] in a zone whose
    offset depends on the date.  With the zone of the host (one offset)
    they are [days_to_expiry] and [render_days_to_expiry] above. *)
Module InZone.
Section Zone.
Context {host : JsHost} {zone : JsZone}.

Definition days_to_expiry (currentPolicyExpiry : string) (now : Z) : JsNum :=
  let expiryDate := new_Date currentPolicyExpiry in
  let today := Zoned.setHours0 (Num now) in
  let expiryDate := Zoned.setHours0 expiryDate in
  ceil_div (num_sub expiryDate today) (1000 * 60 * 60 * 24).

Definition render_days_to_expiry (currentPolicyExpiry : string) (now : Z)
  (el : Element) : option JsNum * Element :=
  if truthy currentPolicyExpiry && negb (String.eqb currentPolicyExpiry dash)
  then
    let daysToExpiry := days_to_expiry currentPolicyExpiry now in
    let text := num_to_string (Math_max (Num 0) daysToExpiry) in
    let cl := classList_remove ["expired"; "warning"; "ok"]%string (classList el) in
    let cl :=
      if num_ltb daysToExpiry (Num 0) then classList_add "expired" cl
      else if num_leb daysToExpiry (Num 30) then classList_add "warning" cl
      else classList_add "ok" cl in
    (Some daysToExpiry, {| textContent := text; classList := cl |})
  else (None, {| textContent := dash; classList := classList el |}).

End Zone.
End InZone.

(** *** [escapeHtml] *)

Definition quot : ascii := ascii_of_nat 34.
Definition apos : ascii := ascii_of_nat 39.

(** The characters the pattern replaces: ampersand, less-than,
    greater-than, double quote, apostrophe. *)
Definition is_special (c : ascii) : bool :=
  Ascii.eqb c "&" || Ascii.eqb c "<" || Ascii.eqb c ">"
  || Ascii.eqb c quot || Ascii.eqb c apos.

(** The replacement of one character. *)
Definition escape_char (c : ascii) : string :=
  if Ascii.eqb c "&" then "&amp;"
  else if Ascii.eqb c "<" then "&lt;"
  else if Ascii.eqb c ">" then "&gt;"
  else if Ascii.eqb c quot then "&quot;"
  else if Ascii.eqb c apos then "&#39;"
  else String c EmptyString.

Fixpoint escapeHtml (s : string) : string :=
  match s with
  | EmptyString => EmptyString
  | String c r => escape_char c +:+ escapeHtml r
  end.

(** *** [setAddressWithCopyButtons] *)




(** The classes [A-Z] and [A-Z0-9] of a pattern that ignores case. *)
Definition is_letter (c : ascii) : bool := is_upper c || is_lower c.
Definition is_letter_or_digit (c : ascii) : bool := is_letter c || is_digit c.

Fixpoint skip_spaces (l : list ascii) : list ascii :=
  match l with
  | [] => []
  | c :: r => if is_space c then skip_spaces r else l
  end.

(** [lastPart.match(...)] for the pattern of a province code and a postal
    code: from the start, two letters, white space, six letters or digits,
    the end.  The groups are the two codes. *)
Definition postalCodeMatch (lastPart : string) : option (string * string) :=
  match list_ascii_of_string lastPart with
  | a :: b :: s :: rest =>
      if is_letter a && is_letter b && is_space s then
        match skip_spaces rest with
        | [c1; c2; c3; c4; c5; c6] =>
            if forallb is_letter_or_digit [c1; c2; c3; c4; c5; c6]
            then Some (str [a; b], str [c1; c2; c3; c4; c5; c6])
            else None
        | _ => None
        end
      else None
  | _ => None
  end.






(** *** [renderReport]: the years licensed *)

Section YearsLicensed.
Context {host : JsHost}.

(** [new Date(year, month, date)]: the local midnight of the day; a year
    from 0 to 99 stands for 1900 plus that year, months beyond the year
    carry over, and so do days beyond the month. *)
Definition new_Date_ymd (year month date : JsNum) : JsDate :=
  match year, month, date with
  | Num y, Num m, Num d =>
      let y := if (0 <=? y) && (y <=? 99) then 1900 + y else y in
      let ym := y + m / 12 in
      let mn := m mod 12 in
      Num ((days_from_civil ym (mn + 1) 1 + d - 1) * DAY - tzOffset)
  | _, _, _ => NaN
  end.

(** The text of the [yearsLicensed] element, for [h.years_licensed] a whole
    number ([0] when it is absent) and [now] the instant of [new Date()]. *)
Definition yearsLicensed_text (yearsLicensed : Z) (now : Z) : string :=
  if yearsLicensed =? 0 then dash
  else
    let today := Num now in
    let licenseDate :=
      new_Date_ymd (num_sub (getFullYear today) (Num yearsLicensed))
        (getMonth today) (getDate today) in
    let formattedDate :=
      padStart2 (num_to_string (num_add (getMonth licenseDate) (Num 1)))
      +:+ "/" +:+ padStart2 (num_to_string (getDate licenseDate))
      +:+ "/" +:+ num_to_string (getFullYear licenseDate) in
    Z_to_string yearsLicensed +:+ " years (since " +:+ formattedDate +:+ ")".

End YearsLicensed.

(** *** The lines of a policy item

    The value of the gap line is marked when the number in its text is
    positive: [val.match(/(-?\d+)/)], then [parseInt]. *)

(** The longest run of digits that starts the text. *)
Fixpoint take_digits (s : string) : string :=
  match s with
  | String c r => if is_digit c then String c (take_digits r) else EmptyString
  | EmptyString => EmptyString
  end.

Definition starts_with_digit (s : string) : bool :=
  match s with
  | String c _ => is_digit c
  | EmptyString => false
  end.

(** The first match of [(-?\d+)]: leftmost, the hyphen taken when a digit
    follows it, then as many digits as there are. *)
Fixpoint match_number (s : string) : option string :=
  match s with
  | EmptyString => None
  | String c r =>
      if is_hyphen c && starts_with_digit r then Some (String c (take_digits r))
      else if is_digit c then Some (take_digits s)
      else match_number r
  end.

(** The number that a run of decimal digits reads as, after [acc]. *)
Fixpoint digits_value (acc : Z) (s : string) : Z :=
  match s with
  | String c r =>
      if is_digit c then digits_value (acc * 10 + (Z.of_nat (nat_of_ascii c) - 48)) r
      else acc
  | EmptyString => acc
  end.

(** [parseInt(s)] in base ten: white space, a sign, then digits; [NaN] when
    no digit follows.  (The texts it is given here hold no letter, so the
    prefix of base sixteen does not come up.) *)
Definition parseInt (s : string) : JsNum :=
  match trimStart s with
  | String c r =>
      if is_hyphen c then
        if starts_with_digit r then Num (- digits_value 0 r) else NaN
      else if Ascii.eqb c "+" then
        if starts_with_digit r then Num (digits_value 0 r) else NaN
      else if is_digit c then Num (digits_value 0 (String c r))
      else NaN
  | EmptyString => NaN
  end.

Definition gap_positive (val : string) : bool :=
  if negb (String.eqb val dash) && includes val "days" then
    match match_number val with
    | Some numberMatch => num_gtb (parseInt numberMatch) (Num 0)
    | None => false
    end
  else false.

(** One line of a policy item: the label, and the value element with its
    id, text and classes; [data_copy] is the attribute of the copy button
    beside the value, when there is one. *)
Record Field : Type := {
  field_label : string;
  value_id : option string;
  value_text : string;
  value_classes : list string;
  data_copy : option string
}.

Definition policy_field (policyNum : Z) (label val : string) : Field :=
  if includes label "Gap" then
    {| field_label := label +:+ ":";
       value_id := None;
       value_text := escapeHtml val;
       value_classes :=
         "policy-value"%string
           :: (if gap_positive val then ["gap-positive"%string] else []);
       data_copy := None |}
  else if String.eqb label "End of Latest Term"
          || String.eqb label "Start of Earliest Term" then
    let shortKey :=
      if String.eqb label "End of Latest Term" then "end" else "start" in
    let fieldId := "policy-" +:+ Z_to_string policyNum +:+ "-" +:+ shortKey in
    {| field_label := label +:+ ":";
       value_id := Some fieldId;
       value_text := escapeHtml val;
       value_classes := ["policy-value"%string];
       data_copy := Some fieldId |}
  else
    {| field_label := label +:+ ":";
       value_id := None;
       value_text := escapeHtml val;
       value_classes := ["policy-value"%string];
       data_copy := None |}.

Definition policyFields (it : PolicyItem) : list Field :=
  map (fun '(label, val) => policy_field (policyNum it) label val)
    [("Operator"%string, item_operator it);
     ("Year of Birth"%string, item_year_of_birth it);
     ("End of Latest Term"%string, item_end_term it);
     ("Start of Earliest Term"%string, item_start_term it);
     (gapLabel it, gapText it)].

(** [policy.vehicles]: the vehicles of a policy. *)
Record Vehicle : Type := {
  vehicle_year : string;
  make_model : string;
  vin : string;
  coverage : string
}.

Definition vehicleText (vhs : list Vehicle) : string :=
  match vhs with
  | v :: _ =>
      trim (or_else (vehicle_year v) EmptyString +:+ " "
              +:+ or_else (make_model v) EmptyString)
  | [] => dash
  end.

Definition vinText (vhs : list Vehicle) : string :=
  match head vhs with
  | Some v => or_else (vin v) dash
  | None => dash
  end.

Definition coverageText (vhs : list Vehicle) : string :=
  match head vhs with
  | Some v => or_else (coverage v) dash
  | None => dash
  end.

Definition vehicle_field (policyNum : Z) (label val : string) : Field :=
  if String.eqb label "VIN" then
    let fieldId := "policy-" +:+ Z_to_string policyNum +:+ "-vin" in
    {| field_label := label +:+ ":";
       value_id := Some fieldId;
       value_text := escapeHtml val;
       value_classes := ["policy-value"%string];
       data_copy := Some fieldId |}
  else
    {| field_label := label +:+ ":";
       value_id := None;
       value_text := escapeHtml val;
       value_classes := ["policy-value"%string];
       data_copy := None |}.

Definition vehicleFields (policyNum : Z) (vhs : list Vehicle) : list Field :=
  map (fun '(label, val) => vehicle_field policyNum label val)
    [("Vehicle"%string, vehicleText vhs);
     ("VIN"%string, vinText vhs);
     ("Coverage"%string, coverageText vhs)].

(** The lines of the list, in document order.  [vehicles] reads
    [policy.vehicles || []], which the record [Policy] leaves out. *)
Definition policy_lines (vehicles : Policy -> list Vehicle)
  (items : list PolicyItem) : list Field :=
  flat_map (fun it =>
              policyFields it ++ vehicleFields (policyNum it) (vehicles (item_policy it)))
    items.

(** [setText(id, v)]: the text the element gets. *)
Definition setText (v : string) : string := or_else v dash.

(** The VIN of policy number 1 in the headline of [renderReport]: the last
    policy of a reversed copy of the list.  ([reversed[reversed.length - 1]]
    is defined whenever the list is not empty; the last branch is never
    taken.) *)
Definition firstPolicyVin (vehicles : Policy -> list Vehicle)
  (policies : list Policy) : string :=
  if (0 <? length policies)%nat then
    let reversed := reverse policies in
    match reversed !! (length reversed - 1)%nat with
    | Some policyOne =>
        let vehicles := vehicles policyOne in
        if (0 <? length vehicles)%nat then
          match head vehicles with
          | Some v => or_else (vin v) dash
          | None => dash
          end
        else dash
    | None => dash
    end
  else dash.

(** *** The click on a copy button *)

(** [document.getElementById]: the first element, in document order, that
    carries the id. *)
Definition getElementById (doc : list Field) (id : string) : option Field :=
  List.find (fun e => match value_id e with
                      | Some i => String.eqb i id
                      | None => false
                      end) doc.

(** What a click does: the button says [empty], or the text is handed to
    [navigator.clipboard.writeText] (the tick or the failure that the button
    shows afterwards is the clipboard's answer). *)
Inductive CopyOutcome : Type :=
| ShowsEmpty
| WriteText (text : string).

Definition copy_text (text : string) : CopyOutcome :=
  if negb (truthy text) || String.eqb text dash then ShowsEmpty
  else WriteText text.

(** The listener of the document, on a button of class [copy-btn] whose
    [data-copy] attribute is [fieldId]. *)
Definition copy_click (doc : list Field) (fieldId : string) : CopyOutcome :=
  copy_text match getElementById doc fieldId with
            | Some e => value_text e
            | None => EmptyString
            end.

End OperatorView.

(** ** The single-policy page ([renderPolicyFull]) *)

Module PolicyView.
Import Js Data.

Section WithHost.
Context {host : JsHost}.

Definition parseMaybeDate (s : string) : option JsDate :=
  if negb (truthy s) then None
  else
    match match_mdy s with
    | Some (g1, g2, g3) =>
        Some (new_Date (g3 +:+ "-" +:+ g1 +:+ "-" +:+ g2 +:+ "T00:00:00"))
    | None =>
        match match_ymd s with
        | Some (g1, g2, g3) =>
            Some (new_Date (g1 +:+ "-" +:+ g2 +:+ "-" +:+ g3 +:+ "T00:00:00"))
        | None =>
            match Date_parse s with
            | NaN => None
            | Num t => Some (Num t)
            end
        end
    end.

Definition monthsBetween (d1 d2 : option JsDate) : option JsNum :=
  match d1, d2 with
  | Some d1, Some d2 =>
      Some (num_add
              (num_mul (num_sub (getFullYear d2) (getFullYear d1)) (Num 12))
              (num_sub (getMonth d2) (getMonth d1)))
  | _, _ => None
  end.

(** The loop over [ops] that looks for the main driver's licence number:
    the first operator whose trimmed [dln] is the trimmed target. *)
Fixpoint find_by_dln (mainDriverDln : string) (ops : list Operator)
  : option Operator :=
  match ops with
  | [] => None
  | o :: rest =>
      if String.eqb (trim (or_else (dln o) EmptyString)) mainDriverDln
      then Some o
      else find_by_dln mainDriverDln rest
  end.

Definition mainDriverDln (report : Report) : string :=
  trim (or_else (driver_dln (report_header report)) EmptyString).

Definition mainOp (report : Report) (policy : Policy) : option Operator :=
  find_by_dln (mainDriverDln report) (operators policy).

Definition has_terms (o : Operator) : bool :=
  truthy (end_term o) || truthy (start_term o).

(** The operator whose terms head the page. *)
Definition chosenOp (report : Report) (policy : Policy) : option Operator :=
  match mainOp report policy with
  | Some o => if has_terms o then Some o else List.find has_terms (operators policy)
  | None => List.find has_terms (operators policy)
  end.

Definition endLatest (report : Report) (policy : Policy) : string :=
  let h := header policy in
  let fallback := or_else (expiry_date h) (or_else (cancellation_date h) dash) in
  match chosenOp report policy with
  | Some o => if truthy (end_term o) then end_term o else fallback
  | None => fallback
  end.

Definition startEarliest (report : Report) (policy : Policy) : string :=
  let h := header policy in
  let fallback := or_else (effective_date h) dash in
  match chosenOp report policy with
  | Some o => if truthy (start_term o) then start_term o else fallback
  | None => fallback
  end.

Definition plural (n : JsNum) : string :=
  if num_eqb n (Num 1) then EmptyString else "s".

(** The gap badge of the policy: its own end against its own start.  The
    empty text is no badge. *)
Definition gapMsg (h : PolicyHeader) : string :=
  let endDate := parseMaybeDate (or_else (expiry_date h) (cancellation_date h)) in
  let startDate := parseMaybeDate (effective_date h) in
  match endDate, startDate with
  | Some _, Some _ =>
      match monthsBetween endDate startDate with
      | Some months =>
          if num_gtb months (Num 0)
          then "Coverage Gap — " +:+ num_to_string months +:+ " month" +:+ plural months
          else if num_eqb months (Num 0) then "No Coverage Gap"
          else "Overlap — " +:+ num_to_string (Math_abs months) +:+ " month"
                 +:+ plural (Math_abs months)
      | None => EmptyString
      end
  | _, _ => EmptyString
  end.

(** The banner against the previous policy of the list; [None] when no
    banner is added. *)
Definition interMsg (prev : PolicyHeader) (h : PolicyHeader) : option string :=
  let prevEnd := parseMaybeDate (or_else (expiry_date prev) (cancellation_date prev)) in
  let curStart := parseMaybeDate (effective_date h) in
  match prevEnd, curStart with
  | Some _, Some _ =>
      match monthsBetween prevEnd curStart with
      | Some m =>
          Some (if num_gtb m (Num 0)
                then "Coverage Gap vs Prev Policy — " +:+ num_to_string m
                       +:+ " month" +:+ plural m
                else if num_eqb m (Num 0) then "No Coverage Gap vs Prev Policy"
                else "Overlap vs Prev Policy — " +:+ num_to_string (Math_abs m)
                       +:+ " month" +:+ plural (Math_abs m))
      | None => None
      end
  | _, _ => None
  end.

(** The operator box. *)
Definition matchingOp (report : Report) (policy : Policy) : option Operator :=
  find_by_dln (mainDriverDln report) (operators policy).

Definition has_terms' (o : Operator) : bool :=
  truthy (start_term o) || truthy (end_term o).

Definition display_field (f : Operator -> string) (report : Report)
  (policy : Policy) : string :=
  match matchingOp report policy with
  | Some o => or_else (f o) dash
  | None =>
      match head (operators policy) with
      | Some o0 => or_else (f o0) dash
      | None => dash
      end
  end.

Definition displayName := display_field operator_name.
Definition displayRelationship := display_field relationship.
Definition displayYob := display_field year_of_birth.

(** [(displayStartTerm, displayEndTerm)] *)
Definition displayTerms (report : Report) (policy : Policy) : string * string :=
  let h := header policy in
  let from_op (o : Operator) :=
    (or_else (start_term o) dash, or_else (end_term o) dash) in
  let otherwise :=
    match List.find has_terms' (operators policy) with
    | Some anyOpWithTerms => from_op anyOpWithTerms
    | None =>
        (or_else (effective_date h) dash,
         or_else (expiry_date h) (or_else (cancellation_date h) dash))
    end in
  match matchingOp report policy with
  | Some o => if has_terms' o then from_op o else otherwise
  | None => otherwise
  end.

Definition displayStartTerm (report : Report) (policy : Policy) : string :=
  fst (displayTerms report policy).

Definition displayEndTerm (report : Report) (policy : Policy) : string :=
  snd (displayTerms report policy).

(** [allPolicies[i]] for a number [i] that may be negative. *)
Definition policy_at (ps : list Policy) (i : Z) : option Policy :=
  if i <? 0 then None else ps !! Z.to_nat i.

Record PolicyPage : Type := {
  page_number : Z;
  page_main_operator : option Operator;
  page_end_latest : string;
  page_start_earliest : string;
  page_gap : string;
  page_inter : option string;
  page_operator : string;
  page_relationship : string;
  page_year_of_birth : string;
  page_start_term : string;
  page_end_term : string
}.

(** [None] is the page that says the policy was not found. *)
Definition renderPolicyFull (report : Report) (policyIndex : Z)
  : option PolicyPage :=
  match policy_at (policies report) policyIndex with
  | None => None
  | Some policy =>
      let h := header policy in
      let inter :=
        if 0 <? policyIndex then
          match policy_at (policies report) (policyIndex - 1) with
          | Some prev => interMsg (header prev) h
          | None => None
          end
        else None in
      Some {| page_number := policyIndex + 1;
              page_main_operator := mainOp report policy;
              page_end_latest := endLatest report policy;
              page_start_earliest := startEarliest report policy;
              page_gap := gapMsg h;
              page_inter := inter;
              page_operator := displayName report policy;
              page_relationship := displayRelationship report policy;
              page_year_of_birth := displayYob report policy;
              page_start_term := displayStartTerm report policy;
              page_end_term := displayEndTerm report policy |}
  end.

End WithHost.


(** [escapeHtml] of this page: [String(s || '')], then the same replacement. *)
Definition escapeHtml (s : string) : string :=
  OperatorView.escapeHtml (or_else s EmptyString).

End PolicyView.

(** * Vocabulary of the properties *)

Import Js Data.

(** ** The two patterns, declaratively *)

Module Pattern.

Inductive t : Type := Slash | Iso.

Definition groups : Type := (string * string * string)%type.

(** The text of one match and its three groups, in the order of the
    parentheses of the pattern. *)
Definition shape (p : t) (m : list ascii) (g : groups) : Prop :=
  match p with
  | Slash =>
      exists a b c d e f x y,
        m = [a; b; "/"%char; c; d; "/"%char; e; f; x; y]
        /\ forallb is_digit [a; b; c; d; e; f; x; y] = true
        /\ g = (str [a; b], str [c; d], str [e; f; x; y])
  | Iso =>
      exists a b c d e f x y,
        m = [a; b; c; d; "-"%char; e; f; "-"%char; x; y]
        /\ forallb is_digit [a; b; c; d; e; f; x; y] = true
        /\ g = (str [a; b; c; d], str [e; f], str [x; y])
  end.

(** Whether the text [pre] ends on a word character; [pw] answers for the
    empty text. *)
Fixpoint word_before (pw : bool) (pre : list ascii) : bool :=
  match pre with
  | [] => pw
  | c :: r => word_before (is_word c) r
  end.

(** [l] reads [pre], then the match [m], then [post], with a word boundary
    on either side of [m]. *)
Definition matches_at (p : t) (l pre m post : list ascii) (g : groups) : Prop :=
  l = pre ++ m ++ post
  /\ word_before false pre = false
  /\ shape p m g
  /\ boundary_after post = true.

(** The leftmost match of [p] in [s] has the groups [g]. *)
Definition first_match (p : t) (s : string) (g : groups) : Prop :=
  exists pre m post,
    matches_at p (list_ascii_of_string s) pre m post g
    /\ forall pre' m' post' g',
         matches_at p (list_ascii_of_string s) pre' m' post' g' ->
         (length pre <= length pre')%nat.

Definition no_match (p : t) (s : string) : Prop :=
  forall pre m post g, ~ matches_at p (list_ascii_of_string s) pre m post g.

Definition here (p : t) : list ascii -> option groups :=
  match p with
  | Slash => mdy_here
  | Iso => ymd_here
  end.

Definition find (p : t) (s : string) : option groups :=
  match p with
  | Slash => match_mdy s
  | Iso => match_ymd s
  end.

End Pattern.

(** ** The wording of the specification

    The contracts of the specification, written out from its sentences, for
    comparison with what the pages compute. *)

Module Spec.

(** "First present value wins." *)
Definition first_present (candidates : list string) (missing : string) : string :=
  match List.find truthy candidates with
  | Some s => s
  | None => missing
  end.

Definition term_of (f : Operator -> string) (o : option Operator) : string :=
  match o with
  | Some o => f o
  | None => EmptyString
  end.

(** The precedence chain for [start]: the policy's own
    [start_of_earliest_term]; the matched operator's [start_term]; the
    [start_term] of the first operator of the list that has one; the header's
    [effective_date]; the sentinel. *)
Definition resolveStart (policy : Policy) (matchedOperator : option Operator)
  : string :=
  first_present
    [ start_of_earliest_term policy;
      term_of start_term matchedOperator;
      term_of start_term
        (List.find (fun o => truthy (start_term o)) (operators policy));
      effective_date (header policy) ]
    dash.

(** "Compute the display index as size - position", the position being the
    one in the list as received: the oldest policy, which is last, gets 1. *)
Definition policyNumber (size position : nat) : Z :=
  Z.of_nat size - Z.of_nat position.

(** [matchByLicense]: none for an empty target, else the first operator whose
    trimmed licence is the trimmed target. *)
Definition matchByLicense (ops : list Operator) (licenseNumber : string)
  : option Operator :=
  if truthy licenseNumber
  then List.find (fun o => String.eqb (trim (dln o)) (trim licenseNumber)) ops
  else None.

(** [matchByName]: exact match first, else every token contained. *)
Definition tokens (policyholderName : string) : list string :=
  List.filter (fun p => truthy p && negb (String.eqb p "and"))
    (split_ws (toLowerCase (trim policyholderName))).

Definition matchByName (ops : list Operator) (policyholderName : string)
  : option Operator :=
  match
    List.find
      (fun o => String.eqb (toLowerCase (trim (operator_name o)))
                  (toLowerCase (trim policyholderName))) ops
  with
  | Some o => Some o
  | None =>
      List.find
        (fun o => forallb (includes (toLowerCase (operator_name o)))
                    (tokens policyholderName)) ops
  end.

(** The classes of [daysToExpiry]. *)
Inductive ExpiryClass : Type := Expired | Warning | Ok.

Definition classify (days : Z) : ExpiryClass :=
  if days <? 0 then Expired else if days <=? 30 then Warning else Ok.

Definition class_name (c : ExpiryClass) : string :=
  match c with
  | Expired => "expired"
  | Warning => "warning"
  | Ok => "ok"
  end.

(** The kinds of [relate]. *)
Inductive Kind : Type := Gap | NoGap | Overlap.

Definition relate (magnitude : Z) : Kind * Z :=
  if 0 <? magnitude then (Gap, magnitude)
  else if magnitude =? 0 then (NoGap, 0)
  else (Overlap, Z.abs magnitude).

(** The text of a badge: the kind, then the magnitude in months. *)
Definition month_count (n : Z) : string :=
  Z_to_string n +:+ " month" +:+ (if n =? 1 then EmptyString else "s").

Definition badge (gap none overlap : string) (r : Kind * Z) : string :=
  match r with
  | (Gap, n) => gap +:+ month_count n
  | (NoGap, _) => none
  | (Overlap, n) => overlap +:+ month_count n
  end.

End Spec.

(** The first element of [l], in list order, that satisfies [P]. *)
Definition first_such {A : Type} (P : A -> Prop) (l : list A) (x : A) : Prop :=
  exists pre post, l = pre ++ x :: post /\ P x /\ Forall (fun y => ~ P y) pre.

Definition none_such {A : Type} (P : A -> Prop) (l : list A) : Prop :=
  Forall (fun y => ~ P y) l.

(** [s] occurs in [t]. *)
Definition substring (s t : string) : Prop :=
  exists a b, t = a +:+ s +:+ b.

(** ** The calendar, piece by piece

    [days_from_civil] and [civil_from_days] work on a 400-year era: a day of
    the era from a year of the era, a month counted from March and a day of
    the month, and back.  The table check below runs over one era. *)

Module Calendar.

Definition doe_of (yoe mp d : Z) : Z :=
  yoe * 365 + yoe / 4 - yoe / 100 + ((153 * mp + 2) / 5 + d - 1).

Definition decode (doe : Z) : Z * Z * Z :=
  let yoe := (doe - doe / 1460 + doe / 36524 - doe / 146096) / 365 in
  let doy := doe - (365 * yoe + yoe / 4 - yoe / 100) in
  let mp := (5 * doy + 2) / 153 in
  (yoe, mp, doy - (153 * mp + 2) / 5 + 1).

Definition month_of_mp (mp : Z) : Z := if mp <? 10 then mp + 3 else mp - 9.
Definition mp_of_month (m : Z) : Z := if m <=? 2 then m + 9 else m - 3.

Definition assemble (era : Z) (t : Z * Z * Z) : Z * Z * Z :=
  let '(yoe, mp, d) := t in
  let m := month_of_mp mp in
  let y := yoe + era * 400 in
  (if m <=? 2 then y + 1 else y, m, d).

Definition month_length (yoe mp : Z) : Z :=
  days_in_month (if 10 <=? mp then yoe + 1 else yoe) (month_of_mp mp).

Definition range (a : Z) (n : nat) : list Z :=
  map (fun k => a + Z.of_nat k) (seq 0 n).

Definition triple_eqb (a b : Z * Z * Z) : bool :=
  let '(a1, a2, a3) := a in
  let '(b1, b2, b3) := b in
  (a1 =? b1) && (a2 =? b2) && (a3 =? b3).

Definition cell_ok (yoe mp d : Z) : bool :=
  let doe := doe_of yoe mp d in
  (0 <=? doe) && (doe <=? 146096) && triple_eqb (decode doe) (yoe, mp, d).

End Calendar.

Section CalendarTerms.
Context {host : JsHost}.

(** The time value of the instant [ms] milliseconds into the local day
    [y]-[m]-[d]. *)
Definition instant (y m d ms : Z) : Z :=
  days_from_civil y m d * DAY + ms - tzOffset.

Definition valid_date (y m d : Z) : Prop :=
  1 <= m <= 12 /\ 1 <= d <= days_in_month y m.

(** The local year and month (1..12) of a time value. *)
Definition year_of (t : Z) : Z := fst (fst (civil_from_days (local_day t))).
Definition month_of (t : Z) : Z := snd (fst (civil_from_days (local_day t))).

Definition calendar_months (t1 t2 : Z) : Z :=
  (year_of t2 - year_of t1) * 12 + (month_of t2 - month_of t1).

End CalendarTerms.

(** A text written in ASCII.  On such a text the [trim], the white space
    and the lower-casing of [Js] are those of the browser. *)
Definition ascii_text (s : string) : Prop :=
  forallb (fun c => (nat_of_ascii c <? 128)%nat) (list_ascii_of_string s) = true.

(** Predicates on operators; [lower] and [trim] are the lower-casing and
    the trimming in use. *)
Definition exact_name (lower trim : string -> string) (name : string)
  (o : Operator) : Prop :=
  operator_name o <> EmptyString /\ lower (trim (operator_name o)) = name.

Definition holds_parts (lower trim : string -> string) (parts : list string)
  (o : Operator) : Prop :=
  operator_name o <> EmptyString
  /\ forall part, In part parts ->
       substring part (lower (trim (operator_name o))).

Definition bears_terms (o : Operator) : Prop :=
  start_term o <> EmptyString \/ end_term o <> EmptyString.

(** Texts made of entities and of characters [escapeHtml] leaves alone. *)
Definition entities : list string :=
  ["&amp;"; "&lt;"; "&gt;"; "&quot;"; "&#39;"]%string.

Inductive escaped : string -> Prop :=
| escaped_nil : escaped EmptyString
| escaped_plain c s :
    OperatorView.is_special c = false -> escaped s -> escaped (String c s)
| escaped_entity e s : In e entities -> escaped s -> escaped (e +:+ s).

Definition plain (s : string) : Prop :=
  Forall (fun c => OperatorView.is_special c = false) (list_ascii_of_string s).

(** The text of a number in [width] decimal digits. *)
Definition digits_ok (width : nat) (n : Z) (s : string) : bool :=
  let l := list_ascii_of_string s in
  (length l =? width)%nat && forallb is_digit l
  && match RefHost.digits_val 0 l with
     | Some v => v =? n
     | None => false
     end.

(** The local date-time text [parseMaybeDate] hands to the host for the
    date [y]-[m]-[d]. *)
Definition iso_text (y m d : Z) : string :=
  Z_to_string y +:+ "-" +:+ padStart2 (Z_to_string m) +:+ "-"
    +:+ padStart2 (Z_to_string d) +:+ "T00:00:00".

(** A host that reads that text as the local midnight of the date, as the
    standard asks for a date-time without an offset. *)
Definition reads_local_iso (host : JsHost) : Prop :=
  forall y m d,
    valid_date y m d -> 1000 <= y <= 9999 ->
    Date_parse (iso_text y m d) = Num (instant y m d 0).



(** The number a decimal of the library stands for, after [acc]. *)
Fixpoint uint_value (acc : Z) (d : Decimal.uint) : Z :=
  match d with
  | Decimal.Nil => acc
  | Decimal.D0 l => uint_value (acc * 10 + 0) l
  | Decimal.D1 l => uint_value (acc * 10 + 1) l
  | Decimal.D2 l => uint_value (acc * 10 + 2) l
  | Decimal.D3 l => uint_value (acc * 10 + 3) l
  | Decimal.D4 l => uint_value (acc * 10 + 4) l
  | Decimal.D5 l => uint_value (acc * 10 + 5) l
  | Decimal.D6 l => uint_value (acc * 10 + 6) l
  | Decimal.D7 l => uint_value (acc * 10 + 7) l
  | Decimal.D8 l => uint_value (acc * 10 + 8) l
  | Decimal.D9 l => uint_value (acc * 10 + 9) l
  end.

Fixpoint hyphen_free (s : string) : bool :=
  match s with
  | EmptyString => true
  | String c r => negb (is_hyphen c) && hyphen_free r
  end.

(** The lines of an item that carry an id, and its gap line. *)
Definition gap_field (it : OperatorView.PolicyItem) : OperatorView.Field :=
  OperatorView.policy_field (OperatorView.policyNum it) (OperatorView.gapLabel it)
    (OperatorView.gapText it).

Definition end_field (it : OperatorView.PolicyItem) : OperatorView.Field :=
  OperatorView.policy_field (OperatorView.policyNum it) "End of Latest Term"
    (OperatorView.item_end_term it).

Definition start_field (it : OperatorView.PolicyItem) : OperatorView.Field :=
  OperatorView.policy_field (OperatorView.policyNum it) "Start of Earliest Term"
    (OperatorView.item_start_term it).

Definition vin_field (n : Z) (vhs : list OperatorView.Vehicle) : OperatorView.Field :=
  OperatorView.vehicle_field n "VIN" (OperatorView.vinText vhs).

(** The date [y]-[m]-[d] written month/day/year, the way the page shows
    dates. *)
Definition slash_text (y m d : Z) : string :=
  padStart2 (Z_to_string m) +:+ "/" +:+ padStart2 (Z_to_string d) +:+ "/"
    +:+ Z_to_string y.

(** ** Reports to run the pages on *)

Module Sample.

Definition operator (name licence rel start_ end_ : string) : Operator :=
  {| operator_name := name; dln := licence; relationship := rel;
     year_of_birth := "1980"; start_term := start_; end_term := end_ |}.

Definition header_of (holder effective expiry latest : string) : PolicyHeader :=
  {| policy_number := "P-1"; insurer := "Acme"; policyholder_name := holder;
     effective_date := effective; expiry_date := expiry;
     cancellation_date := EmptyString; end_of_latest_term := latest |}.

Definition policy (h : PolicyHeader) (ops : list Operator) (sot : string) : Policy :=
  {| header := h; operators := ops; start_of_earliest_term := sot |}.

Definition report (licence : string) (ps : list Policy) : Report :=
  {| report_header := {| driver_name := "Jane Doe"; driver_dln := licence |};
     policies := ps |}.

(** An operator with no licence number on record, one whose licence number
    carries a trailing blank, and one with a name only. *)
Definition unlicensed : Operator :=
  operator "Jane Doe" EmptyString "Self" "01/01/2022" "01/01/2023".

Definition spaced : Operator :=
  operator "Jane Doe" "D1234-56789 " "Self" "01/01/2022" "01/01/2023".

Definition jane : Operator :=
  operator "Jane Doe" "D1234-56789" "Self" EmptyString EmptyString.

Definition element : OperatorView.Element :=
  {| OperatorView.textContent := EmptyString; OperatorView.classList := [] |}.

(** Two policies as received, the most recent first. *)
Definition recent : Policy :=
  policy (header_of "Jane Doe" "02/01/2023" "02/01/2024" EmptyString) [jane] "02/01/2023".

Definition oldest : Policy :=
  policy (header_of "Jane Doe" "01/01/2022" "01/01/2023" EmptyString) [jane] "01/01/2022".

(** Noon UTC of 2024-06-15. *)
Definition noon : Z := days_from_civil 2024 6 15 * DAY + 12 * 3600000.

(** A lower-casing that also knows the capitals of Latin-1, as UTF-8
    writes them: the byte 195, then a byte from 128 to 158 other than 151;
    the small letter is 32 further. *)
Fixpoint lower_latin (s : string) : string :=
  match s with
  | EmptyString => EmptyString
  | String c r =>
      if (nat_of_ascii c =? 195)%nat then
        match r with
        | String d r' =>
            let n := nat_of_ascii d in
            if (128 <=? n)%nat && (n <=? 158)%nat && negb (n =? 151)%nat
            then String c (String (ascii_of_nat (n + 32)) (lower_latin r'))
            else String c (String d (lower_latin r'))
        | EmptyString => String c EmptyString
        end
      else String (lower_char c) (lower_latin r)
  end.

Definition civic : OperatorView.Vehicle :=
  {| OperatorView.vehicle_year := "2019"; OperatorView.make_model := "Honda Civic";
     OperatorView.vin := "2HGFC2F59KH500001"; OperatorView.coverage := EmptyString |}.

End Sample.

(** * Properties *)

(** ** The scan finds the leftmost match *)

Section Scan.
Import Pattern.

Lemma word_before_last (pre : list ascii) :
  word_before false pre = match last pre with Some c => is_word c | None => false end.
Proof.
  assert (G : forall pw, word_before pw pre
              = match last pre with Some c => is_word c | None => pw end).
  { induction pre as [|c r IH]; intros pw; [reflexivity|].
    simpl word_before. rewrite IH. destruct r as [|a r]; [reflexivity|].
    change (last (c :: a :: r)) with (last (a :: r)).
    destruct (last (a :: r)) eqn:E; [reflexivity|].
    apply last_None in E. discriminate. }
  apply G.
Qed.

Lemma is_slash_eq c : is_slash c = true <-> c = "/"%char.
Proof. unfold is_slash. apply Ascii.eqb_eq. Qed.

Lemma is_hyphen_eq c : is_hyphen c = true <-> c = "-"%char.
Proof. unfold is_hyphen. apply Ascii.eqb_eq. Qed.

Lemma here_nil p : here p [] = None.
Proof. destruct p; reflexivity. Qed.

Ltac split_ands :=
  repeat match goal with
         | H : _ && _ = true |- _ => apply andb_prop in H; destruct H
         end.

Lemma here_shape p rest g :
  here p rest = Some g <->
  exists m post, rest = m ++ post /\ shape p m g /\ boundary_after post = true.
Proof.
  split.
  - destruct p; simpl; unfold mdy_here, ymd_here;
      repeat (destruct rest as [|? rest]; [discriminate|]);
      match goal with
      | |- (if ?b then _ else _) = _ -> _ => destruct b eqn:E; [|discriminate]
      end;
      intros [= <-]; split_ands;
      repeat match goal with
             | H : is_slash _ = true |- _ => apply is_slash_eq in H; subst
             | H : is_hyphen _ = true |- _ => apply is_hyphen_eq in H; subst
             end.
    + eexists [_; _; _; _; _; _; _; _; _; _], rest. split; [reflexivity|].
      split; [|assumption].
      do 8 eexists. split; [reflexivity|]. split; [|reflexivity].
      simpl. repeat (apply andb_true_intro; split; try assumption). reflexivity.
    + eexists [_; _; _; _; _; _; _; _; _; _], rest. split; [reflexivity|].
      split; [|assumption].
      do 8 eexists. split; [reflexivity|]. split; [|reflexivity].
      simpl. repeat (apply andb_true_intro; split; try assumption). reflexivity.
  - intros (m & post & -> & Hs & Hb).
    destruct p; simpl in Hs;
      destruct Hs as (a & b & c & d & e & f & x & y & -> & Hd & ->);
      simpl in Hd; split_ands; simpl; unfold mdy_here, ymd_here; simpl;
      repeat match goal with
             | H : is_digit _ = true |- _ => rewrite H; clear H
             end;
      rewrite Hb; reflexivity.
Qed.

Lemma scan_some {A} (f : list ascii -> option A) l : forall pw g,
  scan f pw l = Some g ->
  exists pre rest,
    l = pre ++ rest /\ word_before pw pre = false /\ f rest = Some g
    /\ forall pre' rest',
         l = pre' ++ rest' -> (length pre' < length pre)%nat ->
         word_before pw pre' = false -> f rest' = None.
Proof.
  induction l as [|c r IH]; intros pw g H; [discriminate|].
  simpl in H.
  destruct (if pw then None else f (c :: r)) as [g0|] eqn:E.
  - injection H as ->. destruct pw; [discriminate|].
    exists [], (c :: r). repeat split; try assumption.
    intros pre' rest' _ Hlt. simpl in Hlt. lia.
  - apply IH in H as (pre & rest & -> & Hw & Hf & Hmin).
    exists (c :: pre), rest. repeat split; try assumption.
    intros pre' rest' Heq Hlt Hw'.
    destruct pre' as [|c' pre'].
    + simpl in Heq, Hw'. subst. assumption.
    + simpl in Heq. injection Heq as -> Heq.
      apply (Hmin pre' rest'); [assumption| simpl in Hlt; lia | assumption].
Qed.

Lemma scan_none {A} (f : list ascii -> option A) (Hnil : f [] = None) l :
  forall pw, scan f pw l = None ->
  forall pre rest, l = pre ++ rest -> word_before pw pre = false -> f rest = None.
Proof.
  induction l as [|c r IH]; intros pw H pre rest Heq Hw.
  - symmetry in Heq. apply app_eq_nil in Heq as [_ ->]. assumption.
  - simpl in H.
    destruct (if pw then None else f (c :: r)) as [g0|] eqn:E; [discriminate|].
    destruct pre as [|c' pre].
    + simpl in Heq, Hw. subst. assumption.
    + simpl in Heq. injection Heq as -> Heq.
      apply (IH _ H pre rest); assumption.
Qed.

Lemma find_scan p s : find p s = scan (here p) false (list_ascii_of_string s).
Proof. destruct p; reflexivity. Qed.

(** The scan finds nothing exactly when the pattern matches nowhere. *)
Lemma pattern_find_none p s : find p s = None <-> no_match p s.
Proof.
  rewrite find_scan. split.
  - intros H pre m post g (Heq & Hw & Hs & Hb).
    assert (here p (m ++ post) = None) as E
      by (eapply scan_none; eauto using here_nil).
    assert (here p (m ++ post) = Some g) as E'
      by (apply here_shape; eauto).
    congruence.
  - intros H. destruct (scan _ _ _) as [g|] eqn:E; [|reflexivity].
    apply scan_some in E as (pre & rest & Heq & Hw & Hf & _).
    apply here_shape in Hf as (m & post & -> & Hs & Hb).
    exfalso. apply (H pre m post g). repeat split; assumption.
Qed.

(** The scan returns the groups of the leftmost match. *)
Lemma pattern_find_some p s g : find p s = Some g <-> first_match p s g.
Proof.
  rewrite find_scan. split.
  - intros H. apply scan_some in H as (pre & rest & Heq & Hw & Hf & Hmin).
    apply here_shape in Hf as (m & post & -> & Hs & Hb).
    exists pre, m, post. split; [repeat split; assumption|].
    intros pre' m' post' g' (Heq' & Hw' & Hs' & Hb').
    destruct (Nat.le_gt_cases (length pre) (length pre')) as [|Hlt]; [assumption|].
    assert (here p (m' ++ post') = None) as E by (eapply Hmin; eauto).
    assert (here p (m' ++ post') = Some g') as E' by (apply here_shape; eauto).
    congruence.
  - intros (pre & m & post & (Heq & Hw & Hs & Hb) & Hmin).
    destruct (scan _ _ _) as [g'|] eqn:E.
    + apply scan_some in E as (pre' & rest' & Heq' & Hw' & Hf' & Hmin').
      pose proof Hf' as Hf''.
      apply here_shape in Hf'' as (m' & post' & -> & Hs' & Hb').
      assert (length pre <= length pre')%nat as L1
        by (eapply Hmin; repeat split; eauto).
      assert (here p (m ++ post) = Some g) as Hg by (apply here_shape; eauto).
      destruct (Nat.eq_dec (length pre) (length pre')) as [L|L].
      * rewrite Heq in Heq'. apply app_inj_1 in Heq' as [-> Hr]; [|assumption].
        rewrite Hr in Hg. congruence.
      * assert (here p (m ++ post) = None) as Hn
          by (eapply Hmin'; eauto; lia).
        congruence.
    + exfalso. eapply scan_none in E; eauto using here_nil.
      assert (here p (m ++ post) = Some g) as Hg by (apply here_shape; eauto).
      congruence.
Qed.

End Scan.

(** ** Date parsing *)

Section ParseMaybeDate.
Context {host : JsHost}.
Import Pattern.

Lemma truthy_false s : truthy s = false <-> s = EmptyString.
Proof. destruct s; simpl; split; congruence. Qed.

Lemma truthy_true s : truthy s = true <-> s <> EmptyString.
Proof. destruct s; simpl; split; congruence. Qed.

Lemma first_match_nonempty p s g : first_match p s g -> s <> EmptyString.
Proof.
  intros (pre & m & post & (Heq & _ & Hs & _) & _) ->.
  simpl in Heq. symmetry in Heq.
  apply app_eq_nil in Heq as [_ Heq]. apply app_eq_nil in Heq as [-> _].
  destruct p; simpl in Hs; destruct Hs as (? & ? & ? & ? & ? & ? & ? & ? & ? & _);
    discriminate.
Qed.

Lemma parseMaybeDate_same s :
  PolicyView.parseMaybeDate s = OperatorView.parseMaybeDate s.
Proof. reflexivity. Qed.

(** The order of the attempts.  [parseMaybeDate] tries, in this order and
    stopping at the first that applies: the two-digit/two-digit/four-digit
    slash pattern, read as month/day/year; the [YYYY-MM-DD] pattern, between
    word boundaries; the generic parser of the host on the whole text.  The
    result is [null] for the empty text and when no pattern matches and the
    generic parser gives [NaN].  The two pages define the same function. *)
Lemma parseMaybeDate_order (s : string) :
  (s = EmptyString -> OperatorView.parseMaybeDate s = None)
  /\ (forall mm dd yyyy,
        first_match Slash s (mm, dd, yyyy) ->
        OperatorView.parseMaybeDate s
        = Some (new_Date (yyyy +:+ "-" +:+ mm +:+ "-" +:+ dd +:+ "T00:00:00")))
  /\ (forall yyyy mm dd,
        no_match Slash s -> first_match Iso s (yyyy, mm, dd) ->
        OperatorView.parseMaybeDate s
        = Some (new_Date (yyyy +:+ "-" +:+ mm +:+ "-" +:+ dd +:+ "T00:00:00")))
  /\ (forall t,
        s <> EmptyString -> no_match Slash s -> no_match Iso s ->
        Date_parse s = Num t ->
        OperatorView.parseMaybeDate s = Some (Num t))
  /\ (no_match Slash s -> no_match Iso s -> Date_parse s = NaN ->
      OperatorView.parseMaybeDate s = None)
  /\ PolicyView.parseMaybeDate s = OperatorView.parseMaybeDate s.
Proof.
  unfold OperatorView.parseMaybeDate. repeat split.
  - intros ->. reflexivity.
  - intros mm dd yyyy H.
    pose proof (first_match_nonempty _ _ _ H) as Hne.
    apply truthy_true in Hne. rewrite Hne. simpl.
    apply (pattern_find_some Slash) in H. simpl in H. rewrite H. reflexivity.
  - intros yyyy mm dd Hn H.
    pose proof (first_match_nonempty _ _ _ H) as Hne.
    apply truthy_true in Hne. rewrite Hne. simpl.
    apply (pattern_find_none Slash) in Hn. simpl in Hn. rewrite Hn.
    apply (pattern_find_some Iso) in H. simpl in H. rewrite H. reflexivity.
  - intros t Hne Hn1 Hn2 Hp.
    apply truthy_true in Hne. rewrite Hne. simpl.
    apply (pattern_find_none Slash) in Hn1. simpl in Hn1. rewrite Hn1.
    apply (pattern_find_none Iso) in Hn2. simpl in Hn2. rewrite Hn2.
    rewrite Hp. reflexivity.
  - intros Hn1 Hn2 Hp.
    destruct (truthy s); simpl; [|reflexivity].
    apply (pattern_find_none Slash) in Hn1. simpl in Hn1. rewrite Hn1.
    apply (pattern_find_none Iso) in Hn2. simpl in Hn2. rewrite Hn2.
    rewrite Hp. reflexivity.
Qed.

(** C5, where the pages leave it.  The sentinel is given for a failure of
    the generic parser only.  When one of the two patterns matches, the
    groups are handed to [new Date] and the [Date] comes back as it is: for
    a text of the right shape that names no date (a month 13, a day 45) the
    host reads no date from the groups, and [parseMaybeDate] returns an
    invalid [Date], which is an object and not [null].  Both pages do so. *)
Theorem parseMaybeDate_invalid_date (s g1 g2 g3 : string) :
  (first_match Slash s (g1, g2, g3)
   /\ Date_parse (g3 +:+ "-" +:+ g1 +:+ "-" +:+ g2 +:+ "T00:00:00") = NaN)
  \/ (no_match Slash s /\ first_match Iso s (g1, g2, g3)
      /\ Date_parse (g1 +:+ "-" +:+ g2 +:+ "-" +:+ g3 +:+ "T00:00:00") = NaN) ->
  OperatorView.parseMaybeDate s = Some NaN
  /\ PolicyView.parseMaybeDate s = Some NaN
  /\ OperatorView.parseMaybeDate s <> None.
Proof.
  intros H.
  assert (OperatorView.parseMaybeDate s = Some NaN) as E.
  { unfold OperatorView.parseMaybeDate, new_Date.
    destruct H as [[H Hp]|(Hn & H & Hp)];
      pose proof (first_match_nonempty _ _ _ H) as Hne;
      apply truthy_true in Hne; rewrite Hne; simpl.
    - apply (pattern_find_some Slash) in H. simpl in H. rewrite H, Hp. reflexivity.
    - apply (pattern_find_none Slash) in Hn. simpl in Hn. rewrite Hn.
      apply (pattern_find_some Iso) in H. simpl in H. rewrite H, Hp. reflexivity. }
  split; [exact E|]. split; [exact E|]. rewrite E. discriminate.
Qed.

End ParseMaybeDate.

(** The 45th day of a month 13, in either form. *)
Lemma parseMaybeDate_invalid_date_witness :
  OperatorView.parseMaybeDate (host := RefHost.utc) "13/45/2024" = Some NaN
  /\ PolicyView.parseMaybeDate (host := RefHost.utc) "due 2024-13-45" = Some NaN.
Proof.
  split.
  - apply (parseMaybeDate_invalid_date (host := RefHost.utc) "13/45/2024"
             "13" "45" "2024").
    left. split; [|reflexivity].
    apply (pattern_find_some Pattern.Slash). reflexivity.
  - apply (parseMaybeDate_invalid_date (host := RefHost.utc) "due 2024-13-45"
             "2024" "13" "45").
    right. split; [|split; [|reflexivity]].
    + apply (pattern_find_none Pattern.Slash). reflexivity.
    + apply (pattern_find_some Pattern.Iso). reflexivity.
Defined.

(** The patterns stand between word boundaries: a date glued to a letter or
    to a digit is not found, and the text goes to the generic parser of the
    host, whatever the host. *)
Example date_glued_to_a_word {host : JsHost} :
  let generic s :=
    match Date_parse s with
    | NaN => None
    | Num t => Some (Num t)
    end in
  OperatorView.parseMaybeDate "x2024-03-04" = generic "x2024-03-04"%string
  /\ OperatorView.parseMaybeDate "x03/04/2024" = generic "x03/04/2024"%string
  /\ OperatorView.parseMaybeDate "03/04/20245" = generic "03/04/20245"%string.
Proof. repeat split. Qed.

(** The four branches on the reference browser: a slash date (March 4th, not
    April 3rd), an embedded ISO date, a text only the generic parser reads,
    and a text nothing reads. *)
Lemma parseMaybeDate_order_witness :
  OperatorView.parseMaybeDate (host := RefHost.utc) "03/04/2024"
  = Some (Num (days_from_civil 2024 3 4 * DAY))
  /\ OperatorView.parseMaybeDate (host := RefHost.utc) "ends 2024-03-04."
     = Some (Num (days_from_civil 2024 3 4 * DAY))
  /\ OperatorView.parseMaybeDate (host := RefHost.utc) "unknown" = None
  /\ OperatorView.parseMaybeDate (host := RefHost.utc) EmptyString = None.
Proof.
  pose proof (parseMaybeDate_order (host := RefHost.utc) "03/04/2024")
    as (_ & H1 & _).
  pose proof (parseMaybeDate_order (host := RefHost.utc) "ends 2024-03-04.")
    as (_ & _ & H2 & _).
  pose proof (parseMaybeDate_order (host := RefHost.utc) "unknown")
    as (_ & _ & _ & _ & H3 & _).
  pose proof (parseMaybeDate_order (host := RefHost.utc) EmptyString)
    as (H4 & _).
  split; [|split; [|split]].
  - rewrite (H1 "03" "04" "2024")%string; [reflexivity|].
    apply (pattern_find_some Pattern.Slash). reflexivity.
  - rewrite (H2 "2024" "03" "04")%string; [reflexivity| |].
    + apply (pattern_find_none Pattern.Slash). reflexivity.
    + apply (pattern_find_some Pattern.Iso). reflexivity.
  - apply H3; [| |reflexivity].
    + apply (pattern_find_none Pattern.Slash). reflexivity.
    + apply (pattern_find_none Pattern.Iso). reflexivity.
  - apply H4. reflexivity.
Defined.
(** ** Lists and strings *)

Section Lists.
Context {A : Type} (f : A -> bool) (P : A -> Prop).
Hypothesis f_P : forall x, f x = true <-> P x.

Lemma f_false x : f x = false <-> ~ P x.
Proof using f_P.
  rewrite <- f_P. destruct (f x); split; congruence.
Qed.

Lemma find_first_such l x : List.find f l = Some x <-> first_such P l x.
Proof using f_P.
  split.
  - induction l as [|a l IH]; simpl; [discriminate|].
    destruct (f a) eqn:E.
    + intros [= ->]. exists [], l. repeat split; [apply f_P; assumption|constructor].
    + intros H. apply IH in H as (pre & post & -> & HP & Hall).
      exists (a :: pre), post. repeat split; [assumption|].
      constructor; [apply f_false; assumption|assumption].
  - intros (pre & post & -> & HP & Hall).
    induction Hall as [|a pre Ha Hall IH]; simpl.
    + apply f_P in HP. rewrite HP. reflexivity.
    + apply f_false in Ha. rewrite Ha. assumption.
Qed.

Lemma find_none_such l : List.find f l = None <-> none_such P l.
Proof using f_P.
  unfold none_such. induction l as [|a l IH]; simpl.
  - split; [constructor|reflexivity].
  - destruct (f a) eqn:E.
    + split; [discriminate|]. intros H. inversion H as [|? ? Ha _]; subst.
      apply f_false in Ha. congruence.
    + rewrite IH. split.
      * intros H. constructor; [apply f_false; assumption|assumption].
      * intros H. inversion H; assumption.
Qed.

End Lists.

Lemma or_else_empty s : or_else s EmptyString = s.
Proof. destruct s; reflexivity. Qed.

Lemma or_else_truthy a b : a <> EmptyString -> or_else a b = a.
Proof. destruct a; [congruence|reflexivity]. Qed.

Lemma is_prefix_spec p : forall s, is_prefix p s = true <-> exists b, s = p +:+ b.
Proof.
  induction p as [|c p IH]; intros s; simpl.
  - split; [intros _; exists s; reflexivity|reflexivity].
  - destruct s as [|d s]; simpl.
    + split; [discriminate|intros [b H]; discriminate].
    + rewrite andb_true_iff, Ascii.eqb_eq, IH. split.
      * intros [-> [b ->]]. exists b. reflexivity.
      * intros [b [= -> ->]]. split; [reflexivity|exists b; reflexivity].
Qed.

(** [includes] is the substring test. *)
Lemma includes_substring p : forall s, includes s p = true <-> substring p s.
Proof.
  unfold substring. induction s as [|c s IH].
  - simpl. rewrite orb_false_r, is_prefix_spec. split.
    + intros [b H]. exists EmptyString, b. exact H.
    + intros (a & b & H). destruct a; [exists b; exact H|discriminate].
  - simpl. rewrite orb_true_iff, IH.
    change (is_prefix p (String c s) = true \/ (exists a b, s = a +:+ p +:+ b)
            <-> exists a b, String c s = a +:+ p +:+ b).
    rewrite is_prefix_spec. split.
    + intros [[b H]|(a & b & ->)].
      * exists EmptyString, b. exact H.
      * exists (String c a), b. reflexivity.
    + intros (a & b & H). destruct a as [|d a].
      * left. exists b. exact H.
      * right. simpl in H. injection H as -> ->. exists a, b. reflexivity.
Qed.

(** ** Matching by licence number *)

Lemma find_by_dln_find target ops :
  PolicyView.find_by_dln target ops
  = List.find (fun o => String.eqb (trim (dln o)) target) ops.
Proof.
  induction ops as [|o ops IH]; simpl; [reflexivity|].
  rewrite or_else_empty. destruct (String.eqb _ _); [reflexivity|assumption].
Qed.

(** On the policy page the match is the first operator whose trimmed licence
    number is the trimmed target, whatever the target. *)
Lemma mainOp_first report policy o :
  PolicyView.mainOp report policy = Some o
  <-> first_such (fun o => trim (dln o) = trim (driver_dln (report_header report)))
        (operators policy) o.
Proof.
  unfold PolicyView.mainOp, PolicyView.mainDriverDln.
  rewrite find_by_dln_find, or_else_empty.
  apply find_first_such. intros x. apply String.eqb_eq.
Qed.

Lemma matchingOp_mainOp report policy :
  PolicyView.matchingOp report policy = PolicyView.mainOp report policy.
Proof. reflexivity. Qed.

(** In the list of policies an empty target matches nothing, and the match is
    the first operator whose licence number is the target as it stands. *)
Lemma dlnMatchedOp_empty ops : OperatorView.dlnMatchedOp ops EmptyString = None.
Proof. reflexivity. Qed.

Lemma dlnMatchedOp_first ops driverDLN o :
  driverDLN <> EmptyString ->
  (OperatorView.dlnMatchedOp ops driverDLN = Some o
   <-> first_such (fun o => dln o = driverDLN) ops o).
Proof.
  intros H. unfold OperatorView.dlnMatchedOp.
  apply truthy_true in H. rewrite H.
  apply find_first_such. intros x. apply String.eqb_eq.
Qed.

Lemma no_operator_no_match report h sot driverDLN :
  PolicyView.mainOp report (Sample.policy h [] sot) = None
  /\ OperatorView.dlnMatchedOp [] driverDLN = None.
Proof. split; [reflexivity|]. unfold OperatorView.dlnMatchedOp. destruct (truthy _); reflexivity. Qed.

(** C4.  The two pages at the inputs where they leave the contract of
    [matchByLicense].  The policy page has no test for an empty target: with
    no licence number in the report header, an operator without a licence
    number is taken as the main driver.  The list of policies compares
    without trimming: a licence number that differs from the target by a
    trailing blank is not found. *)
Theorem matchByLicense_departures :
  PolicyView.mainOp (Sample.report EmptyString [])
    (Sample.policy (Sample.header_of "Jane Doe" "01/01/2022" "01/01/2023" EmptyString)
       [Sample.unlicensed] EmptyString)
  = Some Sample.unlicensed
  /\ Spec.matchByLicense [Sample.unlicensed] EmptyString = None
  /\ OperatorView.dlnMatchedOp [Sample.spaced] "D1234-56789" = None
  /\ Spec.matchByLicense [Sample.spaced] "D1234-56789" = Some Sample.spaced.
Proof. repeat split. Qed.
(** ** Matching by name *)

Section NameMatching.
Variables lower trim : string -> string.
Variable split : string -> list string.

Lemma name_is_spec name o :
  OperatorView.ByName.name_is lower trim name o = true
  <-> exact_name lower trim name o.
Proof.
  unfold OperatorView.ByName.name_is, exact_name.
  rewrite andb_true_iff, truthy_true, String.eqb_eq. reflexivity.
Qed.

Lemma name_has_parts_spec parts o :
  OperatorView.ByName.name_has_parts lower trim parts o = true
  <-> holds_parts lower trim parts o.
Proof.
  unfold OperatorView.ByName.name_has_parts, holds_parts.
  destruct (truthy (operator_name o)) eqn:E; simpl.
  - apply truthy_true in E. rewrite forallb_forall. split.
    + intros H. split; [assumption|].
      intros part Hin. apply includes_substring. apply H. assumption.
    + intros [_ H] part Hin. apply includes_substring. apply H. assumption.
  - apply truthy_false in E. split; [discriminate|]. intros [H _]. congruence.
Qed.

Lemma parts_nonempty h :
  (0 <? Z.of_nat (length (OperatorView.ByName.policyholderParts lower trim split h)))
  = true
  <-> OperatorView.ByName.policyholderParts lower trim split h <> [].
Proof.
  destruct (OperatorView.ByName.policyholderParts lower trim split h); split;
    intros H;
    first [congruence | discriminate | apply Z.ltb_lt; simpl; lia
          | apply Z.ltb_lt in H; simpl in H; lia].
Qed.

(** The tokens are the pieces of the lower-cased, trimmed name between runs
    of white space, the empty piece and the word "and" left out. *)
Lemma policyholderParts_spec h part :
  In part (OperatorView.ByName.policyholderParts lower trim split h)
  <-> In part (split (OperatorView.ByName.policyholderName lower trim h))
      /\ part <> EmptyString /\ part <> "and"%string.
Proof.
  unfold OperatorView.ByName.policyholderParts. rewrite filter_In, andb_true_iff.
  rewrite negb_true_iff, String.eqb_neq.
  assert ((0 <? Z.of_nat (String.length part)) = true <-> part <> EmptyString) as ->.
  { destruct part; split; intros H;
      first [congruence | discriminate | apply Z.ltb_lt; simpl; lia
            | apply Z.ltb_lt in H; simpl in H; lia]. }
  reflexivity.
Qed.

Lemma matchedOp_named h ops o :
  OperatorView.ByName.matchedOp lower trim split h ops = Some o ->
  operator_name o <> EmptyString.
Proof.
  unfold OperatorView.ByName.matchedOp.
  destruct (List.find (OperatorView.ByName.name_is _ _ _) ops) as [o'|] eqn:E.
  - intros [= ->]. apply List.find_some in E as [_ E].
    apply name_is_spec in E. apply E.
  - destruct (0 <? _); [|discriminate].
    intros H. apply List.find_some in H as [_ H].
    apply name_has_parts_spec in H. apply H.
Qed.

End NameMatching.

(** C8, amended.  Whatever the lower-casing, the trimming and the split on
    white space of the browser are: the tokens are the pieces of the
    trimmed, lower-cased policyholder name, the empty piece and the word
    "and" left out.  The operator matched by the policyholder's name is the
    first operator with a name whose trimmed, lower-cased name is the
    trimmed, lower-cased policyholder name; failing that, and provided at
    least one token remains, the first operator with a name whose trimmed,
    lower-cased name contains every token; with no token left there is no
    match.  The operator shown is the matched one, else the name of the
    operator at index 0, else the em-dash.  The matching of the list page is
    this one, with the operations that [Js] gives on ASCII text. *)
Theorem matchedOp_by_name (lower trim : string -> string)
  (split : string -> list string) (h : PolicyHeader) (ops : list Operator) :
  let name := OperatorView.ByName.policyholderName lower trim h in
  let parts := OperatorView.ByName.policyholderParts lower trim split h in
  let matched := OperatorView.ByName.matchedOp lower trim split h ops in
  let shown := OperatorView.ByName.displayOp lower trim split h ops in
  (name = lower (trim (policyholder_name h))
   /\ forall part, In part parts
        <-> In part (split name) /\ part <> EmptyString /\ part <> "and"%string)
  /\ (forall o, first_such (exact_name lower trim name) ops o -> matched = Some o)
  /\ (forall o, none_such (exact_name lower trim name) ops -> parts <> [] ->
                first_such (holds_parts lower trim parts) ops o ->
                matched = Some o)
  /\ (none_such (exact_name lower trim name) ops -> parts <> [] ->
      none_such (holds_parts lower trim parts) ops ->
      matched = None)
  /\ (none_such (exact_name lower trim name) ops -> parts = [] -> matched = None)
  /\ (forall o, matched = Some o -> shown = operator_name o)
  /\ (matched = None ->
      shown = match ops with
              | o0 :: _ => or_else (operator_name o0) dash
              | [] => dash
              end)
  /\ OperatorView.matchedOp h ops
     = OperatorView.ByName.matchedOp Js.toLowerCase Js.trim Js.split_ws h ops
  /\ OperatorView.displayOp h ops
     = OperatorView.ByName.displayOp Js.toLowerCase Js.trim Js.split_ws h ops.
Proof.
  intros name parts matched shown.
  split; [split|].
  { subst name. unfold OperatorView.ByName.policyholderName, or_else.
    destruct (policyholder_name h); reflexivity. }
  { intros part. apply policyholderParts_spec. }
  subst matched shown. unfold OperatorView.ByName.displayOp.
  unfold OperatorView.ByName.matchedOp. fold name parts.
  repeat split.
  - intros o H. apply (find_first_such _ _ (name_is_spec lower trim name)) in H.
    rewrite H. reflexivity.
  - intros o Hn Hp H.
    apply (find_none_such _ _ (name_is_spec lower trim name)) in Hn. rewrite Hn.
    apply parts_nonempty in Hp. fold parts in Hp. rewrite Hp.
    apply (find_first_such _ _ (name_has_parts_spec lower trim parts)). assumption.
  - intros Hn Hp H.
    apply (find_none_such _ _ (name_is_spec lower trim name)) in Hn. rewrite Hn.
    apply parts_nonempty in Hp. fold parts in Hp. rewrite Hp.
    apply (find_none_such _ _ (name_has_parts_spec lower trim parts)). assumption.
  - intros Hn Hp.
    apply (find_none_such _ _ (name_is_spec lower trim name)) in Hn. rewrite Hn.
    rewrite Hp. reflexivity.
  - intros o H. rewrite H. simpl.
    apply or_else_truthy. apply (matchedOp_named lower trim split h ops).
    unfold OperatorView.ByName.matchedOp. fold name parts. exact H.
  - intros H. rewrite H. simpl. destruct ops; reflexivity.
Qed.

(** "John and Jane Smith" against the operators "Smith, John" and
    "Smith, Jane and John": the first lacks the token "jane", the second
    holds all three.  And a name with an accent: with a lower-casing that
    knows the letter, the policyholder "Zoé Tremblay" is matched with the
    operator "TREMBLAY, ZOÉ", the second of the list. *)
Lemma matchedOp_by_name_witness :
  let h := Sample.header_of "John and Jane Smith" "01/01/2022" "01/01/2023" EmptyString in
  let o1 := Sample.operator "Smith, John" "D1" "Self" EmptyString EmptyString in
  let o2 := Sample.operator "Smith, Jane and John" "D2" "Spouse" EmptyString EmptyString in
  let h' := Sample.header_of "Zoé Tremblay" "01/01/2022" "01/01/2023" EmptyString in
  let o3 := Sample.operator "ROY, BOB" "D1" "Self" EmptyString EmptyString in
  let o4 := Sample.operator "TREMBLAY, ZOÉ" "D2" "Spouse" EmptyString EmptyString in
  OperatorView.matchedOp h [o1; o2] = Some o2
  /\ OperatorView.displayOp h [o1] = "Smith, John"%string
  /\ OperatorView.ByName.policyholderParts Sample.lower_latin Js.trim Js.split_ws h'
     = ["zoé"; "tremblay"]%string
  /\ OperatorView.ByName.matchedOp Sample.lower_latin Js.trim Js.split_ws h' [o3; o4]
     = Some o4.
Proof.
  intros h o1 o2 h' o3 o4.
  pose proof (matchedOp_by_name Js.toLowerCase Js.trim Js.split_ws h [o1; o2])
    as (_ & _ & H2 & _ & _ & _ & _ & E1 & _).
  pose proof (matchedOp_by_name Js.toLowerCase Js.trim Js.split_ws h [o1])
    as (_ & _ & _ & _ & _ & _ & H6 & _ & E2).
  pose proof (matchedOp_by_name Sample.lower_latin Js.trim Js.split_ws h' [o3; o4])
    as (_ & _ & H3 & _).
  split; [|split; [|split]].
  - rewrite E1. apply H2.
    + apply (find_none_such _ _ (name_is_spec _ _ _)). reflexivity.
    + discriminate.
    + apply (find_first_such _ _ (name_has_parts_spec _ _ _)). reflexivity.
  - rewrite E2, H6; reflexivity.
  - reflexivity.
  - apply H3.
    + apply (find_none_such _ _ (name_is_spec _ _ _)). reflexivity.
    + discriminate.
    + apply (find_first_such _ _ (name_has_parts_spec _ _ _)). reflexivity.
Defined.

(** C8 as stated, at a policy without a policyholder name: no token is left,
    so every operator "contains every token" and the contract selects the
    first one; the page matches nobody and shows no relationship. *)
Lemma matchByName_counterexample :
  Spec.matchByName [Sample.jane] EmptyString = Some Sample.jane
  /\ OperatorView.matchedOp
       (Sample.header_of EmptyString "01/01/2022" "01/01/2023" EmptyString)
       [Sample.jane] = None
  /\ OperatorView.displayRelationship
       (Sample.header_of EmptyString "01/01/2022" "01/01/2023" EmptyString)
       [Sample.jane] = dash.
Proof. repeat split. Qed.
(** ** Resolving the start term *)

Lemma has_terms'_spec o : PolicyView.has_terms' o = true <-> bears_terms o.
Proof.
  unfold PolicyView.has_terms', bears_terms.
  rewrite orb_true_iff, !truthy_true. reflexivity.
Qed.

Section StartTerm.
Context {host : JsHost}.

(** C2, amended.  Neither page runs the whole chain.
    In the list of policies the start term is the policy's own non-empty
    [start_of_earliest_term]; else the [start_term] of the operator matched
    by licence number, re-formatted when it parses; else the sentinel: the
    other operators and the header's [effective_date] are not consulted.
    On the policy page the policy's own field is not consulted: the start
    term is the [start_term] of the matched operator when that operator has a
    start or an end term; else the [start_term] of the first operator of the
    list that has a start or an end term; else the header's
    [effective_date]; else the sentinel. *)
Theorem displayStartTerm_chains (report : Report) (policy : Policy)
  (driverDLN : string) :
  let sot := start_of_earliest_term policy in
  let ops := operators policy in
  (sot <> EmptyString -> OperatorView.displayStartTerm policy driverDLN = sot)
  /\ (forall o,
        sot = EmptyString -> OperatorView.dlnMatchedOp ops driverDLN = Some o ->
        start_term o <> EmptyString ->
        OperatorView.displayStartTerm policy driverDLN
        = OperatorView.shown_term (start_term o))
  /\ (sot = EmptyString ->
      (forall o, OperatorView.dlnMatchedOp ops driverDLN = Some o ->
                 start_term o = EmptyString) ->
      OperatorView.displayStartTerm policy driverDLN = dash)
  /\ (forall o,
        PolicyView.matchingOp report policy = Some o -> bears_terms o ->
        PolicyView.displayStartTerm report policy = or_else (start_term o) dash)
  /\ (forall o',
        (forall o, PolicyView.matchingOp report policy = Some o -> ~ bears_terms o) ->
        first_such bears_terms ops o' ->
        PolicyView.displayStartTerm report policy = or_else (start_term o') dash)
  /\ ((forall o, PolicyView.matchingOp report policy = Some o -> ~ bears_terms o) ->
      none_such bears_terms ops ->
      PolicyView.displayStartTerm report policy
      = or_else (effective_date (header policy)) dash).
Proof.
  intros sot ops. repeat split.
  - intros H. unfold OperatorView.displayStartTerm. fold sot ops.
    apply truthy_true in H. rewrite H, or_else_truthy by (apply truthy_true; exact H).
    simpl. destruct (OperatorView.dlnMatchedOp ops driverDLN); reflexivity.
  - intros o Hs Ho Ht. unfold OperatorView.displayStartTerm. fold sot ops.
    rewrite Ho, Hs. apply truthy_true in Ht. rewrite Ht. reflexivity.
  - intros Hs Ho. unfold OperatorView.displayStartTerm. fold sot ops.
    rewrite Hs. destruct (OperatorView.dlnMatchedOp ops driverDLN) as [o|];
      [|reflexivity].
    rewrite (Ho o eq_refl). reflexivity.
  - intros o Ho Ht. unfold PolicyView.displayStartTerm, PolicyView.displayTerms.
    rewrite Ho. apply has_terms'_spec in Ht. rewrite Ht. reflexivity.
  - intros o' Ho H. unfold PolicyView.displayStartTerm, PolicyView.displayTerms.
    apply (find_first_such _ _ has_terms'_spec) in H. fold ops. rewrite H.
    destruct (PolicyView.matchingOp report policy) as [o|]; [|reflexivity].
    specialize (Ho o eq_refl). apply (f_false _ _ has_terms'_spec) in Ho.
    rewrite Ho. reflexivity.
  - intros Ho H. unfold PolicyView.displayStartTerm, PolicyView.displayTerms.
    apply (find_none_such _ _ has_terms'_spec) in H. fold ops. rewrite H.
    destruct (PolicyView.matchingOp report policy) as [o|]; [|reflexivity].
    specialize (Ho o eq_refl). apply (f_false _ _ has_terms'_spec) in Ho.
    rewrite Ho. reflexivity.
Qed.

End StartTerm.

(** The list of policies at a policy whose matched operator has a start term,
    and the policy page at a policy whose operators have none. *)
Lemma displayStartTerm_chains_witness :
  let o := Sample.operator "Jane Doe" "D1" "Self" "2022-01-05" "01/05/2023" in
  let p := Sample.policy
             (Sample.header_of "Jane Doe" "01/01/2022" "01/01/2023" EmptyString)
             [o] EmptyString in
  let q := Sample.policy
             (Sample.header_of "Jane Doe" "01/01/2022" "01/01/2023" EmptyString)
             [Sample.jane] "12/31/2021" in
  OperatorView.displayStartTerm (host := RefHost.utc) p "D1" = "01/05/2022"%string
  /\ OperatorView.displayStartTerm (host := RefHost.utc) q "D1" = "12/31/2021"%string
  /\ PolicyView.displayStartTerm (Sample.report "D1" [q]) q = "01/01/2022"%string.
Proof.
  intros o p q.
  pose proof (displayStartTerm_chains (host := RefHost.utc) (Sample.report "D1" [p]) p "D1")
    as (_ & H2 & _).
  pose proof (displayStartTerm_chains (host := RefHost.utc) (Sample.report "D1" [q]) q "D1")
    as (H1 & _ & _ & _ & _ & H6).
  split; [|split].
  - rewrite (H2 o); [reflexivity|reflexivity|reflexivity|discriminate].
  - rewrite H1; [reflexivity|discriminate].
  - rewrite H6; [reflexivity| |].
    + intros o' [= <-] [H|H]; apply H; reflexivity.
    + apply (find_none_such _ _ has_terms'_spec). reflexivity.
Defined.

(** C2 as stated, where the pages leave the chain.  A policy without
    operators and without its own start term: the chain gives the header's
    [effective_date], the list of policies gives the sentinel.  A policy with
    its own start term: the chain gives it, the policy page gives the
    header's [effective_date]. *)
Lemma resolveStart_counterexample :
  let h := Sample.header_of "Jane Doe" "01/01/2022" "01/01/2023" EmptyString in
  let p := Sample.policy h [] EmptyString in
  let q := Sample.policy h [] "12/31/2021" in
  Spec.resolveStart p None = "01/01/2022"%string
  /\ OperatorView.displayStartTerm (host := RefHost.utc) p "D1" = dash
  /\ Spec.resolveStart q None = "12/31/2021"%string
  /\ PolicyView.displayStartTerm (Sample.report "D1" [q]) q = "01/01/2022"%string.
Proof. repeat split. Qed.
(** ** Numbering the policies *)

Section PolicyNumbers.
Context {host : JsHost}.

Lemma imap_item_policy (f : nat -> Policy -> OperatorView.PolicyItem) l :
  (forall i p, OperatorView.item_policy (f i p) = p) ->
  map OperatorView.item_policy (imap f l) = l.
Proof.
  revert f. induction l as [|p l IH]; intros f Hf; [reflexivity|].
  simpl. rewrite Hf. f_equal. apply IH. intros i q. apply Hf.
Qed.

(** What a call of [renderPolicies] does to a non-empty array: the items are
    those of the reversed copy, and the array itself is as it was. *)
Lemma renderPolicies_run (st : gmap positive (list Policy)) (a : positive)
  (driverDLN : string) (ps : list Policy) :
  st !! a = Some ps -> ps <> [] ->
  fst (OperatorView.renderPolicies st a driverDLN)
  = imap (OperatorView.policy_item (length ps) driverDLN) (reverse ps)
  /\ snd (OperatorView.renderPolicies st a driverDLN) !! a = Some ps.
Proof.
  intros Ha Hne. unfold OperatorView.renderPolicies, OperatorView.array_read.
  rewrite Ha. simpl.
  destruct ps as [|p ps]; [congruence|]. simpl Nat.eqb. cbv iota.
  unfold OperatorView.array_spread, OperatorView.array_reverse,
    OperatorView.array_read.
  set (a' := fresh (dom st)).
  assert (a' <> a) as Hfresh.
  { intros E. apply (is_fresh (dom st)). fold a'. rewrite E.
    apply elem_of_dom. exists (p :: ps). exact Ha. }
  rewrite Ha. simpl.
  rewrite lookup_alter_eq, lookup_insert_eq. simpl.
  rewrite length_reverse. split; [reflexivity|].
  rewrite lookup_alter_ne, lookup_insert_ne by assumption. exact Ha.
Qed.

(** C3, amended.  The policy at position [i] of the list as received is
    numbered [i + 1]: the most recent policy is number 1 and the oldest has
    the size of the list.  The number is the size minus the position in the
    reversed copy, which is the order of display (oldest first); the array
    received is as it was after the call. *)
Theorem policy_numbers (st : gmap positive (list Policy)) (a : positive)
  (driverDLN : string) (ps : list Policy) :
  st !! a = Some ps ->
  let items := fst (OperatorView.renderPolicies st a driverDLN) in
  snd (OperatorView.renderPolicies st a driverDLN) !! a = Some ps
  /\ map OperatorView.item_policy items = reverse ps
  /\ (forall r it, items !! r = Some it ->
        OperatorView.policyNum it = Z.of_nat (length ps) - Z.of_nat r)
  /\ (forall i p, ps !! i = Some p ->
        exists it, items !! (length ps - 1 - i)%nat = Some it
                   /\ OperatorView.item_policy it = p
                   /\ OperatorView.policyNum it = Z.of_nat i + 1).
Proof.
  intros Ha items.
  destruct ps as [|p0 ps0] eqn:Eps.
  { subst items. unfold OperatorView.renderPolicies, OperatorView.array_read.
    rewrite Ha. simpl. repeat split; try assumption.
    - intros r it H. rewrite lookup_nil in H. discriminate.
    - intros i p H. rewrite lookup_nil in H. discriminate. }
  rewrite <- Eps in *.
  assert (ps <> []) as Hne by (rewrite Eps; discriminate).
  destruct (renderPolicies_run st a driverDLN ps Ha Hne) as [Hitems Hst].
  subst items. rewrite Hitems. clear Eps.
  split; [exact Hst|]. split; [apply imap_item_policy; reflexivity|]. split.
  - intros r it H. rewrite list_lookup_imap in H.
    destruct (reverse ps !! r) as [p|]; [|discriminate].
    injection H as <-. reflexivity.
  - intros i p H. pose proof (lookup_lt_Some _ _ _ H) as Hlt.
    rewrite list_lookup_imap, reverse_lookup by lia.
    replace (length ps - S (length ps - 1 - i))%nat with i by lia.
    rewrite H. simpl. eexists. split; [reflexivity|]. split; [reflexivity|].
    simpl. lia.
Qed.

End PolicyNumbers.

Lemma policy_numbers_witness :
  let st : gmap positive (list Policy) :=
    {[ 1%positive := [Sample.recent; Sample.oldest] ]} in
  let items := fst (OperatorView.renderPolicies (host := RefHost.utc) st 1 "D1") in
  snd (OperatorView.renderPolicies (host := RefHost.utc) st 1 "D1") !! 1%positive
  = Some [Sample.recent; Sample.oldest]
  /\ map OperatorView.item_policy items = [Sample.oldest; Sample.recent]
  /\ exists it, items !! 0%nat = Some it
                /\ OperatorView.item_policy it = Sample.oldest
                /\ OperatorView.policyNum it = 2.
Proof.
  intros st items.
  destruct (policy_numbers (host := RefHost.utc) st 1 "D1"
              [Sample.recent; Sample.oldest]) as (H1 & H2 & _ & H4).
  - reflexivity.
  - split; [exact H1|]. split; [exact H2|].
    exact (H4 1%nat Sample.oldest eq_refl).
Defined.

(** C3 as stated, on two policies: the oldest policy, at position 1 of the
    list of size 2, is number 1 by "size - position"; the page shows it
    first, with number 2, and gives number 1 to the most recent one. *)
Lemma policy_numbers_counterexample :
  let st : gmap positive (list Policy) :=
    {[ 1%positive := [Sample.recent; Sample.oldest] ]} in
  map (fun it => (OperatorView.item_policy it, OperatorView.policyNum it))
    (fst (OperatorView.renderPolicies (host := RefHost.utc) st 1 "D1"))
  = [(Sample.oldest, 2); (Sample.recent, 1)]
  /\ Spec.policyNumber 2 1 = 1
  /\ Spec.policyNumber 2 0 = 2.
Proof.
  intros st.
  destruct (renderPolicies_run (host := RefHost.utc) st 1 "D1"
              [Sample.recent; Sample.oldest]) as [H _];
    [reflexivity|discriminate|].
  rewrite H. repeat split.
Qed.
(** ** The headline metrics *)

Section Headline.
Context {host : JsHost}.
Import OperatorView.

Lemma current_policy_expiry_truthy ps : truthy (current_policy_expiry ps) = true.
Proof.
  unfold current_policy_expiry. destruct ps as [|p ps]; [reflexivity|].
  unfold or_else.
  destruct (truthy (end_of_latest_term (header p))) eqn:E1; [exact E1|].
  destruct (truthy (expiry_date (header p))) eqn:E2; [exact E2|reflexivity].
Qed.

(** The expiry shown is the header's [end_of_latest_term] of the first
    policy, else its [expiry_date], else the em-dash. *)
Lemma current_policy_expiry_first p ps :
  current_policy_expiry (p :: ps)
  = Spec.first_present
      [end_of_latest_term (header p); expiry_date (header p)] dash.
Proof.
  unfold current_policy_expiry, Spec.first_present, or_else. simpl.
  destruct (truthy (end_of_latest_term (header p))); [reflexivity|].
  destruct (truthy (expiry_date (header p))); reflexivity.
Qed.

(** For an expiry the host reads, the difference is the number of local
    calendar days from today to the expiry. *)
Lemma days_to_expiry_valid s now e :
  Date_parse s = Num e ->
  days_to_expiry s now = Num (local_day e - local_day now).
Proof.
  intros H. unfold days_to_expiry, new_Date. rewrite H.
  unfold setHours0, num_sub, ceil_div. f_equal.
  replace (- (local_day e * DAY - tzOffset - (local_day now * DAY - tzOffset)))
    with ((local_day now - local_day e) * DAY) by lia.
  change (1000 * 60 * 60 * 24) with DAY.
  rewrite Z.div_mul by (unfold DAY; lia). lia.
Qed.

Lemma days_to_expiry_invalid s now :
  Date_parse s = NaN -> days_to_expiry s now = NaN.
Proof.
  intros H. unfold days_to_expiry, new_Date. rewrite H. reflexivity.
Qed.

Lemma classList_add_In name cl : In name (classList_add name cl).
Proof.
  unfold classList_add. destruct (existsb _ cl) eqn:E.
  - apply existsb_exists in E as (x & Hin & Hx).
    apply String.eqb_eq in Hx. subst. assumption.
  - apply in_or_app. right. left. reflexivity.
Qed.

Lemma render_shown expiry now el :
  expiry <> dash -> truthy expiry = true ->
  render_days_to_expiry expiry now el
  = (let d := days_to_expiry expiry now in
     let cl := classList_remove ["expired"; "warning"; "ok"]%string (classList el) in
     (Some d,
      {| textContent := num_to_string (Math_max (Num 0) d);
         classList :=
           if num_ltb d (Num 0) then classList_add "expired" cl
           else if num_leb d (Num 30) then classList_add "warning" cl
           else classList_add "ok" cl |})).
Proof.
  intros Hd Ht. unfold render_days_to_expiry. rewrite Ht.
  apply String.eqb_neq in Hd. rewrite Hd. reflexivity.
Qed.

(** What the page does for an expiry the host reads, in the zone of the
    host (one offset all year): the days are the whole local days from
    today to the expiry, and the class follows [< 0], [0..30], [> 30].
    Where the clocks change, see [days_to_expiry_in_zone]. *)
Lemma days_to_expiry_classified rep now el e :
  let expiry := current_policy_expiry (policies rep) in
  expiry <> dash -> Date_parse expiry = Num e ->
  let d := local_day e - local_day now in
  let r := renderReport rep now el in
  currentPolicyExpiry r = expiry
  /\ daysToExpiry r = Some (Num d)
  /\ classList (daysEl r)
     = classList_add (Spec.class_name (Spec.classify d))
         (classList_remove ["expired"; "warning"; "ok"]%string (classList el)).
Proof.
  intros expiry Hd Hp d r. subst r. unfold renderReport. fold expiry.
  rewrite render_shown; [|exact Hd|apply current_policy_expiry_truthy].
  rewrite (days_to_expiry_valid _ _ _ Hp). fold d. simpl.
  repeat split. unfold Spec.classify.
  destruct (d <? 0); [reflexivity|]. destruct (d <=? 30); reflexivity.
Qed.

(** C1, where the page leaves it.  When the expiry text is there but is not
    a date for the host, the page does not fall back to the em-dash: the
    difference is [NaN], the element shows the text NaN, and since [NaN] is
    neither below 0 nor at most 30 the element gets the class of a policy far
    from expiry. *)
Theorem unparseable_expiry_shown_ok (rep : Report) (now : Z) (el : Element) :
  let expiry := current_policy_expiry (policies rep) in
  expiry <> dash -> Date_parse expiry = NaN ->
  let r := renderReport rep now el in
  daysToExpiry r = Some NaN
  /\ textContent (daysEl r) = "NaN"%string
  /\ classList (daysEl r)
     = classList_add "ok"
         (classList_remove ["expired"; "warning"; "ok"]%string (classList el))
  /\ In "ok"%string (classList (daysEl r)).
Proof.
  intros expiry Hd Hp r. subst r. unfold renderReport. fold expiry.
  rewrite render_shown; [|exact Hd|apply current_policy_expiry_truthy].
  rewrite (days_to_expiry_invalid _ _ Hp). simpl.
  repeat split. apply classList_add_In.
Qed.

(** C9.  With no policy, the three dates of the headline are the em-dash,
    no day count is computed and the days element shows the em-dash. *)
Theorem empty_policy_list_metrics (rep : Report) (now : Z) (el : Element) :
  policies rep = [] ->
  let r := renderReport rep now el in
  yearsContinuousInsuranceDate r = dash
  /\ currentInsuranceDate r = dash
  /\ currentPolicyExpiry r = dash
  /\ daysToExpiry r = None
  /\ textContent (daysEl r) = dash.
Proof.
  intros H r. subst r. unfold renderReport. rewrite H. repeat split.
Qed.


End Headline.

(** A policy whose expiry reads "Unknown", rendered over an element that
    carried the class of an expired policy. *)
Lemma unparseable_expiry_shown_ok_witness :
  let rep := Sample.report "D1"
               [Sample.policy
                  (Sample.header_of "Jane Doe" "01/01/2022" "Unknown" EmptyString)
                  [] EmptyString] in
  let el := {| OperatorView.textContent := "0";
               OperatorView.classList := ["days"; "expired"]%string |} in
  let r := OperatorView.renderReport (host := RefHost.utc) rep Sample.noon el in
  OperatorView.currentPolicyExpiry r = "Unknown"%string
  /\ OperatorView.textContent (OperatorView.daysEl r) = "NaN"%string
  /\ OperatorView.classList (OperatorView.daysEl r) = ["days"; "ok"]%string.
Proof.
  intros rep el r.
  destruct (unparseable_expiry_shown_ok (host := RefHost.utc) rep Sample.noon el)
    as (_ & H2 & H3 & _); [discriminate|reflexivity|].
  split; [reflexivity|]. split; [exact H2|exact H3].
Defined.

Lemma empty_policy_list_metrics_witness :
  let r := OperatorView.renderReport (host := RefHost.utc)
             (Sample.report "D1" []) Sample.noon Sample.element in
  OperatorView.currentPolicyExpiry r = dash
  /\ OperatorView.textContent (OperatorView.daysEl r) = dash.
Proof.
  intros r.
  destruct (empty_policy_list_metrics (host := RefHost.utc)
              (Sample.report "D1" []) Sample.noon Sample.element eq_refl)
    as (_ & _ & H3 & _ & H5).
  split; [exact H3|exact H5].
Defined.

(** A policy that expires today, five hours behind UTC, at seven in the
    morning.  Written as 06/15/2024 the expiry is today's local midnight:
    0 days, a warning.  Written as 2024-06-15 the host reads it as midnight
    UTC, which is the evening before in local time: -1 day, an expired
    policy.  [parseMaybeDate] reads both as the local 15th; [renderReport]
    does not go through it. *)
Example expiry_today :
  let rep expiry :=
    Sample.report "D1"
      [Sample.policy (Sample.header_of "Jane Doe" "06/15/2023" expiry EmptyString)
         [] EmptyString] in
  let r expiry :=
    OperatorView.renderReport (host := RefHost.utc_minus_5) (rep expiry)
      Sample.noon Sample.element in
  (OperatorView.daysToExpiry (r "06/15/2024"%string) = Some (Num 0)
   /\ OperatorView.daysEl (r "06/15/2024"%string)
      = {| OperatorView.textContent := "0";
           OperatorView.classList := ["warning"%string] |})
  /\ (OperatorView.daysToExpiry (r "2024-06-15"%string) = Some (Num (-1))
      /\ OperatorView.daysEl (r "2024-06-15"%string)
         = {| OperatorView.textContent := "0";
              OperatorView.classList := ["expired"%string] |})
  /\ OperatorView.parseMaybeDate (host := RefHost.utc_minus_5) "2024-06-15"
     = OperatorView.parseMaybeDate (host := RefHost.utc_minus_5) "06/15/2024".
Proof. vm_compute. repeat split. Qed.

(** ** The calendar *)

Section CalendarFacts.
Import Calendar.

(** The table of one era, checked by computation: every day of every month
    of the 400 years decodes to itself. *)
Lemma table_ok_true :
  forallb (fun yoe =>
    forallb (fun mp =>
      forallb (fun d => (month_length yoe mp <? d) || cell_ok yoe mp d)
        (range 1 31))
      (range 0 12))
    (range 0 400) = true.
Proof. vm_compute. reflexivity. Qed.

Lemma in_range a n z : a <= z < a + Z.of_nat n -> In z (range a n).
Proof.
  intros H. unfold range. apply in_map_iff.
  exists (Z.to_nat (z - a)). split; [lia|]. apply in_seq. lia.
Qed.

Lemma cell_ok_valid yoe mp d :
  0 <= yoe < 400 -> 0 <= mp < 12 -> 1 <= d <= month_length yoe mp ->
  0 <= doe_of yoe mp d <= 146096 /\ decode (doe_of yoe mp d) = (yoe, mp, d).
Proof.
  intros Hy Hm Hd.
  assert (month_length yoe mp <= 31) as Hmax.
  { unfold month_length, days_in_month.
    repeat match goal with |- context [if ?b then _ else _] => destruct b end; lia. }
  pose proof table_ok_true as T.
  rewrite forallb_forall in T. specialize (T yoe (in_range 0 400 yoe ltac:(lia))).
  rewrite forallb_forall in T. specialize (T mp (in_range 0 12 mp ltac:(lia))).
  rewrite forallb_forall in T. specialize (T d (in_range 1 31 d ltac:(lia))).
  apply orb_true_iff in T as [T|T]; [apply Z.ltb_lt in T; lia|].
  unfold cell_ok in T. apply andb_true_iff in T as [T T3].
  apply andb_true_iff in T as [T1 T2].
  apply Z.leb_le in T1. apply Z.leb_le in T2. split; [lia|].
  unfold triple_eqb in T3. destruct (decode (doe_of yoe mp d)) as [[a b] c].
  apply andb_true_iff in T3 as [T3 T6]. apply andb_true_iff in T3 as [T4 T5].
  apply Z.eqb_eq in T4, T5, T6. congruence.
Qed.

Lemma is_leap_period k era : is_leap (era * 400 + k) = is_leap k.
Proof.
  unfold is_leap.
  replace ((era * 400 + k) mod 4) with (k mod 4)
    by (replace (era * 400 + k) with (k + (era * 100) * 4) by lia;
        symmetry; apply Z_mod_plus_full).
  replace ((era * 400 + k) mod 100) with (k mod 100)
    by (replace (era * 400 + k) with (k + (era * 4) * 100) by lia;
        symmetry; apply Z_mod_plus_full).
  replace ((era * 400 + k) mod 400) with (k mod 400)
    by (replace (era * 400 + k) with (k + era * 400) by lia;
        symmetry; apply Z_mod_plus_full).
  reflexivity.
Qed.

Lemma month_length_eq y m :
  1 <= m <= 12 ->
  let y' := if m <=? 2 then y - 1 else y in
  month_length (y' mod 400) (mp_of_month m) = days_in_month y m.
Proof.
  intros Hm y'.
  assert (y' = (y' / 400) * 400 + y' mod 400) as Ey
    by (pose proof (Z.div_mod y' 400); lia).
  assert (m = 1 \/ m = 2 \/ m = 3 \/ m = 4 \/ m = 5 \/ m = 6 \/ m = 7 \/ m = 8
          \/ m = 9 \/ m = 10 \/ m = 11 \/ m = 12) as C by lia.
  unfold month_length.
  repeat (destruct C as [C|C]); subst m; try reflexivity.
  change (mp_of_month 2) with 11. change (10 <=? 11) with true. cbv iota.
  change (month_of_mp 11) with 2. unfold days_in_month. change (2 =? 2) with true.
  cbv iota.
  replace y with ((y' / 400) * 400 + (y' mod 400 + 1)) by (subst y'; simpl in *; lia).
  rewrite is_leap_period. reflexivity.
Qed.

Lemma civil_from_days_decode z :
  civil_from_days z
  = assemble ((z + 719468) / 146097)
      (decode (z + 719468 - (z + 719468) / 146097 * 146097)).
Proof. reflexivity. Qed.

(** Reading the calendar fields of the day number of a date gives the date
    back. *)
Lemma civil_roundtrip y m d :
  1 <= m <= 12 -> 1 <= d <= days_in_month y m ->
  civil_from_days (days_from_civil y m d) = (y, m, d).
Proof.
  intros Hm Hd.
  pose proof (month_length_eq y m Hm) as L. cbv zeta in L.
  set (y' := if m <=? 2 then y - 1 else y) in *.
  assert (y' = 400 * (y' / 400) + y' mod 400) as Ey by (apply Z.div_mod; lia).
  assert (0 <= y' mod 400 < 400) as By by (apply Z.mod_pos_bound; lia).
  assert (0 <= mp_of_month m < 12) as Bm
    by (unfold mp_of_month; destruct (m <=? 2) eqn:E;
        [apply Z.leb_le in E|apply Z.leb_gt in E]; lia).
  rewrite <- L in Hd.
  destruct (cell_ok_valid _ _ _ By Bm Hd) as [Bd Hdec].
  assert (days_from_civil y m d
          = (y' / 400) * 146097 + doe_of (y' mod 400) (mp_of_month m) d - 719468) as E.
  { unfold days_from_civil, doe_of, mp_of_month. fold y'.
    replace (y' - y' / 400 * 400) with (y' mod 400) by lia. reflexivity. }
  rewrite E. rewrite civil_from_days_decode.
  set (doe := doe_of (y' mod 400) (mp_of_month m) d) in *.
  replace (y' / 400 * 146097 + doe - 719468 + 719468)
    with (doe + (y' / 400) * 146097) by lia.
  rewrite Z.div_add by lia. rewrite (Z.div_small doe) by lia.
  replace (doe + y' / 400 * 146097 - (0 + y' / 400) * 146097) with doe by lia.
  rewrite Hdec. unfold assemble, month_of_mp, mp_of_month.
  replace (y' mod 400 + (0 + y' / 400) * 400) with y' by lia.
  subst y'.
  destruct (m <=? 2) eqn:E1;
    [apply Z.leb_le in E1|apply Z.leb_gt in E1];
    match goal with |- context [?a <? 10] => destruct (a <? 10) eqn:E2 end;
    [apply Z.ltb_lt in E2|apply Z.ltb_ge in E2|apply Z.ltb_lt in E2|apply Z.ltb_ge in E2];
    try lia;
    match goal with |- context [?a <=? 2] => destruct (a <=? 2) eqn:E3 end;
    [apply Z.leb_le in E3|apply Z.leb_gt in E3|apply Z.leb_le in E3|apply Z.leb_gt in E3];
    try lia; repeat f_equal; lia.
Qed.

End CalendarFacts.

(** ** Months between two dates *)

Section MonthsBetween.
Context {host : JsHost}.

Lemma local_day_instant y m d ms :
  0 <= ms < DAY -> local_day (instant y m d ms) = days_from_civil y m d.
Proof.
  intros H. unfold local_day, instant.
  replace (days_from_civil y m d * DAY + ms - tzOffset + tzOffset)
    with (ms + days_from_civil y m d * DAY) by lia.
  rewrite Z.div_add by (unfold DAY; lia).
  rewrite Z.div_small by assumption. lia.
Qed.

Lemma fields_of_instant y m d ms :
  valid_date y m d -> 0 <= ms < DAY ->
  year_of (instant y m d ms) = y /\ month_of (instant y m d ms) = m.
Proof.
  intros [Hm Hd] H. unfold year_of, month_of.
  rewrite local_day_instant by assumption.
  rewrite civil_roundtrip by assumption. split; reflexivity.
Qed.

Lemma monthsBetween_same d1 d2 :
  PolicyView.monthsBetween d1 d2 = OperatorView.monthsBetween d1 d2.
Proof. reflexivity. Qed.

Lemma monthsBetween_valid t1 t2 :
  OperatorView.monthsBetween (Some (Num t1)) (Some (Num t2))
  = Some (Num (calendar_months t1 t2)).
Proof.
  unfold OperatorView.monthsBetween, getFullYear, getMonth, local_field,
    num_add, num_mul, num_sub, calendar_months, year_of, month_of.
  do 2 f_equal. lia.
Qed.

(** [null] for a missing date. *)
Lemma monthsBetween_null d :
  OperatorView.monthsBetween None d = None
  /\ OperatorView.monthsBetween d None = None.
Proof. split; [reflexivity|destruct d; reflexivity]. Qed.

(** C7.  For two valid dates the result is
    [(year2 - year1) * 12 + (month2 - month1)] on the local year and month of
    the two time values.  In terms of the dates themselves: whatever the days
    of the month and the times of day, the result is that integer on the
    years and months alone.  Both pages define the same function. *)
Theorem monthsBetween_calendar_months :
  (forall t1 t2,
     OperatorView.monthsBetween (Some (Num t1)) (Some (Num t2))
     = Some (Num ((year_of t2 - year_of t1) * 12 + (month_of t2 - month_of t1))))
  /\ (forall y1 m1 d1 ms1 y2 m2 d2 ms2,
        valid_date y1 m1 d1 -> valid_date y2 m2 d2 ->
        0 <= ms1 < DAY -> 0 <= ms2 < DAY ->
        OperatorView.monthsBetween
          (Some (Num (instant y1 m1 d1 ms1))) (Some (Num (instant y2 m2 d2 ms2)))
        = Some (Num ((y2 - y1) * 12 + (m2 - m1))))
  /\ (forall d1 d2,
        PolicyView.monthsBetween d1 d2 = OperatorView.monthsBetween d1 d2).
Proof.
  split; [|split].
  - intros t1 t2. apply monthsBetween_valid.
  - intros y1 m1 d1 ms1 y2 m2 d2 ms2 V1 V2 B1 B2.
    rewrite monthsBetween_valid. unfold calendar_months.
    destruct (fields_of_instant _ _ _ _ V1 B1) as [-> ->].
    destruct (fields_of_instant _ _ _ _ V2 B2) as [-> ->].
    reflexivity.
  - reflexivity.
Qed.

End MonthsBetween.

(** From January 31st to February 1st, one day later: one month.  From
    January 1st to January 31st of the same year: none. *)
Lemma monthsBetween_calendar_months_witness :
  OperatorView.monthsBetween (host := RefHost.utc_minus_5)
    (Some (Num (instant (host := RefHost.utc_minus_5) 2023 1 31 0)))
    (Some (Num (instant (host := RefHost.utc_minus_5) 2023 2 1 0)))
  = Some (Num 1)
  /\ OperatorView.monthsBetween (host := RefHost.utc_minus_5)
       (Some (Num (instant (host := RefHost.utc_minus_5) 2023 1 1 0)))
       (Some (Num (instant (host := RefHost.utc_minus_5) 2023 1 31 (DAY - 1))))
     = Some (Num 0).
Proof.
  destruct (monthsBetween_calendar_months (host := RefHost.utc_minus_5))
    as (_ & H & _).
  split.
  - rewrite H; [reflexivity| | | |]; vm_compute; repeat split;
      first [reflexivity | discriminate].
  - rewrite H; [reflexivity| | | |]; vm_compute; repeat split;
      first [reflexivity | discriminate].
Defined.

(** ** The gap badges of the policy page *)

Section GapBadges.
Context {host : JsHost}.
Import PolicyView.

Lemma plural_num n : plural (Num n) = if n =? 1 then EmptyString else "s"%string.
Proof. reflexivity. Qed.

Lemma badge_of_months gap none overlap m :
  (if num_gtb (Num m) (Num 0)
   then gap +:+ num_to_string (Num m) +:+ " month" +:+ plural (Num m)
   else if num_eqb (Num m) (Num 0) then none
   else overlap +:+ num_to_string (Math_abs (Num m)) +:+ " month"
          +:+ plural (Math_abs (Num m)))
  = Spec.badge gap none overlap (Spec.relate m).
Proof.
  unfold Spec.relate, Spec.badge, Spec.month_count, num_gtb, num_ltb, num_eqb,
    Math_abs, num_to_string, plural, num_eqb.
  destruct (0 <? m); [reflexivity|]. destruct (m =? 0); reflexivity.
Qed.

(** Determinate boundaries.  With both boundaries valid dates the
    badge follows the sign of the month count from the end to the start: a
    gap for a positive count, no gap for zero, an overlap with the absolute
    value for a negative count.  With a boundary that does not parse there
    is no badge. *)
Lemma gapMsg_determinate h te ts :
  parseMaybeDate (or_else (expiry_date h) (cancellation_date h)) = Some (Num te) ->
  parseMaybeDate (effective_date h) = Some (Num ts) ->
  gapMsg h
  = Spec.badge "Coverage Gap — " "No Coverage Gap" "Overlap — "
      (Spec.relate (calendar_months te ts)).
Proof.
  intros He Hs. unfold gapMsg. rewrite He, Hs.
  rewrite monthsBetween_same, monthsBetween_valid. apply badge_of_months.
Qed.

Lemma interMsg_determinate prev h te ts :
  parseMaybeDate (or_else (expiry_date prev) (cancellation_date prev)) = Some (Num te) ->
  parseMaybeDate (effective_date h) = Some (Num ts) ->
  interMsg prev h
  = Some (Spec.badge "Coverage Gap vs Prev Policy — " "No Coverage Gap vs Prev Policy"
            "Overlap vs Prev Policy — " (Spec.relate (calendar_months te ts))).
Proof.
  intros He Hs. unfold interMsg. rewrite He, Hs.
  rewrite monthsBetween_same, monthsBetween_valid. f_equal. apply badge_of_months.
Qed.

Lemma gapMsg_null h :
  parseMaybeDate (or_else (expiry_date h) (cancellation_date h)) = None
  \/ parseMaybeDate (effective_date h) = None ->
  gapMsg h = EmptyString.
Proof.
  intros [H|H]; unfold gapMsg; rewrite H; [reflexivity|].
  destruct (parseMaybeDate (or_else _ _)); reflexivity.
Qed.

Lemma interMsg_null prev h :
  parseMaybeDate (or_else (expiry_date prev) (cancellation_date prev)) = None
  \/ parseMaybeDate (effective_date h) = None ->
  interMsg prev h = None.
Proof.
  intros [H|H]; unfold interMsg; rewrite H; [reflexivity|].
  destruct (parseMaybeDate (or_else _ _)); reflexivity.
Qed.

(** C6, where the page leaves it.  A boundary that matches one of the two
    patterns but names no date (a month 13, a day 45) comes back from
    [parseMaybeDate] as an invalid [Date], which is not [null]: the month
    count is [NaN], neither positive nor zero, and the badge reads as an
    overlap of NaN months. *)
Theorem invalid_boundary_shown_overlap (h : PolicyHeader) (d : JsDate) :
  parseMaybeDate (or_else (expiry_date h) (cancellation_date h)) = Some d ->
  parseMaybeDate (effective_date h) = Some NaN ->
  gapMsg h = "Overlap — NaN months"%string
  /\ forall prev d',
       parseMaybeDate (or_else (expiry_date prev) (cancellation_date prev)) = Some d' ->
       interMsg prev h = Some "Overlap vs Prev Policy — NaN months"%string.
Proof.
  intros He Hs. split.
  - unfold gapMsg. rewrite He, Hs. reflexivity.
  - intros prev d' Hp. unfold interMsg. rewrite Hp, Hs. reflexivity.
Qed.

End GapBadges.

(** A policy said to start on "13/45/2024". *)
Lemma invalid_boundary_shown_overlap_witness :
  let h := Sample.header_of "Jane Doe" "13/45/2024" "01/01/2024" EmptyString in
  PolicyView.parseMaybeDate (host := RefHost.utc) "13/45/2024" = Some NaN
  /\ PolicyView.gapMsg (host := RefHost.utc) h = "Overlap — NaN months"%string
  /\ PolicyView.interMsg (host := RefHost.utc) (header Sample.oldest) h
     = Some "Overlap vs Prev Policy — NaN months"%string.
Proof.
  intros h.
  destruct (invalid_boundary_shown_overlap (host := RefHost.utc) h
              (Num (days_from_civil 2024 1 1 * DAY)))
    as [H1 H2]; [reflexivity|reflexivity|].
  split; [reflexivity|]. split; [exact H1|].
  apply (H2 (header Sample.oldest) (Num (days_from_civil 2023 1 1 * DAY))).
  reflexivity.
Defined.

(** The same with the placeholder "00/00/0000" as the expiry. *)
Example placeholder_boundary :
  PolicyView.gapMsg (host := RefHost.utc)
    (Sample.header_of "Jane Doe" "01/01/2024" "00/00/0000" EmptyString)
  = "Overlap — NaN months"%string.
Proof. vm_compute. reflexivity. Qed.

(** The two scenarios of the specification on the reference browser: a
    policy ending 01/01/2023 followed by one starting 02/01/2023, and a
    policy ending 06/01/2023 followed by one starting 05/01/2023. *)
Example inter_policy_gap_one_month :
  PolicyView.interMsg (host := RefHost.utc)
    (Sample.header_of "Jane Doe" "01/01/2022" "01/01/2023" EmptyString)
    (Sample.header_of "Jane Doe" "02/01/2023" "02/01/2024" EmptyString)
  = Some "Coverage Gap vs Prev Policy — 1 month"%string.
Proof. vm_compute. reflexivity. Qed.

Example inter_policy_overlap_one_month :
  PolicyView.interMsg (host := RefHost.utc)
    (Sample.header_of "Jane Doe" "06/01/2022" "06/01/2023" EmptyString)
    (Sample.header_of "Jane Doe" "05/01/2023" "05/01/2024" EmptyString)
  = Some "Overlap vs Prev Policy — 1 month"%string.
Proof. vm_compute. reflexivity. Qed.

(** * Further properties of the pages *)

(** ** Escaping *)

Section Escaping.
Import OperatorView.

Lemma escape_char_cases c :
  (is_special c = false /\ escape_char c = String c EmptyString)
  \/ (is_special c = true /\ In (escape_char c) entities).
Proof.
  unfold is_special, escape_char, entities.
  destruct (Ascii.eqb c "&");
    [right; split; [reflexivity|left; reflexivity]|].
  destruct (Ascii.eqb c "<");
    [right; split; [reflexivity|right; left; reflexivity]|].
  destruct (Ascii.eqb c ">");
    [right; split; [reflexivity|do 2 right; left; reflexivity]|].
  destruct (Ascii.eqb c quot);
    [right; split; [reflexivity|do 3 right; left; reflexivity]|].
  destruct (Ascii.eqb c apos);
    [right; split; [reflexivity|do 4 right; left; reflexivity]|].
  left. split; reflexivity.
Qed.

Lemma entity_chars e c :
  In e entities -> In c (list_ascii_of_string e) ->
  c = "&"%char \/ OperatorView.is_special c = false.
Proof.
  unfold entities. simpl.
  intros [<-|[<-|[<-|[<-|[<-|[]]]]]]; simpl; intros H;
    repeat match type of H with
           | _ \/ _ => destruct H as [H|H];
                        [subst c; first [left; reflexivity|right; reflexivity]|]
           end; destruct H.
Qed.

Lemma list_ascii_app a b :
  list_ascii_of_string (a +:+ b) = list_ascii_of_string a ++ list_ascii_of_string b.
Proof. induction a as [|c a IH]; simpl; [reflexivity|]. rewrite IH. reflexivity. Qed.

Lemma escaped_chars s :
  escaped s ->
  Forall (fun c => c = "&"%char \/ is_special c = false) (list_ascii_of_string s).
Proof.
  induction 1 as [|c s Hc _ IH|e s He _ IH]; simpl.
  - constructor.
  - constructor; [right; assumption|assumption].
  - rewrite list_ascii_app. apply Forall_app. split; [|assumption].
    apply List.Forall_forall. intros c Hin. eapply entity_chars; eassumption.
Qed.

Lemma escapeHtml_plain s : plain s -> escapeHtml s = s.
Proof.
  unfold plain. induction s as [|c s IH]; simpl; [reflexivity|].
  intros H. inversion H as [|? ? Hc Hs]; subst.
  destruct (escape_char_cases c) as [[_ ->]|[E _]]; [|congruence].
  simpl. rewrite IH by assumption. reflexivity.
Qed.

Lemma entity_longer e : In e entities -> (2 <= String.length e)%nat.
Proof.
  unfold entities. simpl.
  intros [<-|[<-|[<-|[<-|[<-|[]]]]]]; simpl; lia.
Qed.

Lemma length_append a b :
  String.length (a +:+ b) = (String.length a + String.length b)%nat.
Proof. induction a as [|c a IH]; simpl; [reflexivity|]. rewrite IH. reflexivity. Qed.

Lemma escapeHtml_length s :
  (String.length s <= String.length (escapeHtml s))%nat
  /\ (String.length (escapeHtml s) = String.length s -> plain s).
Proof.
  unfold plain. induction s as [|c s [IH1 IH2]]; simpl.
  - split; [lia|]. intros _. constructor.
  - rewrite length_append.
    destruct (escape_char_cases c) as [[Hc ->]|[_ He]].
    + simpl. split; [lia|]. intros H. constructor; [assumption|].
      apply IH2. lia.
    + apply entity_longer in He. split; lia.
Qed.

(** The text that [escapeHtml] returns is made of the five entities and of
    characters outside the class: it holds none of [<], [>], the two quotes,
    and every [&] in it opens an entity.  A text is returned as it is exactly
    when it holds no character of the class; any other text grows. *)
Theorem escapeHtml_safe (s : string) :
  escaped (escapeHtml s)
  /\ Forall (fun c => c = "&"%char \/ is_special c = false)
       (list_ascii_of_string (escapeHtml s))
  /\ (escapeHtml s = s <-> plain s)
  /\ (String.length s <= String.length (escapeHtml s))%nat
  /\ PolicyView.escapeHtml s = escapeHtml s.
Proof.
  assert (escaped (escapeHtml s)) as E.
  { induction s as [|c s IH]; simpl; [constructor|].
    destruct (escape_char_cases c) as [[Hc ->]|[_ He]].
    - simpl. constructor; assumption.
    - constructor; assumption. }
  split; [exact E|]. split; [apply escaped_chars; exact E|].
  split; [|split].
  - split; [|apply escapeHtml_plain].
    intros H. apply escapeHtml_length. rewrite H. reflexivity.
  - apply escapeHtml_length.
  - unfold PolicyView.escapeHtml. rewrite or_else_empty. reflexivity.
Qed.

End Escaping.

(** ** The two canonical formats *)

Section CanonicalFormats.
Context {host : JsHost}.

Lemma digit_facts c :
  is_digit c = true ->
  is_word c = true /\ is_slash c = false /\ is_hyphen c = false.
Proof.
  destruct c as [[] [] [] [] [] [] [] []]; intros H;
    first [discriminate H | repeat split].
Qed.

Lemma scan_skip {A} (f : list ascii -> option A) c r :
  scan f true (c :: r) = scan f (is_word c) r.
Proof. reflexivity. Qed.

Lemma scan_miss {A} (f : list ascii -> option A) c r :
  f (c :: r) = None -> scan f false (c :: r) = scan f (is_word c) r.
Proof. intros H. simpl. rewrite H. reflexivity. Qed.

(** The same eight digits, written month/day/year with slashes or
    year-month-day with hyphens, give the same [Date], whatever the host: both
    are handed to the host as the same local date-time text. *)
Theorem canonical_formats_agree (a b c d e f g h : ascii) :
  forallb is_digit [a; b; c; d; e; f; g; h] = true ->
  let slash := str [a; b; "/"%char; c; d; "/"%char; e; f; g; h] in
  let iso := str [e; f; g; h; "-"%char; a; b; "-"%char; c; d] in
  OperatorView.parseMaybeDate slash = Some (new_Date (iso +:+ "T00:00:00"))
  /\ OperatorView.parseMaybeDate iso = OperatorView.parseMaybeDate slash
  /\ PolicyView.parseMaybeDate iso = PolicyView.parseMaybeDate slash.
Proof.
  intros H slash iso. simpl in H.
  repeat match goal with
         | H : _ && _ = true |- _ => apply andb_prop in H; destruct H
         end.
  repeat match goal with
         | H : is_digit ?x = true |- _ =>
             let W := fresh "W" in let S := fresh "S" in let Y := fresh "Y" in
             destruct (digit_facts x H) as (W & S & Y); revert H
         end.
  intros.
  assert (OperatorView.parseMaybeDate slash = Some (new_Date (iso +:+ "T00:00:00")))
    as E1.
  { unfold OperatorView.parseMaybeDate, match_mdy, slash, str.
    rewrite list_ascii_of_string_of_list_ascii. simpl.
    repeat match goal with
           | H : is_digit _ = true |- _ => rewrite H; clear H
           end.
    reflexivity. }
  assert (OperatorView.parseMaybeDate iso = Some (new_Date (iso +:+ "T00:00:00")))
    as E2.
  { unfold OperatorView.parseMaybeDate, match_mdy, match_ymd, iso, str.
    rewrite list_ascii_of_string_of_list_ascii.
    change (truthy (string_of_list_ascii [e; f; g; h; "-"%char; a; b; "-"%char; c; d]))
      with true.
    cbv beta iota delta [negb].
    rewrite scan_miss
      by (simpl; repeat match goal with
                        | H : is_slash _ = false |- _ => rewrite H
                        | H : is_digit _ = true |- _ => rewrite H
                        end; reflexivity).
    repeat match goal with
           | H : is_word ?x = true |- context [scan _ (is_word ?x) _] =>
               rewrite H, scan_skip
           end.
    change (is_word "-") with false.
    rewrite scan_miss by reflexivity.
    repeat match goal with
           | H : is_word ?x = true |- context [scan _ (is_word ?x) _] =>
               rewrite H, scan_skip
           end.
    change (is_word "-") with false.
    rewrite scan_miss by reflexivity.
    repeat match goal with
           | H : is_word ?x = true |- context [scan _ (is_word ?x) _] =>
               rewrite H
           end.
    simpl.
    repeat match goal with
           | H : is_digit _ = true |- _ => rewrite H; clear H
           end.
    reflexivity. }
  split; [exact E1|]. split; [congruence|].
  change (OperatorView.parseMaybeDate iso = OperatorView.parseMaybeDate slash).
  congruence.
Qed.

End CanonicalFormats.

(** March 4th, 2024, on the reference browser. *)
Lemma canonical_formats_agree_witness :
  OperatorView.parseMaybeDate (host := RefHost.utc_minus_5) "2024-03-04"
  = OperatorView.parseMaybeDate (host := RefHost.utc_minus_5) "03/04/2024"
  /\ OperatorView.parseMaybeDate (host := RefHost.utc_minus_5) "03/04/2024"
     = Some (Num (instant (host := RefHost.utc_minus_5) 2024 3 4 0)).
Proof.
  destruct (canonical_formats_agree (host := RefHost.utc_minus_5)
              "0" "3" "0" "4" "2" "0" "2" "4" eq_refl) as (H1 & H2 & _).
  split; [exact H2|exact H1].
Defined.

(** ** Showing a date and reading it again *)

Section FormatParse.

Lemma two_digit_table :
  forallb (fun n => digits_ok 2 n (padStart2 (Z_to_string n)))
    (Calendar.range 0 100) = true.
Proof. vm_compute. reflexivity. Qed.

Lemma four_digit_table :
  forallb (fun n => digits_ok 4 n (Z_to_string n)) (Calendar.range 1000 (Z.to_nat 9000)) = true.
Proof. vm_compute. reflexivity. Qed.

Lemma short_year_table :
  forallb (fun n => (String.length (Z_to_string n) <? 4)%nat) (Calendar.range 0 1000)
  = true.
Proof. vm_compute. reflexivity. Qed.

Lemma two_digit_text n :
  0 <= n <= 99 -> digits_ok 2 n (padStart2 (Z_to_string n)) = true.
Proof.
  intros H. pose proof two_digit_table as T.
  rewrite forallb_forall in T. apply T. apply in_range.
  change (0 <= n < 100). lia.
Qed.

Lemma four_digit_text n :
  1000 <= n <= 9999 -> digits_ok 4 n (Z_to_string n) = true.
Proof.
  intros H. pose proof four_digit_table as T.
  rewrite forallb_forall in T. apply T. apply in_range.
  change (1000 <= n < 10000). lia.
Qed.

Lemma short_year_text n :
  0 <= n <= 999 -> (String.length (Z_to_string n) < 4)%nat.
Proof.
  intros H. pose proof short_year_table as T.
  rewrite forallb_forall in T. apply Nat.ltb_lt. apply T. apply in_range.
  change (0 <= n < 1000). lia.
Qed.

Lemma digits_ok_list width n s :
  digits_ok width n s = true ->
  exists l, s = str l /\ length l = width /\ forallb is_digit l = true
            /\ RefHost.digits_val 0 l = Some n.
Proof.
  unfold digits_ok. intros H.
  apply andb_prop in H as [H H3]. apply andb_prop in H as [H1 H2].
  exists (list_ascii_of_string s). split; [|split; [|split]].
  - unfold str. symmetry. apply string_of_list_ascii_of_string.
  - apply Nat.eqb_eq. assumption.
  - assumption.
  - destruct (RefHost.digits_val 0 _) as [v|]; [|discriminate].
    apply Z.eqb_eq in H3. congruence.
Qed.

Lemma two_digit_chars n :
  0 <= n <= 99 ->
  exists a b, padStart2 (Z_to_string n) = str [a; b]
              /\ is_digit a = true /\ is_digit b = true
              /\ RefHost.digits_val 0 [a; b] = Some n.
Proof.
  intros H. apply two_digit_text, digits_ok_list in H as (l & -> & Hl & Hd & Hv).
  destruct l as [|a [|b [|? ?]]]; try discriminate Hl.
  simpl in Hd. apply andb_prop in Hd as [Ha Hb]. apply andb_prop in Hb as [Hb _].
  exists a, b. auto.
Qed.

Lemma four_digit_chars n :
  1000 <= n <= 9999 ->
  exists a b c d, Z_to_string n = str [a; b; c; d]
                  /\ forallb is_digit [a; b; c; d] = true
                  /\ RefHost.digits_val 0 [a; b; c; d] = Some n.
Proof.
  intros H. apply four_digit_text, digits_ok_list in H as (l & -> & Hl & Hd & Hv).
  destruct l as [|a [|b [|c [|d [|? ?]]]]]; try discriminate Hl.
  exists a, b, c, d. auto.
Qed.

Section WithHost.
Context {host : JsHost}.

Lemma civil_of_instant y m d ms :
  valid_date y m d -> 0 <= ms < DAY ->
  civil_from_days (local_day (instant y m d ms)) = (y, m, d).
Proof.
  intros [Hm Hd] H. rewrite local_day_instant by assumption.
  apply civil_roundtrip; assumption.
Qed.

(** The text shown for a date: month, day and year of the local day, the
    first two on two digits. *)
Lemma format_instant y m d ms :
  valid_date y m d -> 0 <= ms < DAY ->
  OperatorView.formatDateToMMDDYYYY (Some (Num (instant y m d ms)))
  = padStart2 (Z_to_string m) +:+ "/" +:+ padStart2 (Z_to_string d) +:+ "/"
      +:+ Z_to_string y.
Proof.
  intros V H. unfold OperatorView.formatDateToMMDDYYYY, getMonth, getDate,
    getFullYear, local_field.
  rewrite (civil_of_instant _ _ _ _ V H). simpl.
  replace (m - 1 + 1) with m by lia. reflexivity.
Qed.

Lemma parse_slash_digits (a b c d e f g h : ascii) :
  forallb is_digit [a; b; c; d; e; f; g; h] = true ->
  OperatorView.parseMaybeDate (str [a; b; "/"%char; c; d; "/"%char; e; f; g; h])
  = Some (new_Date (str [e; f; g; h; "-"%char; a; b; "-"%char; c; d] +:+ "T00:00:00")).
Proof.
  intros H. simpl in H.
  repeat match goal with
         | H : _ && _ = true |- _ => apply andb_prop in H; destruct H
         end.
  unfold OperatorView.parseMaybeDate, match_mdy, str.
  rewrite list_ascii_of_string_of_list_ascii. simpl.
  repeat match goal with
         | H : is_digit _ = true |- _ => rewrite H; clear H
         end.
  reflexivity.
Qed.

(** A date shown by [formatDateToMMDDYYYY] reads back, through
    [parseMaybeDate], as the local midnight of the same day, for years of four
    digits on a host that reads the local date-time text; showing that date
    again gives the same text. *)
Theorem format_parse_roundtrip (y m d ms : Z) :
  reads_local_iso host -> valid_date y m d -> 1000 <= y <= 9999 ->
  0 <= ms < DAY ->
  let shown := OperatorView.formatDateToMMDDYYYY (Some (Num (instant y m d ms))) in
  OperatorView.parseMaybeDate shown = Some (Num (instant y m d 0))
  /\ OperatorView.shown_term shown = shown.
Proof.
  intros Hhost V Hy Hms shown.
  assert (OperatorView.parseMaybeDate shown = Some (Num (instant y m d 0))) as E.
  { subst shown. rewrite format_instant by assumption.
    destruct V as [Vm Vd].
    assert (d <= 31) as Hd31.
    { unfold days_in_month in Vd.
      repeat match type of Vd with
             | context [if ?b then _ else _] => destruct b
             end; lia. }
    destruct (two_digit_chars m ltac:(lia)) as (a & b & Em & Ha & Hb & _).
    destruct (two_digit_chars d ltac:(lia)) as (c & d' & Ed & Hc & Hd & _).
    destruct (four_digit_chars y Hy) as (e & f & g & h & Ey & Hyd & _).
    pose proof (Hhost y m d (conj Vm Vd) Hy) as P.
    unfold iso_text in P. rewrite Em, Ed, Ey in P |- *.
    change (str [a; b] +:+ "/" +:+ str [c; d'] +:+ "/" +:+ str [e; f; g; h])
      with (str [a; b; "/"%char; c; d'; "/"%char; e; f; g; h]).
    rewrite parse_slash_digits.
    - unfold new_Date. f_equal. exact P.
    - simpl in Hyd |- *. rewrite Ha, Hb, Hc, Hd. exact Hyd. }
  split; [exact E|].
  unfold OperatorView.shown_term. rewrite E. subst shown.
  rewrite !format_instant by (try assumption; unfold DAY; lia). reflexivity.
Qed.

End WithHost.

(** The reference browser reads the local date-time text. *)
Lemma ref_host_reads_local_iso tz : reads_local_iso (RefHost.at_offset tz).
Proof.
  intros y m d [Vm Vd] Hy.
  assert (d <= 31) as Hd31.
  { unfold days_in_month in Vd.
    repeat match type of Vd with
           | context [if ?b then _ else _] => destruct b
           end; lia. }
  destruct (two_digit_chars m ltac:(lia)) as (a & b & Em & _ & _ & Vm').
  destruct (two_digit_chars d ltac:(lia)) as (c & d' & Ed & _ & _ & Vd').
  destruct (four_digit_chars y Hy) as (e & f & g & h & Ey & _ & Vy').
  unfold iso_text. rewrite Em, Ed, Ey.
  change (@Date_parse (RefHost.at_offset tz)) with (RefHost.parse tz).
  unfold RefHost.parse.
  change (list_ascii_of_string
            (str [e; f; g; h] +:+ "-" +:+ str [a; b] +:+ "-" +:+ str [c; d']
               +:+ "T00:00:00"))
    with (list_ascii_of_string
            (str ([e; f; g; h; "-"; a; b; "-"; c; d'; "T"; "0"; "0"; ":"; "0"; "0";
                   ":"; "0"; "0"])%char)).
  unfold str. rewrite list_ascii_of_string_of_list_ascii.
  cbv beta iota.
  change (is_hyphen "-") with true. change (RefHost.is_T "T") with true.
  change (RefHost.is_colon ":") with true. cbv beta iota delta [andb].
  unfold RefHost.fields. rewrite Vy', Vm', Vd'.
  change (RefHost.digits_val 0 ["0"%char; "0"%char]) with (Some 0).
  cbv beta iota. unfold RefHost.civil_time.
  replace ((1 <=? m) && (m <=? 12) && (1 <=? d) && (d <=? days_in_month y m)
           && (0 <=? 23) && (0 <=? 59) && (0 <=? 59)) with true.
  - unfold instant. f_equal. simpl tzOffset. lia.
  - symmetry. repeat (apply andb_true_intro; split); try reflexivity;
      apply Z.leb_le; lia.
Qed.

Lemma format_parse_roundtrip_witness :
  let shown :=
    OperatorView.formatDateToMMDDYYYY (host := RefHost.utc_minus_5)
      (Some (Num (instant (host := RefHost.utc_minus_5) 2024 3 4 (9 * 3600000)))) in
  shown = "03/04/2024"%string
  /\ OperatorView.parseMaybeDate (host := RefHost.utc_minus_5) shown
     = Some (Num (instant (host := RefHost.utc_minus_5) 2024 3 4 0)).
Proof.
  intros shown.
  destruct (format_parse_roundtrip (host := RefHost.utc_minus_5) 2024 3 4
              (9 * 3600000)) as [H _].
  - apply ref_host_reads_local_iso.
  - vm_compute. repeat split; discriminate.
  - lia.
  - vm_compute. split; [discriminate|reflexivity].
  - split; [reflexivity|exact H].
Defined.

End FormatParse.

(** ** Years before 1000 *)

Section EarlyYears.
Context {host : JsHost}.

Lemma here_short p l : (length l < 10)%nat -> Pattern.here p l = None.
Proof.
  intros H. destruct p; simpl; unfold mdy_here, ymd_here;
    repeat (destruct l as [|? l]; [reflexivity|]); simpl in H; lia.
Qed.

Lemma scan_short p l : forall pw,
  (length l < 10)%nat -> scan (Pattern.here p) pw l = None.
Proof.
  induction l as [|c r IH]; intros pw H; [reflexivity|].
  simpl. rewrite (here_short p (c :: r) H).
  replace (if pw then None else None) with (@None Pattern.groups)
    by (destruct pw; reflexivity).
  apply IH. simpl in H. lia.
Qed.

Lemma length_list_ascii s : length (list_ascii_of_string s) = String.length s.
Proof. induction s as [|c s IH]; simpl; [reflexivity|]. rewrite IH. reflexivity. Qed.

Lemma padStart2_length n :
  0 <= n <= 99 -> String.length (padStart2 (Z_to_string n)) = 2%nat.
Proof.
  intros H. destruct (two_digit_chars n H) as (a & b & -> & _). reflexivity.
Qed.

(** A date of a year below 1000 is shown with fewer than four digits of
    year: the text shown matches neither pattern, and reading it again is
    left to the generic parser of the host. *)
Theorem shown_early_year (y m d ms : Z) :
  valid_date y m d -> 0 <= y <= 999 -> 0 <= ms < DAY ->
  let shown := OperatorView.formatDateToMMDDYYYY (Some (Num (instant y m d ms))) in
  (String.length shown < 10)%nat
  /\ match_mdy shown = None
  /\ match_ymd shown = None
  /\ OperatorView.parseMaybeDate shown
     = match Date_parse shown with
       | NaN => None
       | Num t => Some (Num t)
       end.
Proof.
  intros V Hy Hms shown.
  assert (String.length shown < 10)%nat as L.
  { subst shown. rewrite format_instant by assumption.
    destruct V as [Vm Vd].
    assert (d <= 31) as Hd31.
    { unfold days_in_month in Vd.
      repeat match type of Vd with
             | context [if ?b then _ else _] => destruct b
             end; lia. }
    rewrite !length_append, !padStart2_length by lia.
    pose proof (short_year_text y Hy). simpl. lia. }
  assert (match_mdy shown = None) as E1.
  { apply (scan_short Pattern.Slash). rewrite length_list_ascii. exact L. }
  assert (match_ymd shown = None) as E2.
  { apply (scan_short Pattern.Iso). rewrite length_list_ascii. exact L. }
  repeat split; try assumption.
  unfold OperatorView.parseMaybeDate. rewrite E1, E2.
  destruct (truthy shown) eqn:T; simpl; [reflexivity|].
  apply truthy_false in T. subst shown.
  rewrite format_instant in T by assumption.
  destruct (padStart2 (Z_to_string m)); discriminate T.
Qed.

End EarlyYears.

(** The first of January of the year 1, read from the text 01/01/0001,
    is shown as 01/01/1, which the reference browser does not read. *)
Lemma shown_early_year_witness :
  let shown := OperatorView.shown_term (host := RefHost.utc) "01/01/0001" in
  shown = "01/01/1"%string
  /\ OperatorView.parseMaybeDate (host := RefHost.utc) shown = None.
Proof.
  intros shown.
  destruct (shown_early_year (host := RefHost.utc) 1 1 1 0) as (_ & _ & _ & H).
  - vm_compute. repeat split; discriminate.
  - lia.
  - vm_compute. split; [discriminate|reflexivity].
  - split; [reflexivity|]. exact H.
Defined.

(** ** Days between two dates *)

Section DaysBetween.



End DaysBetween.


(** ** The policy page: header row and operator box *)

Section PageTerms.
Import PolicyView.

Lemma has_terms_same o : has_terms o = has_terms' o.
Proof. unfold has_terms, has_terms'. apply orb_comm. Qed.

Lemma find_has_terms ops : List.find has_terms ops = List.find has_terms' ops.
Proof.
  induction ops as [|o ops IH]; simpl; [reflexivity|].
  rewrite has_terms_same, IH. reflexivity.
Qed.

Lemma chosenOp_alt report policy :
  chosenOp report policy
  = match matchingOp report policy with
    | Some o => if has_terms' o then Some o
                else List.find has_terms' (operators policy)
    | None => List.find has_terms' (operators policy)
    end.
Proof.
  unfold chosenOp, matchingOp, mainOp.
  destruct (find_by_dln _ _) as [o|]; rewrite ?has_terms_same, find_has_terms;
    reflexivity.
Qed.

Lemma displayTerms_chosen report policy :
  displayTerms report policy
  = match chosenOp report policy with
    | Some o => (or_else (start_term o) dash, or_else (end_term o) dash)
    | None =>
        (or_else (effective_date (header policy)) dash,
         or_else (expiry_date (header policy))
           (or_else (cancellation_date (header policy)) dash))
    end.
Proof.
  rewrite chosenOp_alt. unfold displayTerms.
  destruct (matchingOp report policy) as [o|]; [destruct (has_terms' o)|];
    try reflexivity;
    destruct (List.find has_terms' (operators policy)); reflexivity.
Qed.

(** The two places of the policy page that show the terms choose the same
    operator.  Whenever the operator box shows a start (an end) term, the
    header row shows the same text.  They part only where the chosen
    operator lacks that term: the box shows the em-dash, the header row
    falls back to the dates of the policy. *)
Theorem page_terms_agree (report : Report) (policy : Policy) :
  (displayStartTerm report policy = dash
   \/ displayStartTerm report policy = startEarliest report policy)
  /\ (displayEndTerm report policy = dash
      \/ displayEndTerm report policy = endLatest report policy)
  /\ (forall o, chosenOp report policy = Some o ->
        (start_term o = EmptyString ->
         displayStartTerm report policy = dash
         /\ startEarliest report policy
            = or_else (effective_date (header policy)) dash)
        /\ (end_term o = EmptyString ->
            displayEndTerm report policy = dash
            /\ endLatest report policy
               = or_else (expiry_date (header policy))
                   (or_else (cancellation_date (header policy)) dash))).
Proof.
  unfold displayStartTerm, displayEndTerm, startEarliest, endLatest.
  rewrite displayTerms_chosen.
  destruct (chosenOp report policy) as [o|]; simpl.
  - split; [|split].
    + unfold or_else. destruct (truthy (start_term o));
        [right|left]; reflexivity.
    + unfold or_else at 1 2. destruct (truthy (end_term o));
        [right|left]; reflexivity.
    + intros o' [= <-]. split; intros E; rewrite E; split; reflexivity.
  - split; [right; reflexivity|]. split; [right; reflexivity|].
    intros o [=].
Qed.

End PageTerms.

(** ** The licence number on the two pages *)

(** The two pages find the same operator for the driver's licence number
    whenever the number is there and neither it nor the licence numbers of
    the operators carry blanks at either end.  The licence numbers are
    ASCII texts: there the white space that [trim] takes off is the white
    space of the browser. *)
Theorem licence_match_agrees (report : Report) (policy : Policy) :
  ascii_text (driver_dln (report_header report)) ->
  Forall (fun o => ascii_text (dln o)) (operators policy) ->
  driver_dln (report_header report) <> EmptyString ->
  trim (driver_dln (report_header report)) = driver_dln (report_header report) ->
  Forall (fun o => trim (dln o) = dln o) (operators policy) ->
  OperatorView.dlnMatchedOp (operators policy) (driver_dln (report_header report))
  = PolicyView.mainOp report policy.
Proof.
  intros _ _ Hne Ht Hops. unfold OperatorView.dlnMatchedOp, PolicyView.mainOp,
    PolicyView.mainDriverDln.
  apply truthy_true in Hne. rewrite Hne, find_by_dln_find, or_else_empty, Ht.
  induction Hops as [|o ops Ho _ IH]; simpl; [reflexivity|].
  rewrite Ho, IH. reflexivity.
Qed.

Lemma licence_match_agrees_witness :
  let p := Sample.policy
             (Sample.header_of "Jane Doe" "01/01/2022" "01/01/2023" EmptyString)
             [Sample.unlicensed; Sample.jane] EmptyString in
  OperatorView.dlnMatchedOp (operators p) "D1234-56789" = Some Sample.jane
  /\ PolicyView.mainOp (Sample.report "D1234-56789" [p]) p = Some Sample.jane.
Proof.
  intros p.
  pose proof (licence_match_agrees (Sample.report "D1234-56789" [p]) p) as H.
  split; [reflexivity|].
  rewrite <- H; [reflexivity|reflexivity| |discriminate|reflexivity|];
    repeat constructor.
Defined.

(** ** The days to expiry where the clocks change *)

Section ZoneExpiry.
Context {host : JsHost} {zone : JsZone}.
Import OperatorView.

Lemma ceil_days k r :
  - DAY < r < DAY ->
  - ((- (k * DAY + r)) / (1000 * 60 * 60 * 24)) = k + (if 0 <? r then 1 else 0).
Proof.
  intros H. change (1000 * 60 * 60 * 24) with DAY.
  assert (0 < DAY) as P by (unfold DAY; lia).
  destruct (0 <? r) eqn:E.
  - apply Z.ltb_lt in E.
    replace (- (k * DAY + r)) with ((- k - 1) * DAY + (DAY - r)) by lia.
    rewrite Z.div_add_l by lia. rewrite Z.div_small by lia. lia.
  - apply Z.ltb_ge in E.
    replace (- (k * DAY + r)) with ((- k) * DAY + (- r)) by lia.
    rewrite Z.div_add_l by lia. rewrite Z.div_small by lia. lia.
Qed.

Lemma days_to_expiry_zone s now e :
  Date_parse s = Num e ->
  - DAY < LocalTZA (Zoned.local_day now * DAY) false
          - LocalTZA (Zoned.local_day e * DAY) false < DAY ->
  OperatorView.InZone.days_to_expiry s now
  = Num (Zoned.local_day e - Zoned.local_day now
         + (if LocalTZA (Zoned.local_day e * DAY) false
               <? LocalTZA (Zoned.local_day now * DAY) false
            then 1 else 0)).
Proof.
  intros Hp Hr. unfold OperatorView.InZone.days_to_expiry, new_Date. rewrite Hp.
  unfold Zoned.setHours0, Zoned.UTC, num_sub, ceil_div. f_equal.
  set (De := Zoned.local_day e) in *. set (Dn := Zoned.local_day now) in *.
  set (oe := LocalTZA (De * DAY) false) in *.
  set (on := LocalTZA (Dn * DAY) false) in *.
  replace (De * DAY - oe - (Dn * DAY - on)) with ((De - Dn) * DAY + (on - oe)) by lia.
  rewrite ceil_days by assumption.
  replace (0 <? on - oe) with (oe <? on); [reflexivity|].
  destruct (Z.ltb_spec oe on), (Z.ltb_spec 0 (on - oe)); first [reflexivity|lia].
Qed.

(** The day count in any zone.  For an expiry the host reads, the count is
    the number of calendar days from today to the expiry, both taken in
    local time, plus one when the offset at the midnight of the expiry is
    smaller than at the midnight of today (the clocks were set back in
    between); the class follows [< 0], [0..30], [> 30] on that count and
    the text is the count, clamped at 0.  Where the offset does not change
    between the two midnights the count is the number of calendar days; in
    the zone of the host, with its one offset, these are the lines of
    [renderReport] as above. *)
Theorem days_to_expiry_in_zone (expiry : string) (now e : Z) (el : Element) :
  truthy expiry = true -> expiry <> dash -> Date_parse expiry = Num e ->
  let De := Zoned.local_day e in
  let Dn := Zoned.local_day now in
  let oe := LocalTZA (De * DAY) false in
  let on := LocalTZA (Dn * DAY) false in
  - DAY < on - oe < DAY ->
  let d := De - Dn + (if oe <? on then 1 else 0) in
  OperatorView.InZone.render_days_to_expiry expiry now el
  = (Some (Num d),
     {| textContent := Z_to_string (Z.max 0 d);
        classList :=
          classList_add (Spec.class_name (Spec.classify d))
            (classList_remove ["expired"; "warning"; "ok"]%string (classList el)) |})
  /\ (forall text t el',
        OperatorView.InZone.render_days_to_expiry (zone := fixed_zone host) text t el'
        = render_days_to_expiry text t el').
Proof.
  intros Ht Hd Hp De Dn oe on Hr d. split; [|reflexivity].
  unfold OperatorView.InZone.render_days_to_expiry. rewrite Ht.
  apply String.eqb_neq in Hd. rewrite Hd. cbn [negb andb]. cbv zeta.
  rewrite (days_to_expiry_zone expiry now e Hp Hr).
  fold De Dn oe on d. unfold Math_max, num_to_string, num_ltb, num_leb, Spec.classify.
  f_equal. f_equal.
  destruct (d <? 0); [reflexivity|]. destruct (d <=? 30); reflexivity.
Qed.

Lemma local_day_utc_midnight D :
  - DAY < LocalTZA (D * DAY) true < 0 -> Zoned.local_day (D * DAY) = D - 1.
Proof.
  intros H. unfold Zoned.local_day, Zoned.LocalTime. symmetry.
  apply (Z.div_unique _ _ (D - 1) (LocalTZA (D * DAY) true + DAY)); lia.
Qed.

(** Where local time is behind UTC, an expiry that the host reads as a
    midnight UTC (the reading the standard gives to a date written
    year-month-day alone) falls on the evening before in local time.  Seen
    on the day of the expiry, the policy counts as expired since yesterday:
    the count is -1 and the element shows 0.  On the day after the clocks
    went forward the difference is an hour short of a day: the count is 0
    (the page computes -0, which shows and compares as 0) and the element
    gets the class of a warning. *)
Theorem utc_midnight_expiry_west (expiry : string) (now : Z) (el : Element) (D : Z) :
  truthy expiry = true -> expiry <> dash ->
  Date_parse expiry = Num (D * DAY) ->
  - DAY < LocalTZA (D * DAY) true < 0 ->
  Zoned.local_day now = D ->
  let before := LocalTZA ((D - 1) * DAY) false in
  let today := LocalTZA (D * DAY) false in
  - DAY < today - before < DAY ->
  let r := OperatorView.InZone.render_days_to_expiry expiry now el in
  textContent (snd r) = "0"%string
  /\ (today <= before ->
      fst r = Some (Num (-1)) /\ In "expired"%string (classList (snd r)))
  /\ (before < today ->
      fst r = Some (Num 0) /\ In "warning"%string (classList (snd r))).
Proof.
  intros Ht Hd Hp Hw Hn before today Hr r. subst r.
  unfold OperatorView.InZone.render_days_to_expiry. rewrite Ht.
  apply String.eqb_neq in Hd. rewrite Hd. cbn [negb andb]. cbv zeta.
  rewrite (days_to_expiry_zone expiry now (D * DAY) Hp);
    rewrite (local_day_utc_midnight D Hw), Hn; fold before today; [|exact Hr].
  cbn [fst snd textContent classList].
  destruct (Z.ltb_spec before today) as [L|L].
  - replace (D - 1 - D + 1) with 0 by lia. split; [reflexivity|]. split; [lia|].
    intros _. split; [reflexivity|]. apply classList_add_In.
  - replace (D - 1 - D + 0) with (-1) by lia. split; [reflexivity|].
    split; [|lia]. intros _. split; [reflexivity|]. apply classList_add_In.
Qed.

End ZoneExpiry.

Section Toronto.
Import OperatorView.

(** Toronto, the 20th of October 2024 at noon, a policy that ends on the
    4th of November: fifteen days ahead on the calendar, sixteen on the
    page, the clocks going back in between. *)
Lemma days_to_expiry_in_zone_witness :
  OperatorView.InZone.render_days_to_expiry (host := RefHost.utc_minus_5)
    (zone := RefHost.toronto_2024) "11/04/2024"
    (days_from_civil 2024 10 20 * DAY + 16 * RefHost.hour) Sample.element
  = (Some (Num 16),
     {| textContent := "16"; classList := ["warning"%string] |}).
Proof.
  destruct (days_to_expiry_in_zone (host := RefHost.utc_minus_5)
              (zone := RefHost.toronto_2024) "11/04/2024"
              (days_from_civil 2024 10 20 * DAY + 16 * RefHost.hour)
              (days_from_civil 2024 11 4 * DAY + 5 * RefHost.hour) Sample.element)
    as [H _]; [reflexivity|discriminate|reflexivity| |exact H].
  vm_compute. split; reflexivity.
Defined.

(** Toronto at noon, a policy that expires on the day: the 15th of June,
    and the 11th of March, the day after the clocks went forward. *)
Lemma utc_midnight_expiry_west_witness :
  let render expiry now :=
    OperatorView.InZone.render_days_to_expiry (host := RefHost.utc_minus_5)
      (zone := RefHost.toronto_2024) expiry now Sample.element in
  let june := render "2024-06-15"%string Sample.noon in
  let march :=
    render "2024-03-11"%string (days_from_civil 2024 3 11 * DAY + 16 * RefHost.hour) in
  (fst june = Some (Num (-1)) /\ In "expired"%string (classList (snd june)))
  /\ (fst march = Some (Num 0) /\ In "warning"%string (classList (snd march))).
Proof.
  intros render june march. split.
  - destruct (utc_midnight_expiry_west (host := RefHost.utc_minus_5)
                (zone := RefHost.toronto_2024) "2024-06-15" Sample.noon
                Sample.element (days_from_civil 2024 6 15))
      as (_ & H & _);
      [reflexivity|discriminate|reflexivity|vm_compute; split; reflexivity
      |reflexivity|vm_compute; split; reflexivity|].
    apply H. vm_compute. discriminate.
  - destruct (utc_midnight_expiry_west (host := RefHost.utc_minus_5)
                (zone := RefHost.toronto_2024) "2024-03-11"
                (days_from_civil 2024 3 11 * DAY + 16 * RefHost.hour)
                Sample.element (days_from_civil 2024 3 11))
      as (_ & _ & H);
      [reflexivity|discriminate|reflexivity|vm_compute; split; reflexivity
      |reflexivity|vm_compute; split; reflexivity|].
    apply H. vm_compute. reflexivity.
Defined.

End Toronto.

(** ** More on the days to expiry *)

Section ExpiryMore.
Context {host : JsHost}.
Import OperatorView.

Lemma removed_absent c names cl :
  In c names -> existsb (String.eqb c) (classList_remove names cl) = false.
Proof.
  intros Hc. unfold classList_remove.
  induction cl as [|x cl IH]; simpl; [reflexivity|].
  destruct (existsb (String.eqb x) names) eqn:E; simpl; [exact IH|].
  rewrite IH, orb_false_r. apply String.eqb_neq. intros ->.
  assert (existsb (String.eqb x) names = true) as E'
    by (apply existsb_exists; exists x; split; [assumption|apply String.eqb_refl]).
  congruence.
Qed.

Lemma status_added c cl :
  In c ["expired"; "warning"; "ok"]%string ->
  classList_add c (classList_remove ["expired"; "warning"; "ok"]%string cl)
  = classList_remove ["expired"; "warning"; "ok"]%string cl ++ [c].
Proof.
  intros H. unfold classList_add. rewrite removed_absent by assumption.
  reflexivity.
Qed.

(** What a rendering does to the classes of the days element.  With an
    expiry text, the three status classes are taken off, the other classes
    stay in their order, and exactly one status class is put at the end.
    Without one, the text becomes the em-dash and the classes stay as they
    were: the status class of the report shown before remains. *)
Theorem days_status_class (rep : Report) (now : Z) (el : Element) :
  let r := renderReport rep now el in
  let status := ["expired"; "warning"; "ok"]%string in
  (current_policy_expiry (policies rep) <> dash ->
   exists c, In c status
             /\ classList (daysEl r) = classList_remove status (classList el) ++ [c])
  /\ (current_policy_expiry (policies rep) = dash ->
      textContent (daysEl r) = dash /\ classList (daysEl r) = classList el).
Proof.
  intros r status. subst r. unfold renderReport. split.
  - intros Hd.
    rewrite render_shown; [|exact Hd|apply current_policy_expiry_truthy].
    cbv zeta. simpl daysEl. simpl classList.
    destruct (num_ltb _ _); [exists "expired"%string|
      destruct (num_leb _ _); [exists "warning"%string|exists "ok"%string]];
      (split; [simpl; auto|apply status_added; simpl; auto]).
  - intros Hd. rewrite Hd. split; reflexivity.
Qed.

End ExpiryMore.

(** An expired policy, then a report without policies, over the same
    element. *)
Lemma days_status_class_witness :
  let expired :=
    Sample.report "D1"
      [Sample.policy
         (Sample.header_of "Jane Doe" "06/01/2023" "06/01/2024" EmptyString)
         [] EmptyString] in
  let el := {| OperatorView.textContent := EmptyString;
               OperatorView.classList := ["ok"; "days"]%string |} in
  let r1 := OperatorView.renderReport (host := RefHost.utc) expired Sample.noon el in
  let r2 := OperatorView.renderReport (host := RefHost.utc) (Sample.report "D1" [])
              Sample.noon (OperatorView.daysEl r1) in
  OperatorView.classList (OperatorView.daysEl r1) = ["days"; "expired"]%string
  /\ OperatorView.textContent (OperatorView.daysEl r2) = dash
  /\ OperatorView.classList (OperatorView.daysEl r2)
     = OperatorView.classList (OperatorView.daysEl r1).
Proof.
  intros expired el r1 r2.
  destruct (days_status_class (host := RefHost.utc) (Sample.report "D1" [])
              Sample.noon (OperatorView.daysEl r1)) as [_ H].
  destruct (H eq_refl) as [H1 H2].
  split; [reflexivity|]. split; [exact H1|exact H2].
Defined.

(** ** The address line *)

Section Address.
Import OperatorView.



















End Address.


(** ** The pieces of an address *)

Section AddressParts.
Import OperatorView.










Lemma skip_spaces_split l :
  exists ws, l = ws ++ skip_spaces l /\ forallb is_space ws = true.
Proof.
  induction l as [|c l (ws & E & H)]; [exists []; split; reflexivity|].
  simpl. destruct (is_space c) eqn:Ec.
  - exists (c :: ws). split; [simpl; f_equal; exact E|].
    simpl. rewrite Ec. exact H.
  - exists []. split; reflexivity.
Qed.

Lemma skip_spaces_app ws c cs :
  forallb is_space ws = true -> is_space c = false ->
  skip_spaces (ws ++ c :: cs) = c :: cs.
Proof.
  intros H Hc. induction ws as [|w ws IH]; simpl.
  - rewrite Hc. reflexivity.
  - simpl in H. apply andb_prop in H as [Hw H]. rewrite Hw. apply IH, H.
Qed.

Lemma letter_or_digit_not_space c :
  is_letter_or_digit c = true -> is_space c = false.
Proof.
  destruct c as [[] [] [] [] [] [] [] []]; intros H;
    first [discriminate H | reflexivity].
Qed.

(** A last piece written in ASCII is taken for a province and a postal code
    exactly when it reads: two letters, white space, six letters or digits,
    and nothing else.  The two groups are the letters and the six
    characters.  (Outside ASCII the pattern also takes the other white
    space of the browser between the two, which [is_space] does not
    cover.) *)
Theorem postalCodeMatch_shape (lastPart province postal : string) :
  ascii_text lastPart ->
  (postalCodeMatch lastPart = Some (province, postal)
   <-> exists a b ws cs,
         list_ascii_of_string lastPart = a :: b :: ws ++ cs
         /\ is_letter a = true /\ is_letter b = true
         /\ ws <> [] /\ forallb is_space ws = true
         /\ length cs = 6%nat /\ forallb is_letter_or_digit cs = true
         /\ province = str [a; b] /\ postal = str cs).
Proof.
  intros _. unfold postalCodeMatch. split.
  - destruct (list_ascii_of_string lastPart) as [|a [|b [|w rest]]];
      try discriminate.
    destruct (is_letter a && is_letter b && is_space w) eqn:E; [|discriminate].
    apply andb_prop in E as [E Hw]. apply andb_prop in E as [Ha Hb].
    destruct (skip_spaces_split rest) as (ws & Er & Hws).
    destruct (skip_spaces rest) as [|c1 [|c2 [|c3 [|c4 [|c5 [|c6 [|? ?]]]]]]];
      try discriminate.
    destruct (forallb is_letter_or_digit [c1; c2; c3; c4; c5; c6]) eqn:Ec;
      [|discriminate].
    intros [= <- <-].
    exists a, b, (w :: ws), [c1; c2; c3; c4; c5; c6].
    repeat split; try assumption.
    + simpl. rewrite Er at 1. reflexivity.
    + discriminate.
    + simpl. rewrite Hw. exact Hws.
  - intros (a & b & ws & cs & -> & Ha & Hb & Hne & Hws & Hl & Hcs & -> & ->).
    destruct ws as [|w ws]; [congruence|].
    simpl in Hws. apply andb_prop in Hws as [Hw Hws].
    destruct cs as [|c1 [|c2 [|c3 [|c4 [|c5 [|c6 [|? ?]]]]]]];
      try discriminate Hl.
    simpl app. rewrite Ha, Hb, Hw. simpl andb.
    rewrite skip_spaces_app.
    + rewrite Hcs. reflexivity.
    + exact Hws.
    + simpl in Hcs. apply andb_prop in Hcs as [H1 _].
      apply letter_or_digit_not_space. exact H1.
Qed.

End AddressParts.


(** Two blanks between the province and the postal code, in small
    letters. *)
Lemma postalCodeMatch_shape_witness :
  OperatorView.postalCodeMatch "on  m9v2j5" = Some ("on", "m9v2j5")%string.
Proof.
  apply (postalCodeMatch_shape "on  m9v2j5" "on" "m9v2j5"); [reflexivity|].
  exists "o"%char, "n"%char, [" "; " "]%char, ["m"; "9"; "v"; "2"; "j"; "5"]%char.
  repeat split. discriminate.
Defined.

(** A postal code written with a blank in the middle is not recognised; the
    case of the letters does not matter. *)
Example postal_code_forms :
  OperatorView.postalCodeMatch "ON M9V 2J5" = None
  /\ OperatorView.postalCodeMatch "on  m9v2j5" = Some ("on", "m9v2j5")%string
  /\ OperatorView.postalCodeMatch "Ontario M9V2J5" = None.
Proof. repeat split. Qed.

(** ** The years licensed *)

Section YearsLicensedFacts.
Context {host : JsHost}.
Import OperatorView.

Lemma days_linear y m d : days_from_civil y m 1 + d - 1 = days_from_civil y m d.
Proof. unfold days_from_civil. cbv zeta. lia. Qed.

Lemma march_first y :
  is_leap y = false -> days_from_civil y 2 29 = days_from_civil y 3 1.
Proof.
  unfold is_leap, days_from_civil. simpl.
  intros H. apply orb_false_iff in H as [H1 H2].
  apply Z.eqb_neq in H2. apply andb_false_iff in H1.
  assert (y mod 4 <> 0 \/ y mod 100 = 0) as H1'.
  { destruct H1 as [H1|H1]; [left; apply Z.eqb_neq; exact H1|].
    right. apply negb_false_iff in H1. apply Z.eqb_eq. exact H1. }
  clear H1. Z.div_mod_to_equations. lia.
Qed.

Lemma new_Date_ymd_instant y m d :
  y < 0 \/ 99 < y -> 1 <= m <= 12 ->
  new_Date_ymd (Num y) (Num (m - 1)) (Num d)
  = Num (instant y m d 0).
Proof.
  intros Hy Hm. unfold new_Date_ymd, instant.
  replace ((0 <=? y) && (y <=? 99)) with false
    by (symmetry; apply andb_false_iff;
        destruct Hy; [left; apply Z.leb_gt|right; apply Z.leb_gt]; lia).
  replace ((m - 1) / 12) with 0 by (symmetry; apply Z.div_small; lia).
  replace ((m - 1) mod 12) with (m - 1) by (symmetry; apply Z.mod_small; lia).
  replace (m - 1 + 1) with m by lia. replace (y + 0) with y by lia.
  rewrite days_linear. f_equal. lia.
Qed.

Lemma date_fields y m d ms :
  valid_date y m d -> 0 <= ms < DAY ->
  getFullYear (Num (instant y m d ms)) = Num y
  /\ getMonth (Num (instant y m d ms)) = Num (m - 1)
  /\ getDate (Num (instant y m d ms)) = Num d.
Proof.
  intros V H. unfold getFullYear, getMonth, getDate, local_field.
  rewrite (civil_of_instant y m d ms V H). repeat split.
Qed.

Lemma since_text n y m d :
  valid_date y m d ->
  (let licenseDate := Num (instant y m d 0) in
   Z_to_string n +:+ " years (since "
   +:+ (padStart2 (num_to_string (num_add (getMonth licenseDate) (Num 1)))
        +:+ "/" +:+ padStart2 (num_to_string (getDate licenseDate))
        +:+ "/" +:+ num_to_string (getFullYear licenseDate)) +:+ ")")
  = Z_to_string n +:+ " years (since "
    +:+ (padStart2 (Z_to_string m) +:+ "/" +:+ padStart2 (Z_to_string d)
         +:+ "/" +:+ Z_to_string y) +:+ ")".
Proof.
  intros V. cbv zeta. unfold getMonth, getDate, getFullYear, local_field.
  rewrite (civil_of_instant y m d 0 V) by (unfold DAY; lia). simpl.
  replace (m - 1 + 1) with m by lia. reflexivity.
Qed.

(** The date since which the driver is licensed is today's month and day,
    the given number of years back; when today is the 29th of February and
    that year is not a leap year, it is the first of March.  (For a year
    outside 0..99, which the [Date] constructor reads as 19xx.)  Without a
    number of years the element shows the em-dash. *)
Theorem years_licensed_since (Y M D ms N : Z) :
  valid_date Y M D -> 0 <= ms < DAY -> N <> 0 -> Y - N < 0 \/ 99 < Y - N ->
  (valid_date (Y - N) M D ->
   yearsLicensed_text N (instant Y M D ms)
   = Z_to_string N +:+ " years (since "
     +:+ (padStart2 (Z_to_string M) +:+ "/" +:+ padStart2 (Z_to_string D)
          +:+ "/" +:+ Z_to_string (Y - N)) +:+ ")")
  /\ (M = 2 -> D = 29 -> is_leap (Y - N) = false ->
      yearsLicensed_text N (instant Y M D ms)
      = Z_to_string N +:+ " years (since "
        +:+ ("03/01/" +:+ Z_to_string (Y - N)) +:+ ")")
  /\ yearsLicensed_text 0 (instant Y M D ms) = dash.
Proof.
  intros V Hms HN Hy.
  assert (yearsLicensed_text N (instant Y M D ms)
          = let licenseDate := new_Date_ymd (Num (Y - N)) (Num (M - 1)) (Num D) in
            Z_to_string N +:+ " years (since "
            +:+ (padStart2 (num_to_string (num_add (getMonth licenseDate) (Num 1)))
                 +:+ "/" +:+ padStart2 (num_to_string (getDate licenseDate))
                 +:+ "/" +:+ num_to_string (getFullYear licenseDate)) +:+ ")") as E.
  { unfold yearsLicensed_text. apply Z.eqb_neq in HN. rewrite HN. cbv zeta.
    destruct (date_fields Y M D ms V Hms) as (-> & -> & ->). reflexivity. }
  destruct V as [VM VD].
  split; [|split].
  - intros V'. rewrite E, new_Date_ymd_instant by assumption.
    apply since_text. exact V'.
  - intros -> -> HL. rewrite E, new_Date_ymd_instant by lia.
    unfold instant. rewrite march_first by assumption.
    change (Num (days_from_civil (Y - N) 3 1 * DAY + 0 - tzOffset))
      with (Num (instant (Y - N) 3 1 0)).
    apply (since_text N (Y - N) 3 1).
    split; [lia|]. change (days_in_month (Y - N) 3) with 31. lia.
  - reflexivity.
Qed.

End YearsLicensedFacts.

(** Twelve years before the 15th of June 2024, and four years before the
    29th of February 2024. *)
Lemma years_licensed_since_witness :
  OperatorView.yearsLicensed_text (host := RefHost.utc_minus_5) 12
    (instant (host := RefHost.utc_minus_5) 2024 6 15 3600000)
  = "12 years (since 06/15/2012)"%string
  /\ OperatorView.yearsLicensed_text (host := RefHost.utc_minus_5) 5
       (instant (host := RefHost.utc_minus_5) 2024 2 29 3600000)
     = "5 years (since 03/01/2019)"%string.
Proof.
  split.
  - destruct (years_licensed_since (host := RefHost.utc_minus_5)
                2024 6 15 3600000 12) as (H & _);
      [vm_compute; repeat split; discriminate
      |vm_compute; split; [discriminate|reflexivity]
      |discriminate|right; lia|].
    rewrite H; [reflexivity|]. vm_compute. repeat split; discriminate.
  - destruct (years_licensed_since (host := RefHost.utc_minus_5)
                2024 2 29 3600000 5) as (_ & H & _);
      [vm_compute; repeat split; discriminate
      |vm_compute; split; [discriminate|reflexivity]
      |discriminate|right; lia|].
    rewrite H; reflexivity.
Defined.

(** * The lines of the policy list *)

Section ListView.
Import OperatorView.

(** ** The mark on a positive gap *)

Section GapHighlight.

Lemma of_uint_acc_value d : forall acc,
  Z.pos (Pos.of_uint_acc d acc) = uint_value (Z.pos acc) d.
Proof.
  induction d; intros acc; simpl; try reflexivity; rewrite IHd; f_equal; lia.
Qed.

Lemma of_uint_value d : Z.of_uint d = uint_value 0 d.
Proof.
  unfold Z.of_uint.
  induction d; simpl; try reflexivity; try (rewrite of_uint_acc_value; reflexivity).
  exact IHd.
Qed.

(** The digits of a decimal, followed by [rest], a text that starts with no
    digit. *)
Lemma digits_value_uint d rest : forall acc,
  starts_with_digit rest = false ->
  digits_value acc (NilEmpty.string_of_uint d +:+ rest) = uint_value acc d.
Proof.
  induction d; intros acc H;
    try (change (digits_value acc (String ?c (?x +:+ rest))) with
           (digits_value (acc * 10 + (Z.of_nat (nat_of_ascii c) - 48)) (x +:+ rest)));
    try (simpl; rewrite IHd by assumption; reflexivity).
  simpl. destruct rest as [|c r]; [reflexivity|]. simpl in H |- *. rewrite H. reflexivity.
Qed.

Lemma take_digits_uint d rest :
  starts_with_digit rest = false ->
  take_digits (NilEmpty.string_of_uint d +:+ rest) = NilEmpty.string_of_uint d.
Proof.
  intros H. induction d; simpl; try (f_equal; exact IHd).
  destruct rest as [|c r]; [reflexivity|]. simpl in H |- *. rewrite H. reflexivity.
Qed.

Lemma includes_days x : includes (x +:+ " days") "days" = true.
Proof.
  induction x as [|c x IH]; [reflexivity|].
  change (String c x +:+ " days") with (String c (x +:+ " days")).
  unfold includes; fold includes. rewrite IH. apply orb_true_r.
Qed.

Lemma uint_head d :
  d <> Decimal.Nil ->
  exists c r, NilEmpty.string_of_uint d = String c r /\ is_digit c = true.
Proof.
  destruct d; intros H; [congruence| | | | | | | | | |]; simpl; eauto.
Qed.

Lemma to_uint_value p :
  uint_value 0 (Pos.to_uint p) = Z.pos p.
Proof.
  rewrite <- of_uint_value. exact (DecimalZ.of_to (Z.pos p)).
Qed.

Lemma digits_value_end d :
  digits_value 0 (NilEmpty.string_of_uint d) = uint_value 0 d.
Proof.
  rewrite <- (digits_value_uint d EmptyString 0 eq_refl).
  f_equal. clear. induction (NilEmpty.string_of_uint d) as [|c x IH]; [reflexivity|].
  change (String c x = String c (x +:+ EmptyString)). f_equal. exact IH.
Qed.

Lemma dash_no_days : forall x, (x +:+ " days")%string <> dash.
Proof.
  intros x H. apply (f_equal (fun s => includes s "days")) in H.
  rewrite includes_days in H. discriminate H.
Qed.

Lemma digit_char c :
  is_digit c = true ->
  is_hyphen c = false /\ is_space c = false /\ Ascii.eqb c "+" = false.
Proof.
  intros H. destruct c as [[] [] [] [] [] [] [] []];
    first [discriminate H | repeat split].
Qed.

Lemma uint_text d :
  d <> Decimal.Nil -> NilZero.string_of_uint d = NilEmpty.string_of_uint d.
Proof. destruct d; intros H; [congruence| | | | | | | | | |]; reflexivity. Qed.

(** The text of a decimal, alone and before [ days]. *)
Lemma uint_read_back d :
  d <> Decimal.Nil ->
  let s := NilZero.string_of_uint d in
  starts_with_digit (s +:+ " days") = true
  /\ starts_with_digit s = true
  /\ take_digits (s +:+ " days") = s
  /\ digits_value 0 s = uint_value 0 d.
Proof.
  intros N s. subst s. rewrite (uint_text d N).
  destruct (uint_head d N) as (c & r & Es & Hc).
  split; [rewrite Es; exact Hc|]. split; [rewrite Es; exact Hc|].
  split; [apply take_digits_uint; reflexivity|apply digits_value_end].
Qed.

(** What [match] and [parseInt] make of the text of a number. *)
Lemma number_read_back z :
  match_number (Z_to_string z +:+ " days") = Some (Z_to_string z)
  /\ parseInt (Z_to_string z) = Num z.
Proof.
  destruct z as [|p|p].
  - split; reflexivity.
  - unfold Z_to_string. simpl Z.to_int. simpl NilZero.string_of_int.
    pose proof (DecimalPos.Unsigned.to_uint_nonnil p) as N.
    destruct (uint_read_back _ N) as (H1 & H2 & H3 & H4).
    rewrite to_uint_value in H4.
    destruct (NilZero.string_of_uint (Pos.to_uint p)) as [|c r] eqn:E;
      [discriminate H2|].
    simpl in H2. destruct (digit_char c H2) as (Hh & Hs & Hp).
    split.
    + change (String c r +:+ " days") with (String c (r +:+ " days")) in H3 |- *.
      unfold match_number; fold match_number.
      rewrite Hh, H2. cbv [andb]. f_equal. exact H3.
    + unfold parseInt. unfold trimStart; fold trimStart.
      rewrite Hs, Hh, Hp, H2. f_equal. exact H4.
  - unfold Z_to_string. simpl Z.to_int. simpl NilZero.string_of_int.
    pose proof (DecimalPos.Unsigned.to_uint_nonnil p) as N.
    destruct (uint_read_back _ N) as (H1 & H2 & H3 & H4).
    rewrite to_uint_value in H4.
    set (s := NilZero.string_of_uint (Pos.to_uint p)) in *.
    split.
    + change (String "-" s +:+ " days") with (String "-" (s +:+ " days")).
      unfold match_number; fold match_number.
      change (is_hyphen "-") with true. rewrite H1. cbv [andb].
      f_equal. f_equal. exact H3.
    + unfold parseInt. unfold trimStart; fold trimStart.
      change (is_space "-") with false. cbv iota.
      change (is_hyphen "-") with true. cbv iota.
      rewrite H2, H4. reflexivity.
Qed.

Lemma gap_positive_number n :
  gap_positive (num_to_string n +:+ " days")
  = match n with Num z => 0 <? z | NaN => false end.
Proof.
  destruct n as [|z]; [reflexivity|].
  unfold gap_positive. rewrite includes_days.
  replace (String.eqb (num_to_string (Num z) +:+ " days") dash) with false
    by (symmetry; apply String.eqb_neq, dash_no_days).
  simpl negb. cbv [andb]. unfold num_to_string.
  destruct (number_read_back z) as [-> ->]. reflexivity.
Qed.

Section WithHost.
Context {host : JsHost}.

Lemma gap_text_cases total dln idx p :
  let it := OperatorView.policy_item total dln idx p in
  (gapLabel it = "Gap"%string /\ gapText it = dash)
  \/ exists n a b, gapText it = (num_to_string n +:+ " days")%string
       /\ gapLabel it = ("Gap (Policy " +:+ Z_to_string a +:+ " start − Policy "
                           +:+ Z_to_string b +:+ " end)")%string.
Proof.
  intros it. subst it. unfold OperatorView.policy_item. cbv zeta.
  cbn [gapLabel gapText].
  destruct (_ <? _);
    match goal with
    | |- context [OperatorView.gap_days ?a ?b] =>
        destruct (OperatorView.gap_days a b) as [n|]
    end; cbn [fst snd]; eauto 6.
Qed.

End WithHost.

End GapHighlight.

Section Highlight.
Context {host : JsHost}.

Lemma gap_field_classes total dln idx p :
  value_classes (gap_field (policy_item total dln idx p))
  = "policy-value"%string
      :: (if gap_positive (gapText (policy_item total dln idx p))
          then ["gap-positive"%string] else []).
Proof.
  unfold gap_field, policy_field.
  destruct (gap_text_cases total dln idx p) as [[-> ->]|(n & a & b & -> & ->)];
    reflexivity.
Qed.

(** The text of a number of days reads back as that number: the pattern
    finds the whole text of the number, sign included, and [parseInt] gives
    the number.  So the value of the gap line of an item is marked
    [gap-positive] exactly when the gap is a positive number of days: never
    for the em-dash, for [NaN days], for zero or for a negative number. *)
Theorem gap_highlight_sign total dln idx p :
  (forall z, match_number (Z_to_string z +:+ " days") = Some (Z_to_string z)
             /\ parseInt (Z_to_string z) = Num z)
  /\ last (policyFields (policy_item total dln idx p))
     = Some (gap_field (policy_item total dln idx p))
  /\ (In "gap-positive"%string (value_classes (gap_field (policy_item total dln idx p)))
      <-> exists z, 0 < z
            /\ gapText (policy_item total dln idx p) = (Z_to_string z +:+ " days")%string).
Proof.
  split; [exact number_read_back|]. split; [reflexivity|].
  rewrite gap_field_classes.
  destruct (gap_text_cases total dln idx p) as [[_ E]|(n & a & b & E & _)];
    cbv zeta in E; rewrite E.
  - change (gap_positive dash) with false. split.
    + intros [H|[]]. discriminate H.
    + intros (z & _ & H). symmetry in H. destruct (dash_no_days _ H).
  - rewrite gap_positive_number. destruct n as [|z'].
    + split.
      * intros [H|[]]. discriminate H.
      * intros (z & _ & H). apply (f_equal match_number) in H.
        rewrite (proj1 (number_read_back z)) in H. discriminate H.
    + split.
      * intros H. exists z'. split; [|reflexivity].
        destruct (0 <? z') eqn:P; [apply Z.ltb_lt; exact P|].
        destruct H as [H|[]]. discriminate H.
      * intros (z & Hz & H). apply (f_equal match_number) in H.
        unfold num_to_string in H.
        rewrite (proj1 (number_read_back z)), (proj1 (number_read_back z')) in H.
        injection H as H. apply (f_equal parseInt) in H.
        rewrite (proj2 (number_read_back z)), (proj2 (number_read_back z')) in H.
        injection H as ->. apply Z.ltb_lt in Hz. rewrite Hz. right. left. reflexivity.
Qed.

End Highlight.

(** ** The copy buttons of the list *)

Section CopyButtons.
Context {host : JsHost}.
Lemma split_at_hyphen s1 : forall s2 r1 r2,
  hyphen_free s1 = true -> hyphen_free s2 = true ->
  (s1 +:+ String "-" r1 = s2 +:+ String "-" r2)%string -> s1 = s2 /\ r1 = r2.
Proof.
  induction s1 as [|c s1 IH]; intros [|c2 s2] r1 r2 H1 H2 E.
  - injection E as ->. split; reflexivity.
  - change (String "-" r1 = String c2 (s2 +:+ String "-" r2)) in E.
    injection E as <- _. discriminate H2.
  - change (String c (s1 +:+ String "-" r1) = String "-" r2) in E.
    injection E as -> _. discriminate H1.
  - change (String c (s1 +:+ String "-" r1) = String c2 (s2 +:+ String "-" r2)) in E.
    injection E as -> E. simpl in H1, H2.
    apply andb_prop in H1 as [_ H1]. apply andb_prop in H2 as [_ H2].
    destruct (IH s2 r1 r2 H1 H2 E) as [-> ->]. split; reflexivity.
Qed.

Lemma uint_hyphen_free d : hyphen_free (NilEmpty.string_of_uint d) = true.
Proof. induction d; simpl; try reflexivity; exact IHd. Qed.

Lemma positive_hyphen_free n : 0 < n -> hyphen_free (Z_to_string n) = true.
Proof.
  destruct n as [|p|p]; try lia. intros _.
  unfold Z_to_string. simpl.
  rewrite uint_text by apply DecimalPos.Unsigned.to_uint_nonnil.
  apply uint_hyphen_free.
Qed.

Lemma Z_to_string_inj a b : Z_to_string a = Z_to_string b -> a = b.
Proof.
  intros H. apply (f_equal parseInt) in H.
  rewrite (proj2 (number_read_back a)), (proj2 (number_read_back b)) in H.
  congruence.
Qed.

(** The id of a value: [policy-N-key]. *)
Lemma field_id_inj n1 n2 k1 k2 :
  0 < n1 -> 0 < n2 ->
  ("policy-" +:+ Z_to_string n1 +:+ String "-" k1
   = "policy-" +:+ Z_to_string n2 +:+ String "-" k2)%string ->
  n1 = n2 /\ k1 = k2.
Proof.
  intros H1 H2 E.
  change (String.append "policy-" ?x) with
    (String "p" (String "o" (String "l" (String "i" (String "c" (String "y" (String "-" x))))))) in E.
  injection E as E.
  apply split_at_hyphen in E as [E ->]; try (apply positive_hyphen_free; assumption).
  split; [apply Z_to_string_inj; exact E|reflexivity].
Qed.

Lemma find_unique {A} (p : A -> bool) l x :
  In x l -> p x = true -> (forall y, In y l -> p y = true -> y = x) ->
  List.find p l = Some x.
Proof.
  induction l as [|a l IH]; intros Hin Hp Hu; [destruct Hin|].
  simpl. destruct (p a) eqn:Pa.
  - f_equal. apply Hu; [left; reflexivity|exact Pa].
  - destruct Hin as [->|Hin]; [congruence|].
    apply IH; [assumption|assumption|].
    intros y Hy. apply Hu. right. exact Hy.
Qed.

Lemma find_app_skip {A} (p : A -> bool) l1 l2 :
  (forall y, In y l1 -> p y = false) ->
  List.find p (l1 ++ l2) = List.find p l2.
Proof.
  induction l1 as [|a l1 IH]; intros H; [reflexivity|].
  simpl. rewrite (H a) by (left; reflexivity).
  apply IH. intros y Hy. apply H. right. exact Hy.
Qed.

Lemma find_app_found {A} (p : A -> bool) l1 l2 x :
  List.find p l1 = Some x -> List.find p (l1 ++ l2) = Some x.
Proof.
  induction l1 as [|a l1 IH]; intros H; [discriminate H|].
  simpl in H |- *. destruct (p a); [exact H|apply IH; exact H].
Qed.

(** The items of a rendering are numbered from the size of the list down. *)
Lemma rendered_numbers st a dln r it :
  fst (renderPolicies st a dln) !! r = Some it ->
  policyNum it
  = Z.of_nat (length (fst (renderPolicies st a dln))) - Z.of_nat r
  /\ exists total p, it = policy_item total dln r p.
Proof.
  unfold renderPolicies.
  destruct (length (array_read st a) =? 0)%nat.
  - simpl. rewrite lookup_nil. discriminate.
  - unfold array_spread. cbn [fst].
    set (items0 := array_read _ _).
    rewrite length_imap, list_lookup_imap.
    destruct (items0 !! r) as [p|]; [|discriminate].
    simpl. intros H. injection H as <-. split; [reflexivity|eauto].
Qed.

Lemma item_ids total dln r p vhs f i :
  let it := policy_item total dln r p in
  In f (policyFields it ++ vehicleFields (policyNum it) vhs) ->
  value_id f = Some i ->
  exists k, i = ("policy-" +:+ Z_to_string (policyNum it) +:+ String "-" k)%string
    /\ ((k = "end"%string /\ f = end_field it)
        \/ (k = "start"%string /\ f = start_field it)
        \/ (k = "vin"%string /\ f = vin_field (policyNum it) vhs)).
Proof.
  intros it Hin Hid. apply in_app_or in Hin as [Hin|Hin].
  - unfold policyFields in Hin. cbn [List.map In] in Hin.
    destruct Hin as [<-|[<-|[<-|[<-|[<-|[]]]]]]; try discriminate Hid.
    + exists "end"%string. injection Hid as <-. split; [reflexivity|]. left. split; reflexivity.
    + exists "start"%string. injection Hid as <-. split; [reflexivity|]. right. left.
      split; reflexivity.
    + exfalso. subst it. unfold policy_field in Hid.
      destruct (gap_text_cases total dln r p) as [[E _]|(n & a & b & _ & E)];
        cbv zeta in E; rewrite E in Hid; discriminate Hid.
  - unfold vehicleFields in Hin. cbn [List.map In] in Hin.
    destruct Hin as [<-|[<-|[<-|[]]]]; try discriminate Hid.
    exists "vin"%string. injection Hid as <-. split; [reflexivity|]. right. right.
    split; reflexivity.
Qed.

Lemma data_copy_id n l v vhs f :
  In f (policy_field n l v :: vehicleFields n vhs) -> data_copy f = value_id f.
Proof.
  intros [<-|H].
  - unfold policy_field. repeat match goal with
                                | |- context [if ?b then _ else _] => destruct b
                                end; reflexivity.
  - unfold vehicleFields in H. cbn [List.map In] in H.
    destruct H as [<-|[<-|[<-|[]]]]; reflexivity.
Qed.

Lemma line_data_copy it vhs f :
  In f (policyFields it ++ vehicleFields (policyNum it) vhs) ->
  data_copy f = value_id f.
Proof.
  intros H. apply in_app_or in H as [H|H].
  - unfold policyFields in H. cbn [List.map In] in H.
    destruct H as [<-|[<-|[<-|[<-|[<-|[]]]]]];
      eapply (data_copy_id (policyNum it) _ _ vhs); left; reflexivity.
  - apply (data_copy_id (policyNum it) EmptyString EmptyString vhs). right. exact H.
Qed.

Lemma escapeHtml_to_plain s : forall t,
  plain t -> escapeHtml s = t -> s = t.
Proof.
  unfold plain. induction s as [|c s IH]; intros t Ht E; [exact E|].
  simpl in E. destruct (escape_char_cases c) as [[Hc Ec]|[Hc He]].
  - rewrite Ec in E. subst t. simpl in Ht. inversion Ht as [|? ? _ Ht']; subst.
    change (String c s = String c (escapeHtml s)). f_equal. apply IH; [exact Ht'|reflexivity].
  - exfalso. unfold entities in He. simpl in He.
    destruct He as [He|[He|[He|[He|[He|[]]]]]]; rewrite <- He in E; subst t;
      simpl in Ht; inversion Ht as [|? ? Hamp _]; discriminate Hamp.
Qed.

Lemma copy_text_escaped v :
  copy_text (escapeHtml v)
  = if String.eqb v EmptyString || String.eqb v dash then ShowsEmpty
    else WriteText (escapeHtml v).
Proof.
  unfold copy_text.
  destruct (String.eqb_spec v EmptyString) as [->|Hv]; [reflexivity|].
  destruct (String.eqb_spec v dash) as [->|Hd]; [reflexivity|].
  replace (truthy (escapeHtml v)) with true.
  - destruct (String.eqb_spec (escapeHtml v) dash) as [E|_]; [|reflexivity].
    apply escapeHtml_to_plain in E; [congruence|].
    unfold plain. simpl. repeat constructor.
  - destruct (escapeHtml v) eqn:E; [|reflexivity].
    apply escapeHtml_to_plain in E; [congruence|constructor].
Qed.

Section Lines.
Variable vehicles : Policy -> list Vehicle.
Variables (st : gmap positive (list Policy)) (a : positive) (dln : string).
Variables (before after : list Field).

Hypothesis before_ids :
  forall e i, In e before -> value_id e = Some i -> is_prefix "policy-" i = false.

Let items := fst (renderPolicies st a dln).
Let doc := before ++ policy_lines vehicles items ++ after.

Lemma item_position it :
  In it items ->
  exists r total p, items !! r = Some it /\ it = policy_item total dln r p
    /\ policyNum it = Z.of_nat (length items) - Z.of_nat r
    /\ 0 < policyNum it.
Proof.
  intros H. apply list_elem_of_In, list_elem_of_lookup_1 in H as [r H].
  destruct (rendered_numbers st a dln r it H) as (E & total & p & Ep).
  exists r, total, p. split; [exact H|]. split; [exact Ep|]. split; [exact E|].
  apply lookup_lt_Some in H. fold items in E. lia.
Qed.

Lemma lookup_line it f i :
  In it items ->
  In f (policyFields it ++ vehicleFields (policyNum it) (vehicles (item_policy it))) ->
  value_id f = Some i ->
  getElementById doc i = Some f.
Proof.
  intros Hit Hf Hid.
  destruct (item_position it Hit) as (r & total & p & Hr & Ep & En & Hpos).
  pose proof Hf as Hf'. rewrite Ep in Hf'.
  apply (item_ids total dln r p _ f i) in Hf' as (k & Ei & Hk); [|exact Hid].
  rewrite <- Ep in Ei, Hk.
  unfold getElementById, doc.
  rewrite find_app_skip.
  2:{ intros e He. destruct (value_id e) as [j|] eqn:Ej; [|reflexivity].
      apply String.eqb_neq. intros E. subst j.
      pose proof (before_ids e i He Ej) as P. rewrite Ei in P.
      change (true = false) in P. discriminate P. }
  apply find_app_found. apply find_unique.
  - unfold policy_lines. apply in_flat_map. exists it. split; assumption.
  - rewrite Hid. apply String.eqb_refl.
  - intros y Hy Py. destruct (value_id y) as [j|] eqn:Ej; [|discriminate Py].
    apply String.eqb_eq in Py. subst j.
    unfold policy_lines in Hy. apply in_flat_map in Hy as (it' & Hit' & Hy).
    destruct (item_position it' Hit') as (r' & total' & p' & Hr' & Ep' & En' & Hpos').
    pose proof Hy as Hy'. rewrite Ep' in Hy'.
    apply (item_ids total' dln r' p' _ y i) in Hy' as (k' & Ei' & Hk'); [|exact Ej].
    rewrite <- Ep' in Ei', Hk'.
    rewrite Ei in Ei'. apply field_id_inj in Ei' as [EN Ek]; try assumption.
    assert (it' = it) as ->.
    { assert (r' = r) as -> by lia. congruence. }
    subst k'.
    destruct Hk as [[-> ->]|[[-> ->]|[-> ->]]];
      destruct Hk' as [[Ek ->]|[[Ek ->]|[Ek ->]]]; first [reflexivity|discriminate Ek].
Qed.

End Lines.

End CopyButtons.

(** The ids of the values of a rendered list are pairwise distinct, so that
    a copy button of an item copies the text of the value it stands beside:
    the end term, the start term or the VIN of that very item, as the page
    shows it (that is, escaped).  The button says [empty] for the em-dash
    and for nothing else that the list shows.  [before] and [after] are the
    elements of the document around the list; no element before the list
    may carry an id that begins with [policy-]. *)
Theorem copy_button_own_value {host : JsHost} (vehicles : Policy -> list Vehicle)
  (st : gmap positive (list Policy)) (a : positive) (dln : string)
  (before after : list Field) (it : PolicyItem) :
  (forall e i, In e before -> value_id e = Some i -> is_prefix "policy-" i = false) ->
  In it (fst (renderPolicies st a dln)) ->
  let doc := before ++ policy_lines vehicles (fst (renderPolicies st a dln)) ++ after in
  let id key := ("policy-" +:+ Z_to_string (policyNum it) +:+ "-" +:+ key)%string in
  (forall f fieldId,
     In f (policyFields it ++ vehicleFields (policyNum it) (vehicles (item_policy it))) ->
     data_copy f = Some fieldId ->
     copy_click doc fieldId = copy_text (value_text f))
  /\ copy_click doc (id "end") = copy_text (escapeHtml (item_end_term it))
  /\ copy_click doc (id "start") = copy_text (escapeHtml (item_start_term it))
  /\ copy_click doc (id "vin")
     = copy_text (escapeHtml (vinText (vehicles (item_policy it))))
  /\ (forall v,
        copy_text (escapeHtml v)
        = if String.eqb v EmptyString || String.eqb v dash then ShowsEmpty
          else WriteText (escapeHtml v)).
Proof.
  intros Hb Hit doc id.
  assert (forall f fieldId,
     In f (policyFields it ++ vehicleFields (policyNum it) (vehicles (item_policy it))) ->
     data_copy f = Some fieldId ->
     copy_click doc fieldId = copy_text (value_text f)) as G.
  { intros f i Hf Hc. rewrite (line_data_copy it _ f Hf) in Hc.
    unfold copy_click. subst doc.
    rewrite (lookup_line vehicles st a dln before after Hb it f i Hit Hf Hc).
    reflexivity. }
  split; [exact G|].
  split; [|split; [|split; [|exact copy_text_escaped]]].
  - apply (G (end_field it)); [|reflexivity].
    apply in_or_app. left. unfold policyFields. cbn [List.map In]. auto.
  - apply (G (start_field it)); [|reflexivity].
    apply in_or_app. left. unfold policyFields. cbn [List.map In]. auto.
  - apply (G (vin_field (policyNum it) (vehicles (item_policy it)))); [|reflexivity].
    apply in_or_app. right. unfold vehicleFields. cbn [List.map In]. auto.
Qed.

(** The oldest of two policies, number 2, below the licence number of the
    headline: its operator has no terms, its start comes from the policy. *)
Lemma copy_button_own_value_witness :
  let st : gmap positive (list Policy) :=
    {[ 1%positive := [Sample.recent; Sample.oldest] ]} in
  let heading :=
    {| field_label := "DLN:"; value_id := Some "dln"%string;
       value_text := "D1234-56789"; value_classes := []; data_copy := None |} in
  let doc :=
    [heading]
      ++ policy_lines (fun _ => [Sample.civic])
           (fst (renderPolicies (host := RefHost.utc) st 1 "D1234-56789"))
      ++ [] in
  copy_click doc "policy-2-end" = ShowsEmpty
  /\ copy_click doc "policy-2-start" = WriteText "01/01/2022"
  /\ copy_click doc "policy-2-vin" = WriteText "2HGFC2F59KH500001".
Proof.
  intros st heading doc.
  destruct (renderPolicies_run (host := RefHost.utc) st 1 "D1234-56789"
              [Sample.recent; Sample.oldest]) as [H _];
    [reflexivity|discriminate|].
  destruct (copy_button_own_value (host := RefHost.utc) (fun _ => [Sample.civic]) st 1
              "D1234-56789" [heading] []
              (policy_item (host := RefHost.utc) 2 "D1234-56789" 0 Sample.oldest))
    as (_ & He & Hs & Hv & _).
  - intros e i [<-|[]] E. injection E as <-. reflexivity.
  - rewrite H. left. reflexivity.
  - split; [exact He|]. split; [exact Hs|exact Hv].
Defined.

(** ** The gap of an item of the list *)

Section ListGap.
Context {host : JsHost}.

Lemma parse_slash_text y m d :
  reads_local_iso host -> valid_date y m d -> 1000 <= y <= 9999 ->
  parseMaybeDate (slash_text y m d) = Some (Num (instant y m d 0))
  /\ truthy (slash_text y m d) = true
  /\ String.eqb (slash_text y m d) dash = false.
Proof.
  intros Hhost [Vm Vd] Hy.
  assert (d <= 31) as Hd31.
  { unfold days_in_month in Vd.
    repeat match type of Vd with
           | context [if ?b then _ else _] => destruct b
           end; lia. }
  destruct (two_digit_chars m ltac:(lia)) as (a & b & Em & Ha & Hb & _).
  destruct (two_digit_chars d ltac:(lia)) as (c & d' & Ed & Hc & Hd & _).
  destruct (four_digit_chars y Hy) as (e & f & g & h & Ey & Hyd & _).
  pose proof (Hhost y m d (conj Vm Vd) Hy) as P.
  unfold iso_text in P. unfold slash_text. rewrite Em, Ed, Ey in P |- *.
  change (str [a; b] +:+ "/" +:+ str [c; d'] +:+ "/" +:+ str [e; f; g; h])
    with (str [a; b; "/"%char; c; d'; "/"%char; e; f; g; h]).
  split; [|split].
  - rewrite parse_slash_digits.
    + unfold new_Date. f_equal. exact P.
    + simpl in Hyd |- *. rewrite Ha, Hb, Hc, Hd. exact Hyd.
  - reflexivity.
  - apply String.eqb_neq. intros E. unfold str, dash in E. simpl in E.
    injection E as E _. subst a. discriminate Ha.
Qed.

Lemma shown_slash_text y m d :
  reads_local_iso host -> valid_date y m d -> 1000 <= y <= 9999 ->
  shown_term (slash_text y m d) = slash_text y m d.
Proof.
  intros Hhost V Hy. unfold shown_term.
  destruct (parse_slash_text y m d Hhost V Hy) as (-> & _).
  apply format_instant; [exact V|unfold DAY; lia].
Qed.

Lemma whole_days y1 m1 d1 y2 m2 d2 :
  (instant y1 m1 d1 0 - instant y2 m2 d2 0) / (1000 * 60 * 60 * 24)
  = days_from_civil y1 m1 d1 - days_from_civil y2 m2 d2.
Proof.
  unfold instant. change (1000 * 60 * 60 * 24) with DAY.
  match goal with
  | |- (?x * DAY + 0 - ?t - (?y * DAY + 0 - ?t)) / DAY = _ =>
      replace (x * DAY + 0 - t - (y * DAY + 0 - t)) with ((x - y) * DAY) by lia
  end.
  apply Z.div_mul. unfold DAY. lia.
Qed.

(** The days between two local midnights that are not taken at the same
    offset: [a] is the midnight of the day [A] at the offset [oa], [b] that
    of the day [B] at the offset [ob].  When [oa] is the larger offset the
    two are an hour or so short of whole days apart, and the floor drops a
    day. *)
Lemma gap_days_across_offsets A B oa ob :
  - DAY < oa - ob < DAY ->
  gap_days (Some (Num (A * DAY - oa))) (Some (Num (B * DAY - ob)))
  = Some (Num (A - B - (if ob <? oa then 1 else 0))).
Proof.
  intros H. unfold gap_days, num_sub, floor_div. do 2 f_equal.
  change (1000 * 60 * 60 * 24) with DAY.
  assert (0 < DAY) as P by (unfold DAY; lia).
  destruct (Z.ltb_spec ob oa) as [L|L].
  - replace (A * DAY - oa - (B * DAY - ob))
      with ((A - B - 1) * DAY + (DAY - (oa - ob))) by lia.
    rewrite Z.div_add_l by lia. rewrite Z.div_small by lia. lia.
  - replace (A * DAY - oa - (B * DAY - ob))
      with ((A - B) * DAY + (ob - oa)) by lia.
    rewrite Z.div_add_l by lia. rewrite Z.div_small by lia. lia.
Qed.

(** The gap line of an item compares the two dates the item itself shows.
    In a zone with one offset all year (the zone of the host, which reads
    the local date-time text as the local midnight at that offset), with a
    start of earliest term and an end term written month/day/year, an item
    that is not the last one shows the days from its end back to its start
    (a negative number for a policy that starts before it ends), the last
    one shows the days from its start to its end; the value is marked
    [gap-positive] when that number is positive.  Where the clocks change
    between the two dates, the two midnights are taken at different offsets
    and the number can be one day less than the days of the calendar: the
    last part gives the number for any two offsets. *)
Theorem list_gap_own_dates (total idx : nat) (dln : string) (p : Policy) (o : Operator)
  (ys ms ds ye me de : Z) :
  reads_local_iso host ->
  valid_date ys ms ds -> 1000 <= ys <= 9999 ->
  valid_date ye me de -> 1000 <= ye <= 9999 ->
  dlnMatchedOp (operators p) dln = Some o ->
  start_of_earliest_term p = slash_text ys ms ds ->
  end_term o = slash_text ye me de ->
  let it := policy_item total dln idx p in
  let days :=
    if Z.of_nat idx <? Z.of_nat total - 1
    then days_from_civil ys ms ds - days_from_civil ye me de
    else days_from_civil ye me de - days_from_civil ys ms ds in
  item_start_term it = slash_text ys ms ds
  /\ item_end_term it = slash_text ye me de
  /\ gapText it = (Z_to_string days +:+ " days")%string
  /\ (In "gap-positive"%string (value_classes (gap_field it)) <-> 0 < days)
  /\ (forall A B oa ob,
        - DAY < oa - ob < DAY ->
        gap_days (Some (Num (A * DAY - oa))) (Some (Num (B * DAY - ob)))
        = Some (Num (A - B - (if ob <? oa then 1 else 0)))).
Proof.
  intros Hhost Vs Hys Ve Hye Ho Es Ee it days.
  destruct (parse_slash_text ys ms ds Hhost Vs Hys) as (Ps & Ts & Ds).
  destruct (parse_slash_text ye me de Hhost Ve Hye) as (Pe & Te & De).
  assert (displayStartTerm p dln = slash_text ys ms ds) as S1.
  { unfold displayStartTerm. rewrite Ho, Es. unfold or_else. rewrite Ts. reflexivity. }
  assert (displayEndTerm p dln = slash_text ye me de) as E1.
  { unfold displayEndTerm. rewrite Ho, Ee, Te.
    apply shown_slash_text; assumption. }
  assert (gapText it = (Z_to_string days +:+ " days")%string) as G.
  { subst it days. unfold policy_item. cbv zeta. cbn [gapText].
    rewrite S1, E1. unfold parse_shown. rewrite Ts, Ds, Te, De. cbn [andb negb].
    rewrite Ps, Pe. unfold gap_days, num_sub, floor_div.
    rewrite !whole_days.
    destruct (_ <? _); reflexivity. }
  split; [exact S1|]. split; [exact E1|]. split; [exact G|].
  split; [|exact gap_days_across_offsets].
  subst it. rewrite gap_field_classes, G.
  change (Z_to_string days) with (num_to_string (Num days)).
  rewrite gap_positive_number.
  destruct (0 <? days) eqn:P.
  - apply Z.ltb_lt in P. split; [auto|]. intros _. right. left. reflexivity.
  - apply Z.ltb_ge in P. split; [|lia]. intros [H|[]]. discriminate H.
Qed.

End ListGap.

(** A policy of the year 2022, first of two items and then last; and the
    midnights of the 1st and of the 20th of March 2022 in Toronto, five and
    four hours behind UTC: nineteen days on the calendar, eighteen by the
    floor. *)
Lemma list_gap_own_dates_witness :
  let p :=
    Sample.policy (Sample.header_of "Jane Doe" "01/01/2022" "01/01/2023" EmptyString)
      [Sample.operator "Jane Doe" "D1" "Self" "01/01/2022" "01/01/2023"]
      "01/01/2022" in
  gapText (policy_item (host := RefHost.utc_minus_5) 2 "D1" 0 p) = "-365 days"%string
  /\ gapText (policy_item (host := RefHost.utc_minus_5) 2 "D1" 1 p) = "365 days"%string
  /\ In "gap-positive"%string
       (value_classes (gap_field (policy_item (host := RefHost.utc_minus_5) 2 "D1" 1 p)))
  /\ gap_days (Some (Num (days_from_civil 2022 3 20 * DAY + 4 * RefHost.hour)))
       (Some (Num (days_from_civil 2022 3 1 * DAY + 5 * RefHost.hour)))
     = Some (Num 18).
Proof.
  intros p.
  pose (o := Sample.operator "Jane Doe" "D1" "Self" "01/01/2022" "01/01/2023").
  assert (valid_date 2022 1 1 /\ valid_date 2023 1 1) as [V1 V2]
    by (vm_compute; repeat split; discriminate).
  destruct (list_gap_own_dates (host := RefHost.utc_minus_5) 2 0 "D1" p o
              2022 1 1 2023 1 1 (ref_host_reads_local_iso _) V1 ltac:(lia) V2
              ltac:(lia) eq_refl eq_refl eq_refl) as (_ & _ & G0 & _).
  destruct (list_gap_own_dates (host := RefHost.utc_minus_5) 2 1 "D1" p o
              2022 1 1 2023 1 1 (ref_host_reads_local_iso _) V1 ltac:(lia) V2
              ltac:(lia) eq_refl eq_refl eq_refl) as (_ & _ & G1 & C1 & T).
  split; [exact G0|]. split; [exact G1|]. split; [apply C1; reflexivity|].
  apply (T (days_from_civil 2022 3 20) (days_from_civil 2022 3 1)
           (- (4 * RefHost.hour)) (- (5 * RefHost.hour))).
  vm_compute. split; reflexivity.
Defined.

(** ** The badge of a policy against itself *)

Section OwnBadge.
Context {host : JsHost}.

(** The gap badge of the policy page counts the months from the end of the
    policy to its own start.  For a policy that does not start in a later
    month than it ends, the badge never tells a coverage gap: it reads
    [No Coverage Gap] when both dates fall in the same month, and otherwise
    an overlap of as many months as the policy runs. *)
Theorem own_badge_never_gap (h : PolicyHeader) (ys ms ds ye me de : Z) :
  reads_local_iso host ->
  valid_date ys ms ds -> 1000 <= ys <= 9999 ->
  valid_date ye me de -> 1000 <= ye <= 9999 ->
  effective_date h = slash_text ys ms ds ->
  or_else (expiry_date h) (cancellation_date h) = slash_text ye me de ->
  ys * 12 + ms <= ye * 12 + me ->
  let months := (ye - ys) * 12 + (me - ms) in
  PolicyView.gapMsg h
  = if months =? 0 then "No Coverage Gap"%string
    else ("Overlap — " +:+ Z_to_string months +:+ " month"
            +:+ (if (months =? 1)%Z then EmptyString else "s"))%string.
Proof.
  intros Hhost Vs Hys Ve Hye Es Ee Hle months.
  destruct (parse_slash_text ys ms ds Hhost Vs Hys) as (Ps & _).
  destruct (parse_slash_text ye me de Hhost Ve Hye) as (Pe & _).
  rewrite (gapMsg_determinate h (instant ye me de 0) (instant ys ms ds 0)).
  - unfold calendar_months.
    destruct (fields_of_instant ys ms ds 0 Vs) as [-> ->]; [unfold DAY; lia|].
    destruct (fields_of_instant ye me de 0 Ve) as [-> ->]; [unfold DAY; lia|].
    unfold Spec.relate, Spec.badge, Spec.month_count.
    replace ((ys - ye) * 12 + (ms - me)) with (- months) by (subst months; lia).
    destruct (Z.eqb_spec months 0) as [E0|N0].
    + rewrite E0. reflexivity.
    + assert (0 < months) as P by (subst months; lia).
      replace (0 <? - months) with false by (symmetry; apply Z.ltb_ge; lia).
      replace (- months =? 0) with false by (symmetry; apply Z.eqb_neq; lia).
      replace (Z.abs (- months)) with months by lia. reflexivity.
  - rewrite Ee. exact Pe.
  - rewrite Es. exact Ps.
Qed.

End OwnBadge.

(** A policy of one year. *)
Lemma own_badge_never_gap_witness :
  PolicyView.gapMsg (host := RefHost.utc_minus_5)
    (Sample.header_of "Jane Doe" "01/15/2022" "01/15/2023" EmptyString)
  = "Overlap — 12 months"%string.
Proof.
  assert (valid_date 2022 1 15 /\ valid_date 2023 1 15) as [V1 V2]
    by (vm_compute; repeat split; discriminate).
  exact (own_badge_never_gap (host := RefHost.utc_minus_5)
           (Sample.header_of "Jane Doe" "01/15/2022" "01/15/2023" EmptyString)
           2022 1 15 2023 1 15 (ref_host_reads_local_iso _) V1 ltac:(lia) V2
           ltac:(lia) eq_refl eq_refl ltac:(lia)).
Defined.

(** ** An end term that names no date *)

Section InvalidTerm.
Context {host : JsHost}.

(** An end term that [parseMaybeDate] turns into an invalid [Date] (a text
    of the right shape that names no date) is not shown as it was received:
    the item shows [NaN/NaN/NaN].  That text is no date for a host whose
    parser rejects it, and the gap line then shows the em-dash under the
    plain label. *)
Theorem invalid_term_shown_NaN (total idx : nat) (dln : string) (p : Policy)
  (o : Operator) :
  dlnMatchedOp (operators p) dln = Some o ->
  parseMaybeDate (end_term o) = Some NaN ->
  Date_parse "NaN/NaN/NaN" = NaN ->
  item_end_term (policy_item total dln idx p) = "NaN/NaN/NaN"%string
  /\ gapLabel (policy_item total dln idx p) = "Gap"%string
  /\ gapText (policy_item total dln idx p) = dash.
Proof.
  intros Ho Hp Hn.
  assert (truthy (end_term o) = true) as T.
  { destruct (end_term o); [discriminate Hp|reflexivity]. }
  assert (displayEndTerm p dln = "NaN/NaN/NaN"%string) as E.
  { unfold displayEndTerm. rewrite Ho, T. unfold shown_term. rewrite Hp. reflexivity. }
  assert (parse_shown "NaN/NaN/NaN" = None) as P.
  { unfold parse_shown, parseMaybeDate. simpl. rewrite Hn. reflexivity. }
  unfold policy_item. cbv zeta. cbn [item_end_term gapLabel gapText].
  rewrite E, P. clear P. split; [reflexivity|].
  unfold gap_days.
  destruct (_ <? _); destruct (parse_shown (displayStartTerm p dln));
    split; reflexivity.
Qed.

End InvalidTerm.

(** An end term on the 45th of a month 13. *)
Lemma invalid_term_shown_NaN_witness :
  let p :=
    Sample.policy (Sample.header_of "Jane Doe" "01/01/2022" "01/01/2023" EmptyString)
      [Sample.operator "Jane Doe" "D1" "Self" "01/01/2022" "13/45/2023"]
      "01/01/2022" in
  let it := policy_item (host := RefHost.utc) 1 "D1" 0 p in
  item_end_term it = "NaN/NaN/NaN"%string /\ gapText it = dash.
Proof.
  intros p it.
  destruct (invalid_term_shown_NaN (host := RefHost.utc) 1 0 "D1" p
              (Sample.operator "Jane Doe" "D1" "Self" "01/01/2022" "13/45/2023")
              eq_refl eq_refl eq_refl) as (H1 & _ & H2).
  split; [exact H1|exact H2].
Defined.

(** ** The VIN of policy number 1 *)

Section FirstVin.
Context {host : JsHost}.

Lemma firstPolicyVin_head vehicles p ps :
  firstPolicyVin vehicles (p :: ps) = vinText (vehicles p).
Proof.
  unfold firstPolicyVin. cbn [length Nat.ltb Nat.leb].
  rewrite length_reverse. cbn [length].
  rewrite reverse_lookup by (simpl; lia).
  replace (length (p :: ps) - S (S (length ps) - 1))%nat with 0%nat by (simpl; lia).
  cbn [lookup list_lookup]. cbv zeta. unfold vinText.
  destruct (vehicles p) as [|v vs]; reflexivity.
Qed.

(** The VIN in the headline is the VIN of the item that the list numbers 1:
    that item is the last one of the list, its policy is the first of the
    list as received, and its VIN line shows the escaped text of the
    headline. *)
Theorem first_policy_vin (vehicles : Policy -> list Vehicle)
  (st : gmap positive (list Policy)) (a : positive) (dln : string)
  (ps : list Policy) (it : PolicyItem) :
  st !! a = Some ps ->
  In it (fst (renderPolicies st a dln)) ->
  policyNum it = 1 ->
  head ps = Some (item_policy it)
  /\ last (fst (renderPolicies st a dln)) = Some it
  /\ setText (firstPolicyVin vehicles ps) = vinText (vehicles (item_policy it))
  /\ value_text (vin_field (policyNum it) (vehicles (item_policy it)))
     = escapeHtml (setText (firstPolicyVin vehicles ps)).
Proof.
  intros Ha Hit Hn.
  destruct ps as [|p ps].
  { unfold renderPolicies, array_read in Hit. rewrite Ha in Hit. destruct Hit. }
  destruct (renderPolicies_run st a dln (p :: ps) Ha ltac:(discriminate)) as [E _].
  rewrite E in Hit |- *.
  apply list_elem_of_In, elem_of_lookup_imap_1 in Hit as (r & q & -> & Hr).
  pose proof (lookup_lt_Some _ _ _ Hr) as Hlt. rewrite length_reverse in Hlt.
  cbn [policyNum policy_item] in Hn.
  assert (r = length ps) as -> by (simpl in Hn, Hlt; lia).
  rewrite reverse_lookup in Hr by (simpl; lia).
  replace (length (p :: ps) - S (length ps))%nat with 0%nat in Hr by (simpl; lia).
  injection Hr as <-.
  assert (setText (firstPolicyVin vehicles (p :: ps)) = vinText (vehicles p)) as V.
  { rewrite firstPolicyVin_head. unfold setText, or_else, vinText.
    destruct (head (vehicles p)) as [v|]; [|reflexivity].
    destruct (vin v); reflexivity. }
  split; [reflexivity|]. split; [|split; [exact V|rewrite V; reflexivity]].
  rewrite last_lookup, length_imap, length_reverse, list_lookup_imap.
  cbn [length Nat.pred].
  rewrite reverse_lookup by (simpl; lia).
  replace (length (p :: ps) - S (length ps))%nat with 0%nat by (simpl; lia).
  reflexivity.
Qed.

End FirstVin.

(** Two policies, the most recent one with a vehicle. *)
Lemma first_policy_vin_witness :
  let st : gmap positive (list Policy) :=
    {[ 1%positive := [Sample.recent; Sample.oldest] ]} in
  let vehicles := fun p : Policy =>
    if String.eqb (start_of_earliest_term p) "02/01/2023" then [Sample.civic] else [] in
  setText (firstPolicyVin vehicles [Sample.recent; Sample.oldest])
  = "2HGFC2F59KH500001"%string
  /\ last (fst (renderPolicies (host := RefHost.utc) st 1 "D1234-56789"))
     = Some (policy_item (host := RefHost.utc) 2 "D1234-56789" 1 Sample.recent).
Proof.
  intros st vehicles.
  destruct (renderPolicies_run (host := RefHost.utc) st 1 "D1234-56789"
              [Sample.recent; Sample.oldest]) as [H _];
    [reflexivity|discriminate|].
  destruct (first_policy_vin (host := RefHost.utc) vehicles st 1 "D1234-56789"
              [Sample.recent; Sample.oldest]
              (policy_item (host := RefHost.utc) 2 "D1234-56789" 1 Sample.recent))
    as (_ & L & V & _).
  - reflexivity.
  - rewrite H. right. left. reflexivity.
  - reflexivity.
  - split; [exact V|exact L].
Defined.

End ListView.
